(** * Preview-deployment handler (src/handler.js): shallow embedding

    The handler is a single-flow orchestrator: it reads one event payload,
    filters on the repository name, routes on the action and then runs the
    generation flow ([handlePreviewGeneration]) or the cleanup flow
    ([handleCleanup]).

    The model: the payload is the value [JSON.parse] built, the
    configuration is the parsed [config.json]; what the process does
    (console output, [execSync], [fs] calls, [process.chdir]) is recorded,
    in order, as a list of [event]s; the file system is a tree; external
    commands and the clock are answered by an oracle over an abstract
    outside world; [process.exit] ends a run and is not caught by
    [try]/[catch]. *)

From Stdlib Require Import String Ascii List ZArith Bool Lia DecimalString.
Import ListNotations.
Set Warnings "-register-all".
Local Open Scope list_scope.
Local Open Scope string_scope.

(** ** Strings, as the JavaScript string methods the handler calls *)

Module Str.

(** [hay.includes(needle)] *)
Fixpoint includes (needle hay : string) : bool :=
  if String.prefix needle hay then true
  else match hay with
       | EmptyString => false
       | String _ rest => includes needle rest
       end.

(** [s.endsWith(suffix)] *)
Definition endsWith (suffix s : string) : bool :=
  let n := String.length s in
  let k := String.length suffix in
  (k <=? n)%nat && String.eqb (String.substring (n - k) k s) suffix.

Definition startsWith (p s : string) : bool := String.prefix p s.

(** [s.split('/')]: never empty, the empty string gives one empty piece. *)
Fixpoint splitSlash (s : string) : list string :=
  match s with
  | EmptyString => [EmptyString]
  | String c rest =>
      if Ascii.eqb c "/"%char then EmptyString :: splitSlash rest
      else match splitSlash rest with
           | h :: t => String c h :: t
           | [] => [String c EmptyString]
           end
  end.

Definition joinSlash (l : list string) : string := String.concat "/" l.

(** Decimal rendering of an integer, as a template literal renders it. *)
Definition ofZ (z : Z) : string := NilZero.string_of_int (Z.to_int z).

End Str.

(** ** Node's [path] module (POSIX flavour) *)

Module Path.

Definition isAbsolute (p : string) : bool := Str.startsWith "/" p.

(** [normalizeString]: drops empty and [.] segments, resolves [..]
    against the segment before it; [acc] is the result so far, last
    segment first. *)
Fixpoint normSegs (allowAboveRoot : bool) (acc segs : list string)
  : list string :=
  match segs with
  | [] => rev acc
  | s :: rest =>
      if String.eqb s "" || String.eqb s "." then
        normSegs allowAboveRoot acc rest
      else if String.eqb s ".." then
        match acc with
        | last :: acc' =>
            if String.eqb last ".." then
              normSegs allowAboveRoot
                (if allowAboveRoot then ".." :: acc else acc) rest
            else normSegs allowAboveRoot acc' rest
        | [] =>
            normSegs allowAboveRoot
              (if allowAboveRoot then [".."] else []) rest
        end
      else normSegs allowAboveRoot (s :: acc) rest
  end.

(** [path.normalize(p)] *)
Definition normalize (p : string) : string :=
  if String.eqb p "" then "."
  else
    let abs := isAbsolute p in
    let trailing := Str.endsWith "/" p in
    let body := Str.joinSlash (normSegs (negb abs) [] (Str.splitSlash p)) in
    if String.eqb body "" then
      if abs then "/" else if trailing then "./" else "."
    else
      (if abs then "/" else "") ++ body ++ (if trailing then "/" else "").

(** [path.join(...parts)] *)
Definition join (parts : list string) : string :=
  let joined :=
    Str.joinSlash (filter (fun s => negb (String.eqb s "")) parts) in
  if String.eqb joined "" then "." else normalize joined.

(** [path.resolve(p)] with the process working directory [cwd] (absolute).
    The result is absolute and normalised, without trailing slash. *)
Definition resolve (cwd p : string) : string :=
  let full :=
    if String.eqb p "" then cwd
    else if isAbsolute p then p
    else cwd ++ "/" ++ p in
  "/" ++ Str.joinSlash (normSegs false [] (Str.splitSlash full)).

(** Segments of an absolute normalised path ([/] has none). *)
Definition segments (abs : string) : list string :=
  filter (fun s => negb (String.eqb s "")) (Str.splitSlash abs).

Fixpoint stripCommon (a b : list string) : list string * list string :=
  match a, b with
  | x :: a', y :: b' =>
      if String.eqb x y then stripCommon a' b' else (a, b)
  | _, _ => (a, b)
  end.

(** [path.relative(from, to)]: both arguments are first resolved against
    the working directory. *)
Definition relative (cwd from to : string) : string :=
  if String.eqb from to then ""
  else
    let from' := resolve cwd from in
    let to' := resolve cwd to in
    if String.eqb from' to' then ""
    else
      let '(up, down) := stripCommon (segments from') (segments to') in
      Str.joinSlash (List.app (map (fun _ => "..") up) down).

Definition isSlash (c : ascii) : bool := Ascii.eqb c "/"%char.

Fixpoint dropWhile {A} (f : A -> bool) (l : list A) : list A :=
  match l with
  | [] => []
  | x :: r => if f x then dropWhile f r else l
  end.

(** [path.dirname(p)]: scans from the right, from the last character down
    to index 1, skipping trailing slashes and then the last segment. *)
Definition dirname (p : string) : string :=
  match p with
  | EmptyString => "."
  | String c0 rest =>
      let hasRoot := isSlash c0 in
      let fromRight := rev (list_ascii_of_string rest) in
      let noTrail := dropWhile isSlash fromRight in
      match dropWhile (fun c => negb (isSlash c)) noTrail with
      | [] => if hasRoot then "/" else "."
      | _ :: before =>
          match before with
          | [] => if hasRoot then "//"
                  else String c0 EmptyString
          | _ => String c0 (string_of_list_ascii (rev before))
          end
      end
  end.

End Path.

(** ** The file system: a tree of directories, regular files and other
  entries (sockets, links, ...), with Node's [fs] calls on it *)

Module Fs.

Inductive node : Type :=
| File (content : string)
| Dir (entries : list (string * node))
| Special.

Fixpoint assoc (name : string) (es : list (string * node)) : option node :=
  match es with
  | [] => None
  | (k, v) :: rest => if String.eqb k name then Some v else assoc name rest
  end.

Fixpoint update (name : string) (v : node) (es : list (string * node))
  : list (string * node) :=
  match es with
  | [] => [(name, v)]
  | (k, old) :: rest =>
      if String.eqb k name then (k, v) :: rest
      else (k, old) :: update name v rest
  end.

Fixpoint lookup (segs : list string) (n : node) : option node :=
  match segs with
  | [] => Some n
  | s :: rest =>
      match n with
      | Dir es => match assoc s es with
                  | Some c => lookup rest c
                  | None => None
                  end
      | _ => None
      end
  end.

(** The node a path names, seen from the working directory. *)
Definition at_path (root : node) (cwd p : string) : option node :=
  lookup (Path.segments (Path.resolve cwd p)) root.

Definition isDir (o : option node) : bool :=
  match o with Some (Dir _) => true | _ => false end.

(** [fs.mkdirSync(p, {recursive: true})] on the tree: [None] when a
    component of the path exists and is not a directory. *)
Fixpoint mkdirp (segs : list string) (n : node) : option node :=
  match n with
  | Dir es =>
      match segs with
      | [] => Some n
      | s :: rest =>
          match mkdirp rest
                  (match assoc s es with Some c => c | None => Dir [] end)
          with
          | Some c' => Some (Dir (update s c' es))
          | None => None
          end
      end
  | _ => None
  end.

(** Writing a regular file at a path whose parent directory exists;
    [None] when the parent is missing or the target is a directory. *)
Fixpoint write (segs : list string) (content : string) (n : node)
  : option node :=
  match segs, n with
  | [], _ => None
  | [s], Dir es =>
      match assoc s es with
      | Some (Dir _) => None
      | _ => Some (Dir (update s (File content) es))
      end
  | s :: rest, Dir es =>
      match assoc s es with
      | Some c => match write rest content c with
                  | Some c' => Some (Dir (update s c' es))
                  | None => None
                  end
      | None => None
      end
  | _, _ => None
  end.

(** The recursion of [findHtmlFiles] (src/handler.js 221-235) below a
    directory node: [items] are the entries [readdirSync] lists, in
    directory order; a sub-directory is read through its own node. *)
Fixpoint walk (dir : string) (n : node) {struct n} : list string :=
  match n with
  | Dir items =>
      (fix each (items : list (string * node)) : list string :=
         match items with
         | [] => []
         | (name, item) :: rest =>
             let fullPath := Path.join [dir; name] in
             List.app
               (match item with
                | Dir _ => walk fullPath item
                | File _ =>
                    if Str.endsWith ".html" name then [fullPath] else []
                | Special => []
                end)
               (each rest)
         end) items
  | _ => []
  end.

End Fs.

(** ** JavaScript values *)

(** Numbers of a payload are IEEE doubles; the handler only tests them for
    truthiness and renders them in template literals. *)
Class JsNumber (num : Type) : Type := {
  isZero : num -> bool;
  showNum : num -> string
}.

#[global] Instance JsNumber_Z : JsNumber Z := {
  isZero := Z.eqb 0;
  showNum := Str.ofZ
}.

(** An exception object; only its [message] is ever read. *)
Inductive exn : Type := Exn (message : string).

Definition message (e : exn) : string := let 'Exn m := e in m.

Module Js.
Section Values.
Context {num : Type} `{JsNumber num}.

(** What [JSON.parse] builds, and [undefined] for an absent property. *)
Inductive value : Type :=
| Undefined
| Null
| Bool (b : bool)
| Num (n : num)
| Str (s : string)
| Arr (items : list value)
| Obj (fields : list (string * value)).

(** A repeated key of a JSON object keeps its last value. *)
Fixpoint field (fields : list (string * value)) (k : string) : value :=
  match fields with
  | [] => Undefined
  | (k', v) :: rest =>
      match field rest k with
      | Undefined => if String.eqb k' k then v else Undefined
      | later => later
      end
  end.

(** [v.k] for the property names the handler reads (none of them is a
    built-in property of a string, number, boolean or array): a
    [TypeError] on [undefined] and [null]. *)
Definition get (v : value) (k : string) : exn + value :=
  match v with
  | Undefined =>
      inl (Exn ("Cannot read properties of undefined (reading '" ++ k ++ "')"))
  | Null =>
      inl (Exn ("Cannot read properties of null (reading '" ++ k ++ "')"))
  | Obj fields => inr (field fields k)
  | _ => inr Undefined
  end.

(** Truthiness, as [!v] and [a || b] test it. *)
Definition truthy (v : value) : bool :=
  match v with
  | Undefined | Null => false
  | Bool b => b
  | Num n => negb (isZero n)
  | Str s => negb (String.eqb s "")
  | Arr _ | Obj _ => true
  end.

(** The text of a value in a template literal, where the conversion ends. *)
Fixpoint text (v : value) : string :=
  match v with
  | Undefined => "undefined"
  | Null => "null"
  | Bool true => "true"
  | Bool false => "false"
  | Num n => showNum n
  | Str s => s
  | Arr items =>
      String.concat ","
        ((fix each (l : list value) : list string :=
            match l with
            | [] => []
            | Undefined :: r => "" :: each r
            | Null :: r => "" :: each r
            | x :: r => text x :: each r
            end) items)
  | Obj _ => "[object Object]"
  end.

(** The object has a key [k] of its own. *)
Definition hasKey (fields : list (string * value)) (k : string) : bool :=
  existsb (fun kv => String.eqb (fst kv) k) fields.

(** Whether the conversion to a string ends. An object of a payload
    converts through [Object.prototype.toString], unless a key [toString]
    of its own hides that method: no value of a payload can be called, and
    [valueOf] gives the object itself, so the conversion has no result. An
    array joins the conversions of its elements. *)
Fixpoint renders (v : value) : bool :=
  match v with
  | Arr items =>
      (fix each (l : list value) : bool :=
         match l with
         | [] => true
         | x :: r => renders x && each r
         end) items
  | Obj fields => negb (hasKey fields "toString")
  | _ => true
  end.

(** String conversion, as a template literal performs it: a [TypeError]
    for a value that has no conversion. *)
Definition toString (v : value) : exn + string :=
  if renders v then inr (text v)
  else inl (Exn "Cannot convert object to primitive value").

(** [v === 'text'] *)
Definition isString (v : value) (text : string) : bool :=
  match v with
  | Str s => String.eqb s text
  | _ => false
  end.

(** [list.includes(v)] for a list of strings (SameValueZero). *)
Definition includedIn (v : value) (l : list string) : bool :=
  existsb (isString v) l.

Definition nullish (v : value) : bool :=
  match v with
  | Undefined | Null => true
  | _ => false
  end.

(** The property [k] of [v] where reading it does not throw. *)
Definition prop (v : value) (k : string) : value :=
  match get v k with
  | inr x => x
  | inl _ => Undefined
  end.

(** The payload has no field [k]. *)
Definition missing (v : value) (k : string) : bool :=
  match prop v k with
  | Undefined => true
  | _ => false
  end.

(** An event as the source of events delivers it: the three required
    fields are there, [pull_request.head] and [repository.owner] are
    objects. *)
Definition wellFormed (payload : value) : bool :=
  truthy (prop payload "action")
  && truthy (prop payload "repository")
  && truthy (prop payload "pull_request")
  && negb (nullish (prop (prop payload "pull_request") "head"))
  && negb (nullish (prop (prop payload "repository") "owner")).

(** A valid event: it is well formed, and its repository name and its
    number have a conversion to text, so that the constants of the top
    level (src/handler.js 26-33) can be computed. *)
Definition valid (payload : value) : bool :=
  wellFormed payload
  && renders (prop (prop payload "repository") "name")
  && renders (prop (prop payload "pull_request") "number").

End Values.
Arguments value : clear implicits.
End Js.

(** ** Commands handed to [execSync], one constructor per call site *)

Inductive command : Type :=
| CloneSource (repoFullName tempDir : string)
| Checkout (commitSha : string)
| BuildCommand (script : string)
| BuildScript (script : string)
| ClonePreview (token owner name previewDir : string)
| ConfigUserName
| ConfigUserEmail
| AddPath (previewPath : string)
| AddAll
| Commit (text : string)
| Push
| DeleteTarget (targetPath : string)
| RemoveScratch (dirs : list string).

Definition dq : string := String (ascii_of_nat 34) EmptyString.

(** The command line of each call, as the template literals build it. *)
Definition commandLine (c : command) : string :=
  match c with
  | CloneSource repoFullName tempDir =>
      "git clone https://github.com/" ++ repoFullName ++ ".git " ++ tempDir
  | Checkout commitSha => "git checkout " ++ commitSha
  | BuildCommand script => script
  | BuildScript script => "chmod +x " ++ script ++ " && ./" ++ script
  | ClonePreview token owner name previewDir =>
      "git clone https://" ++ token ++ "@github.com/" ++ owner ++ "/" ++ name
      ++ ".git " ++ previewDir
  | ConfigUserName => "git config user.name " ++ dq ++ "GitHub Actions" ++ dq
  | ConfigUserEmail =>
      "git config user.email " ++ dq ++ "actions@github.com" ++ dq
  | AddPath previewPath => "git add " ++ previewPath
  | AddAll => "git add -A"
  | Commit text => "git commit -m " ++ dq ++ text ++ dq
  | Push => "git push origin main"
  | DeleteTarget targetPath => "rm -rf " ++ targetPath
  | RemoveScratch dirs => "rm -rf " ++ String.concat " " dirs
  end.

(** ** Events: what one invocation does, in order *)

Inductive event : Type :=
| Log (line : string)
| Warn (line : string)
| Error (line : string)
| ErrorWith (label : string) (e : exn)
| Uncaught (e : exn)
| Exec (c : command) (failure : option string)
| Chdir (dir : string) (ok : bool)
| Exists (path : string) (found : bool)
| Walk (dir : string) (files : option (list string))
    (* findHtmlFiles(dir): the files found, None when readdirSync threw *)
| Mkdir (path : string) (ok : bool)
| CopyFile (src dest : string) (ok : bool).

(** ** The world and its oracle *)

(** Everything outside the process and its file system (remote
    repositories, the network, the clock, the build tools) is a state of
    type [ext]; [spawn line cwd files] runs a command line in a shell and
    tells whether it ended with a status other than 0, and the files it
    leaves behind. The shell itself is taken to start. *)
Class Outside (ext : Type) : Type := {
  dateNow : ext -> Z * ext;
  spawn : string -> string -> list (string * Fs.node) -> ext ->
          bool * list (string * Fs.node) * ext
}.

Record world (ext : Type) : Type := World {
  files : list (string * Fs.node);
  cwd : string;
  outside : ext
}.
Arguments World {ext}.
Arguments files {ext}.
Arguments cwd {ext}.
Arguments outside {ext}.

(** ** The monad of the handler: events, state, exceptions, [process.exit] *)

Inductive outcome (A : Type) : Type :=
| Ret (a : A)
| Throw (e : exn)
| Exit (code : Z).
Arguments Ret {A}.
Arguments Throw {A}.
Arguments Exit {A}.

Record run (ext A : Type) : Type := Run {
  events : list event;
  final : world ext;
  result : outcome A
}.
Arguments Run {ext A}.
Arguments events {ext A}.
Arguments final {ext A}.
Arguments result {ext A}.

Definition M (ext A : Type) : Type := world ext -> run ext A.

Section Monad.
Context {ext : Type}.

Definition ret {A} (a : A) : M ext A := fun w => Run [] w (Ret a).

Definition throw {A} (e : exn) : M ext A := fun w => Run [] w (Throw e).

(** [process.exit(code)]: the process ends there, no handler runs. *)
Definition exit {A} (code : Z) : M ext A := fun w => Run [] w (Exit code).

Definition after {A B} (r : run ext A) (k : A -> M ext B) : run ext B :=
  match result r with
  | Ret a =>
      let r' := k a (final r) in
      Run (List.app (events r) (events r')) (final r') (result r')
  | Throw e => Run (events r) (final r) (Throw e)
  | Exit c => Run (events r) (final r) (Exit c)
  end.

Definition bind {A B} (m : M ext A) (k : A -> M ext B) : M ext B :=
  fun w => after (m w) k.

(** [try { m } catch (e) { h e }] *)
Definition tryCatch {A} (m : M ext A) (h : exn -> M ext A) : M ext A :=
  fun w =>
    let r := m w in
    match result r with
    | Throw e =>
        let r' := h e (final r) in
        Run (List.app (events r) (events r')) (final r') (result r')
    | _ => r
    end.

Definition emit (e : event) : M ext unit := fun w => Run [e] w (Ret tt).

(** A run after some events that already took place. *)
Definition prepend {A} (evs : list event) (r : run ext A) : run ext A :=
  Run (List.app evs (events r)) (final r) (result r).

Definition lift {A} (x : exn + A) : M ext A :=
  match x with
  | inl e => throw e
  | inr a => ret a
  end.

End Monad.

Notation "x <- m ;; k" := (bind m (fun x => k))
  (at level 61, m at next level, right associativity).
Notation "m ;; k" := (bind m (fun _ => k))
  (at level 61, right associativity).

(** ** Node's primitives, on the world *)

Section Primitives.
Context {ext : Type} `{Outside ext}.

Definition console_log (line : string) : M ext unit := emit (Log line).
Definition console_warn (line : string) : M ext unit := emit (Warn line).
Definition console_error (line : string) : M ext unit := emit (Error line).
Definition console_error_with (label : string) (e : exn) : M ext unit :=
  emit (ErrorWith label e).

(** [Date.now()] *)
Definition now : M ext Z :=
  fun w =>
    let r := dateNow (outside w) in
    Run [] (World (files w) (cwd w) (snd r)) (Ret (fst r)).

(** What the shell answers to a command in a world. *)
Definition spawned (c : command) (w : world ext)
  : bool * list (string * Fs.node) * ext :=
  spawn (commandLine c) (cwd w) (files w) (outside w).

(** The message of the error [execSync] throws for a command that ended
    with a status other than 0: with [stdio: 'inherit'] the error stream
    of the command is not captured, and the message is the command line
    after a fixed prefix. *)
Definition commandFailed (c : command) : string :=
  "Command failed: " ++ commandLine c.

Definition failure (c : command) (w : world ext) : option string :=
  if fst (fst (spawned c w)) then Some (commandFailed c) else None.

Definition afterExec (c : command) (w : world ext) : world ext :=
  World (snd (fst (spawned c w))) (cwd w) (snd (spawned c w)).

(** [execSync(line, { stdio: 'inherit' })]: throws when the command fails. *)
Definition execSync (c : command) : M ext unit :=
  fun w =>
    Run [Exec c (failure c w)] (afterExec c w)
      (match failure c w with
       | None => Ret tt
       | Some m => Throw (Exn m)
       end).

Definition found (p : string) (w : world ext) : bool :=
  match Fs.at_path (Fs.Dir (files w)) (cwd w) p with
  | Some _ => true
  | None => false
  end.

(** [fs.existsSync(p)] *)
Definition existsSync (p : string) : M ext bool :=
  fun w => Run [Exists p (found p w)] w (Ret (found p w)).

(** [process.chdir(dir)] *)
Definition chdir (dir : string) : M ext unit :=
  fun w =>
    if Fs.isDir (Fs.at_path (Fs.Dir (files w)) (cwd w) dir) then
      Run [Chdir dir true] (World (files w) (Path.resolve (cwd w) dir) (outside w))
        (Ret tt)
    else
      Run [Chdir dir false] w
        (Throw (Exn ("ENOENT: no such file or directory, chdir '" ++ dir ++ "'"))).

Definition entries (n : Fs.node) (otherwise : list (string * Fs.node))
  : list (string * Fs.node) :=
  match n with
  | Fs.Dir es => es
  | _ => otherwise
  end.

(** [fs.mkdirSync(p, { recursive: true })] *)
Definition mkdirSync (p : string) : M ext unit :=
  fun w =>
    match Fs.mkdirp (Path.segments (Path.resolve (cwd w) p)) (Fs.Dir (files w)) with
    | Some n =>
        Run [Mkdir p true] (World (entries n (files w)) (cwd w) (outside w)) (Ret tt)
    | None =>
        Run [Mkdir p false] w
          (Throw (Exn ("ENOTDIR: not a directory, mkdir '" ++ p ++ "'")))
    end.

(** [fs.copyFileSync(src, dest)] *)
Definition copyFileSync (src dest : string) : M ext unit :=
  fun w =>
    let failed :=
      Run [CopyFile src dest false] w
        (Throw (Exn ("ENOENT: no such file or directory, copyfile '" ++ src
                     ++ "' -> '" ++ dest ++ "'"))) in
    match Fs.at_path (Fs.Dir (files w)) (cwd w) src with
    | Some (Fs.File content) =>
        match Fs.write (Path.segments (Path.resolve (cwd w) dest)) content
                (Fs.Dir (files w)) with
        | Some n =>
            Run [CopyFile src dest true]
              (World (entries n (files w)) (cwd w) (outside w)) (Ret tt)
        | None => failed
        end
    | _ => failed
    end.

(** [path.relative(from, to)], which reads [process.cwd()]. *)
Definition pathRelative (from to : string) : M ext string :=
  fun w => Run [] w (Ret (Path.relative (cwd w) from to)).

(** [findHtmlFiles(dir)] (src/handler.js 221-235): [readdirSync] throws
    unless [dir] names a directory. *)
Definition walked (dir : string) (w : world ext) : option (list string) :=
  match Fs.at_path (Fs.Dir (files w)) (cwd w) dir with
  | Some (Fs.Dir items) => Some (Fs.walk dir (Fs.Dir items))
  | _ => None
  end.

Definition findHtmlFiles (dir : string) : M ext (list string) :=
  fun w =>
    Run [Walk dir (walked dir w)] w
      (match walked dir w with
       | Some l => Ret l
       | None =>
           Throw (Exn ("ENOTDIR: not a directory, scandir '" ++ dir ++ "'"))
       end).

End Primitives.

(** ** The handler (src/handler.js) *)

(** [config.json], already parsed. *)
Record config : Type := Config {
  monitoredRepositories : list string;
  previewRepository_owner : string;
  previewRepository_name : string
}.

(** The two variables of [process.env] the handler reads. *)
Record environment : Type := Environment {
  PREVIEW_REPO_TOKEN : option string;
  GITHUB_TOKEN : option string
}.

(** The top-level constants (src/handler.js 13-33). *)
Record globals (num : Type) : Type := Globals {
  action : Js.value num;
  repoName : Js.value num;
  prNumber : Js.value num;
  commitSha : Js.value num;
  repoFullName : Js.value num;
  repoOwner : Js.value num;
  previewRepoOwner : string;
  previewRepoName : string;
  previewPath : string
}.
Arguments Globals {num}.
Arguments action {num}.
Arguments repoName {num}.
Arguments prNumber {num}.
Arguments commitSha {num}.
Arguments repoFullName {num}.
Arguments repoOwner {num}.
Arguments previewRepoOwner {num}.
Arguments previewRepoName {num}.
Arguments previewPath {num}.

Definition buildScripts : list string :=
  [ "build-docs.sh"; "generate-docs.sh"; "build.sh"; "npm run build-docs";
    "npm run generate-docs"; "python generate_docs.py"; "./generate.sh" ].

Definition htmlDirs : list string :=
  [ "dist"; "output"; "docs/html"; "build"; "html"; "." ].

(** [script.includes('npm run') || script.includes('python')] *)
Definition commandStyle (script : string) : bool :=
  Str.includes "npm run" script || Str.includes "python" script.

Section Handler.
Context {num : Type} `{JsNumber num} {ext : Type} `{Outside ext}.
Variable cfg : config.
Variable env : environment.

(** [process.env.PREVIEW_REPO_TOKEN || process.env.GITHUB_TOKEN], as the
    template literal renders it. *)
Definition previewToken : string :=
  let chosen :=
    match PREVIEW_REPO_TOKEN env with
    | Some t => if String.eqb t "" then GITHUB_TOKEN env else Some t
    | None => GITHUB_TOKEN env
    end in
  match chosen with
  | Some t => t
  | None => "undefined"
  end.

(** The build loop (src/handler.js 76-93); the result is [buildExecuted]. *)
Fixpoint buildLoop (scripts : list string) : M ext bool :=
  match scripts with
  | [] => ret false
  | script :: rest =>
      if commandStyle script then
        tryCatch
          (console_log ("Trying: " ++ script) ;;
           execSync (BuildCommand script) ;;
           ret true)
          (fun _ => buildLoop rest)
      else
        present <- existsSync script ;;
        if (present : bool) then
          console_log ("Executing: " ++ script) ;;
          execSync (BuildScript script) ;;
          ret true
        else buildLoop rest
  end.

(** The search for generated files (src/handler.js 100-112); the result is
    [htmlFiles]. *)
Fixpoint locate (dirs : list string) : M ext (list string) :=
  match dirs with
  | [] => ret []
  | dir :: rest =>
      present <- existsSync dir ;;
      if (present : bool) then
        found <- findHtmlFiles dir ;;
        if (0 <? List.length found)%nat then
          console_log ("Found " ++ Str.ofZ (Z.of_nat (List.length found))
                       ++ " HTML files in " ++ dir) ;;
          ret found
        else locate rest
      else locate rest
  end.

(** The copy loop (src/handler.js 133-144). *)
Fixpoint copyLoop (tempDir targetDir : string) (htmlFiles : list string)
  : M ext unit :=
  match htmlFiles with
  | [] => ret tt
  | file :: rest =>
      relativePath <- pathRelative tempDir file ;;
      let targetFile := Path.join [targetDir; relativePath] in
      let targetFileDir := Path.dirname targetFile in
      present <- existsSync targetFileDir ;;
      (if (present : bool) then ret tt else mkdirSync targetFileDir) ;;
      copyFileSync file targetFile ;;
      console_log ("Copied: " ++ relativePath) ;;
      copyLoop tempDir targetDir rest
  end.

(** [commitSha.substring(0, 7)]: a [TypeError] unless [commitSha] is a
    string. *)
Definition shortSha (sha : Js.value num) : exn + string :=
  match sha with
  | Js.Str s => inr (String.substring 0 7 s)
  | Js.Undefined =>
      inl (Exn "Cannot read properties of undefined (reading 'substring')")
  | Js.Null =>
      inl (Exn "Cannot read properties of null (reading 'substring')")
  | _ => inl (Exn "commitSha.substring is not a function")
  end.

(** The handler of a failed commit or push (src/handler.js 156-162 and
    200-206). *)
Definition toleratingNoChanges (e : exn) : M ext unit :=
  if Str.includes "nothing to commit" (message e) then
    console_log "No changes to commit."
  else throw e.

(** Steps 4 and 5 and the staging of step 6 (src/handler.js 119-150). *)
Definition stage (g : globals num) (tempDir previewDir : string)
    (htmlFiles : list string) : M ext unit :=
  console_log ("Cloning preview repository " ++ previewRepoOwner g ++ "/"
               ++ previewRepoName g ++ "...") ;;
  execSync (ClonePreview previewToken (previewRepoOwner g)
              (previewRepoName g) previewDir) ;;
  chdir previewDir ;;
  console_log ("Copying HTML files to " ++ previewPath g ++ "...") ;;
  let targetDir := Path.join [previewDir; previewPath g] in
  present <- existsSync targetDir ;;
  (if (present : bool) then ret tt else mkdirSync targetDir) ;;
  copyLoop tempDir targetDir htmlFiles ;;
  console_log "Committing changes..." ;;
  execSync ConfigUserName ;;
  execSync ConfigUserEmail ;;
  execSync (AddPath (previewPath g)).

(** The commit and push of the Publisher (src/handler.js 152-162). *)
Definition commitAndPush (g : globals num) : M ext unit :=
  tryCatch
    (name <- lift (Js.toString (repoName g)) ;;
     number <- lift (Js.toString (prNumber g)) ;;
     sha7 <- lift (shortSha (commitSha g)) ;;
     execSync (Commit ("Update preview for " ++ name ++ "#" ++ number
                       ++ " (" ++ sha7 ++ ")")) ;;
     execSync Push ;;
     console_log "Preview updated successfully!")
    toleratingNoChanges.

(** A commit step: a [try] around commit, push and a log line, with
    [toleratingNoChanges] as its handler. *)
Definition commitStep (text : exn + string) (done : string) : M ext unit :=
  tryCatch
    (t <- lift text ;;
     execSync (Commit t) ;;
     execSync Push ;;
     console_log done)
    toleratingNoChanges.

(** The end of both flows (src/handler.js 164-166 and 211-213). *)
Definition removeScratch (dirs : list string) : M ext unit :=
  chdir "/" ;;
  execSync (RemoveScratch dirs).

(** The scratch directories of the generation flow started in [w]: the
    source working tree and the preview working tree, named after two
    readings of the clock (src/handler.js 55-56). *)
Definition generationScratch (w : world ext) : list string :=
  let t1 := dateNow (outside w) in
  let t2 := dateNow (snd t1) in
  [ Path.join ["/tmp"; "preview-" ++ Str.ofZ (fst t1)];
    Path.join ["/tmp"; "preview-repo-" ++ Str.ofZ (fst t2)] ].

(** The scratch directory of the cleanup flow started in [w]
    (src/handler.js 176). *)
Definition cleanupScratch (w : world ext) : list string :=
  [ Path.join ["/tmp"; "preview-repo-cleanup-"
                       ++ Str.ofZ (fst (dateNow (outside w)))] ].

(** Steps 4 to 6 and the final removal (src/handler.js 119-166). *)
Definition publish (g : globals num) (tempDir previewDir : string)
    (htmlFiles : list string) : M ext unit :=
  stage g tempDir previewDir htmlFiles ;;
  commitAndPush g ;;
  removeScratch [tempDir; previewDir].

(** Steps 1 and 2 (src/handler.js 55-97); the result is the pair
    [(tempDir, previewDir)]. *)
Definition checkoutAndBuild (g : globals num) : M ext (string * string) :=
  t1 <- now ;;
  let tempDir := Path.join ["/tmp"; "preview-" ++ Str.ofZ t1] in
  t2 <- now ;;
  let previewDir := Path.join ["/tmp"; "preview-repo-" ++ Str.ofZ t2] in
  fullName <- lift (Js.toString (repoFullName g)) ;;
  sha <- lift (Js.toString (commitSha g)) ;;
  console_log ("Cloning " ++ fullName ++ " at commit " ++ sha ++ "...") ;;
  fullName <- lift (Js.toString (repoFullName g)) ;;
  execSync (CloneSource fullName tempDir) ;;
  chdir tempDir ;;
  sha <- lift (Js.toString (commitSha g)) ;;
  execSync (Checkout sha) ;;
  console_log "Looking for build script..." ;;
  buildExecuted <- buildLoop buildScripts ;;
  (if (buildExecuted : bool) then ret tt
   else console_warn
          "No build script found. Looking for HTML files in common directories...") ;;
  ret (tempDir, previewDir).

(** The body of the [try] of [handlePreviewGeneration]
    (src/handler.js 55-166). *)
Definition generation (g : globals num) : M ext unit :=
  dirs <- checkoutAndBuild g ;;
  htmlFiles <- locate htmlDirs ;;
  if (List.length htmlFiles =? 0)%nat then
    console_error
      "No HTML files found. Build script may not have generated output." ;;
    exit 1
  else publish g (fst dirs) (snd dirs) htmlFiles.

(** [handlePreviewGeneration] (src/handler.js 53-172) *)
Definition handlePreviewGeneration (g : globals num) : M ext unit :=
  tryCatch (generation g)
    (fun error => console_error_with "Error generating preview:" error ;; exit 1).

(** The commit and push of the Remover (src/handler.js 196-206). *)
Definition commitRemoval (g : globals num) : M ext unit :=
  tryCatch
    (name <- lift (Js.toString (repoName g)) ;;
     number <- lift (Js.toString (prNumber g)) ;;
     execSync (Commit ("Remove preview for " ++ name ++ "#" ++ number)) ;;
     execSync Push ;;
     console_log "Preview cleanup completed!")
    toleratingNoChanges.

(** The deletion and its staging (src/handler.js 187-194). *)
Definition deleteAndStage (g : globals num) (targetPath : string) : M ext unit :=
  console_log ("Deleting " ++ previewPath g ++ "...") ;;
  execSync (DeleteTarget targetPath) ;;
  console_log "Committing deletion..." ;;
  execSync ConfigUserName ;;
  execSync ConfigUserEmail ;;
  execSync AddAll.

(** Steps 2 and 3 of the Remover when the folder exists
    (src/handler.js 187-206). *)
Definition removePreview (g : globals num) (targetPath : string) : M ext unit :=
  deleteAndStage g targetPath ;;
  commitRemoval g.

(** Step 1 of the Remover (src/handler.js 176-182); the result is
    [previewDir]. *)
Definition enterPreview (g : globals num) : M ext string :=
  t <- now ;;
  let previewDir := Path.join ["/tmp"; "preview-repo-cleanup-" ++ Str.ofZ t] in
  console_log ("Cloning preview repository " ++ previewRepoOwner g ++ "/"
               ++ previewRepoName g ++ "...") ;;
  execSync (ClonePreview previewToken (previewRepoOwner g)
              (previewRepoName g) previewDir) ;;
  chdir previewDir ;;
  ret previewDir.

(** The body of the [try] of [handleCleanup] (src/handler.js 176-213). *)
Definition cleanup (g : globals num) : M ext unit :=
  previewDir <- enterPreview g ;;
  let targetPath := Path.join [previewDir; previewPath g] in
  present <- existsSync targetPath ;;
  (if (present : bool) then removePreview g targetPath
   else
     console_log ("Preview folder " ++ previewPath g
                  ++ " does not exist. Nothing to clean up.")) ;;
  removeScratch [previewDir].

(** [handleCleanup] (src/handler.js 174-219) *)
Definition handleCleanup (g : globals num) : M ext unit :=
  tryCatch (cleanup g)
    (fun error => console_error_with "Error during cleanup:" error ;; exit 1).

(** The top level (src/handler.js 13-51). *)
Definition main (eventPayload : Js.value num) : M ext unit :=
  action <- lift (Js.get eventPayload "action") ;;
  repository <- lift (Js.get eventPayload "repository") ;;
  pull_request <- lift (Js.get eventPayload "pull_request") ;;
  organization <- lift (Js.get eventPayload "organization") ;;
  if negb (Js.truthy action) || negb (Js.truthy repository)
     || negb (Js.truthy pull_request) then
    console_error "Missing required event payload fields" ;;
    exit 1
  else
    repoName <- lift (Js.get repository "name") ;;
    prNumber <- lift (Js.get pull_request "number") ;;
    head <- lift (Js.get pull_request "head") ;;
    commitSha <- lift (Js.get head "sha") ;;
    repoFullName <- lift (Js.get repository "full_name") ;;
    owner <- lift (Js.get repository "owner") ;;
    repoOwner <- lift (Js.get owner "login") ;;
    name <- lift (Js.toString repoName) ;;
    number <- lift (Js.toString prNumber) ;;
    let g :=
      Globals action repoName prNumber commitSha repoFullName repoOwner
        (previewRepository_owner cfg) (previewRepository_name cfg)
        (name ++ "/" ++ number) in
    if negb (Js.includedIn repoName (monitoredRepositories cfg)) then
      name <- lift (Js.toString repoName) ;;
      console_log ("Repository " ++ name
                   ++ " is not in monitored list. Skipping.") ;;
      exit 0
    else
      number <- lift (Js.toString prNumber) ;;
      fullName <- lift (Js.toString repoFullName) ;;
      act <- lift (Js.toString action) ;;
      console_log ("Processing PR #" ++ number ++ " from " ++ fullName
                   ++ " (action: " ++ act ++ ")") ;;
      if Js.isString action "opened" || Js.isString action "synchronize" then
        handlePreviewGeneration g
      else if Js.isString action "closed" || Js.isString action "merged" then
        handleCleanup g
      else
        act <- lift (Js.toString action) ;;
        console_log ("Action " ++ act ++ " not handled. Skipping.") ;;
        exit 0.

(** What the operating system sees of one invocation. *)
Record report : Type := Report {
  trace : list event;
  endWorld : world ext;
  exitCode : Z
}.

(** The end of the process after the top-level code or a flow has run: a
    normal end is exit code 0, an uncaught exception is printed on the
    error stream and gives exit code 1. *)
Definition ending (r : run ext unit) : report :=
  match result r with
  | Ret _ => Report (events r) (final r) 0
  | Exit code => Report (events r) (final r) code
  | Throw e => Report (List.app (events r) [Uncaught e]) (final r) 1
  end.

(** One invocation of the handler. *)
Definition invoke (eventPayload : Js.value num) (w : world ext) : report :=
  ending (main eventPayload w).

(** The top-level constants a well-formed event gives, where its
    repository name and its number convert to text. *)
Definition globalsOf (eventPayload : Js.value num) : globals num :=
  let repository := Js.prop eventPayload "repository" in
  let pull_request := Js.prop eventPayload "pull_request" in
  Globals (Js.prop eventPayload "action")
    (Js.prop repository "name")
    (Js.prop pull_request "number")
    (Js.prop (Js.prop pull_request "head") "sha")
    (Js.prop repository "full_name")
    (Js.prop (Js.prop repository "owner") "login")
    (previewRepository_owner cfg) (previewRepository_name cfg)
    (Js.text (Js.prop repository "name") ++ "/"
     ++ Js.text (Js.prop pull_request "number")).

(** The flow the router picks (src/handler.js 44-51). *)
Definition route (g : globals num) : M ext unit :=
  if Js.isString (action g) "opened" || Js.isString (action g) "synchronize" then
    handlePreviewGeneration g
  else if Js.isString (action g) "closed" || Js.isString (action g) "merged" then
    handleCleanup g
  else
    act <- lift (Js.toString (action g)) ;;
    console_log ("Action " ++ act ++ " not handled. Skipping.") ;;
    exit 0.

End Handler.

(** ** A scripted outside world, for concrete runs *)

Module Demo.

Fixpoint place (segs : list string) (item n : Fs.node) : Fs.node :=
  match segs with
  | [] => item
  | s :: rest =>
      match n with
      | Fs.Dir es =>
          Fs.Dir (Fs.update s
                    (place rest item
                       (match Fs.assoc s es with
                        | Some c => c
                        | None => Fs.Dir []
                        end)) es)
      | _ => n
      end
  end.

Fixpoint remove (segs : list string) (n : Fs.node) : Fs.node :=
  match segs, n with
  | [s], Fs.Dir es =>
      Fs.Dir (filter (fun kv => negb (String.eqb (fst kv) s)) es)
  | s :: rest, Fs.Dir es =>
      match Fs.assoc s es with
      | Some c => Fs.Dir (Fs.update s (remove rest c) es)
      | None => n
      end
  | _, _ => n
  end.

Fixpoint splitSpace (s : string) : list string :=
  match s with
  | EmptyString => [EmptyString]
  | String c rest =>
      if Ascii.eqb c " "%char then EmptyString :: splitSpace rest
      else match splitSpace rest with
           | h :: t => String c h :: t
           | [] => [String c EmptyString]
           end
  end.

(** The outside: a clock, the commands that fail (by a piece of their
    command line), and the content of the two remote repositories. *)
Record script : Type := Script {
  clock : Z;
  failing : list string;
  sourceRepo : list (string * Fs.node);
  previewRepo : list (string * Fs.node)
}.

Definition shell (line wd : string) (fs : list (string * Fs.node))
    (o : script) : bool * list (string * Fs.node) * script :=
  if existsb (fun piece => Str.includes piece line) (failing o) then
    (true, fs, o)
  else
    match splitSpace line with
    | tool :: verb :: rest =>
        if String.eqb tool "git" && String.eqb verb "clone" then
          match rest with
          | [url; dir] =>
              let content :=
                if Str.includes "@github.com" url then previewRepo o
                else sourceRepo o in
              (false,
               entries (place (Path.segments (Path.resolve wd dir))
                          (Fs.Dir content) (Fs.Dir fs)) fs,
               o)
          | _ => (false, fs, o)
          end
        else if String.eqb tool "rm" && String.eqb verb "-rf" then
          (false,
           entries (fold_left
                      (fun n d => remove (Path.segments (Path.resolve wd d)) n)
                      rest (Fs.Dir fs)) fs,
           o)
        else (false, fs, o)
    | _ => (false, fs, o)
    end.

#[global] Instance Outside_script : Outside script := {
  dateNow o :=
    (clock o, Script (clock o + 1) (failing o) (sourceRepo o) (previewRepo o));
  spawn := shell
}.

Definition start (o : script) : world script := World [] "/" o.

Definition cfg : config := Config ["docs-site"] "acme" "previews".
Definition env : environment := Environment (Some "TOKEN") None.

Definition payload (act repo : string) (head : Js.value Z) : Js.value Z :=
  Js.Obj
    [ ("action", Js.Str act);
      ("repository",
       Js.Obj [ ("name", Js.Str repo);
                ("full_name", Js.Str ("acme/" ++ repo));
                ("owner", Js.Obj [("login", Js.Str "acme")]) ]);
      ("pull_request", Js.Obj [("number", Js.Num 42%Z); ("head", head)]) ].

Definition sha : Js.value Z := Js.Obj [("sha", Js.Str "abc1234def")].

(** An event without [pull_request]. *)
Definition noPullRequest : Js.value Z :=
  Js.Obj
    [ ("action", Js.Str "opened");
      ("repository",
       Js.Obj [ ("name", Js.Str "docs-site");
                ("full_name", Js.Str "acme/docs-site");
                ("owner", Js.Obj [("login", Js.Str "acme")]) ]) ].

(** An event for an unmonitored repository whose [pull_request] has no
    [head]. *)
Definition noHead : Js.value Z :=
  Js.Obj
    [ ("action", Js.Str "closed");
      ("repository",
       Js.Obj [ ("name", Js.Str "random-repo");
                ("full_name", Js.Str "acme/random-repo");
                ("owner", Js.Obj [("login", Js.Str "acme")]) ]);
      ("pull_request", Js.Obj [("number", Js.Num 42%Z)]) ].

(** A source repository that holds [dist/index.html] already built. *)
Definition built : list (string * Fs.node) :=
  [ ("dist", Fs.Dir [("index.html", Fs.File "<html>")]) ].

(** No build tool is installed: every tooling command fails. *)
Definition noTools : list string := ["npm run"; "python"].

(** Scenario 1 of the specification: the build output is [dist/index.html],
    the preview repository holds nothing of this pull request yet. *)
Definition scenario1 : script :=
  Script 1000 noTools built [("README.md", Fs.File "previews")].

(** A source repository without any markup file. *)
Definition noArtifacts : script :=
  Script 1000 noTools [("README.md", Fs.File "docs")]
    [("README.md", Fs.File "previews")].

(** A source repository whose [build-docs.sh] exists and fails. *)
Definition brokenScript : script :=
  Script 1000 ("chmod +x build-docs.sh" :: noTools)
    (("build-docs.sh", Fs.File "exit 1") :: built)
    [("README.md", Fs.File "previews")].

(** The checked-out working tree of that repository. *)
Definition brokenTree : world script :=
  World [("tmp", Fs.Dir [("preview-1000", Fs.Dir (sourceRepo brokenScript))])]
    "/tmp/preview-1000" brokenScript.

(** A preview repository that holds the folder of the pull request (and a
    [dist/index.html] of its own), where [git commit] finds nothing to
    commit and ends with status 1. *)
Definition unchanged : script :=
  Script 1000 ("git commit" :: noTools)
    built
    [ ("dist", Fs.Dir [("index.html", Fs.File "<html>")]);
      ("docs-site", Fs.Dir [("42", Fs.Dir [("index.html", Fs.File "<html>")])]) ].

(** A preview repository that holds the folder of the pull request; every
    command succeeds. *)
Definition published : script :=
  Script 1000 []
    built
    [ ("docs-site", Fs.Dir [("42", Fs.Dir [("index.html", Fs.File "<html>")])]) ].

(** The top-level constants of an event for pull request 42 of
    [docs-site]. *)
Definition g : globals Z :=
  Globals (Js.Str "opened") (Js.Str "docs-site") (Js.Num 42%Z)
    (Js.Str "abc1234def") (Js.Str "acme/docs-site") (Js.Str "acme")
    "acme" "previews" "docs-site/42".

(** A working tree with three candidate directories: [dist] is empty,
    [output] holds three markup files, [build] holds five. *)
Definition candidates : world script :=
  World
    [ ("dist", Fs.Dir [("notes.txt", Fs.File "")]);
      ("output",
       Fs.Dir [ ("a.html", Fs.File ""); ("b.html", Fs.File "");
                ("sub", Fs.Dir [("c.html", Fs.File "")]) ]);
      ("build",
       Fs.Dir [ ("1.html", Fs.File ""); ("2.html", Fs.File "");
                ("3.html", Fs.File ""); ("4.html", Fs.File "");
                ("5.html", Fs.File "") ]) ]
    "/" scenario1.

End Demo.

(** ** Further events and worlds, for concrete runs *)

Module Cases.

(** An event whose [action] is the empty string. *)
Definition emptyAction : Js.value Z := Demo.payload "" "docs-site" Demo.sha.

(** An event whose [repository] has no [owner]. *)
Definition noOwner : Js.value Z :=
  Js.Obj
    [ ("action", Js.Str "closed");
      ("repository",
       Js.Obj [ ("name", Js.Str "random-repo");
                ("full_name", Js.Str "acme/random-repo") ]);
      ("pull_request", Js.Obj [("number", Js.Num 42%Z); ("head", Demo.sha)]) ].

(** An event with an action the router does not know. *)
Definition reopened : Js.value Z := Demo.payload "reopened" "docs-site" Demo.sha.

(** An event for a closed pull request of the monitored repository. *)
Definition closed : Js.value Z := Demo.payload "closed" "docs-site" Demo.sha.

(** An event whose [pull_request.head] has no [sha]. *)
Definition noSha : Js.value Z := Demo.payload "opened" "docs-site" (Js.Obj []).

(** The removal of a scratch directory fails. *)
Definition stuck : Demo.script :=
  Demo.Script 1000 ["rm -rf /tmp/preview-repo-cleanup"]
    Demo.built [("README.md", Fs.File "previews")].

(** The commit succeeds, the push is refused. *)
Definition refusedPush : Demo.script :=
  Demo.Script 1000 ["git push"]
    Demo.built
    [ ("docs-site", Fs.Dir [("42", Fs.Dir [("index.html", Fs.File "<html>")])]) ].

(** A working tree whose [build] is a regular file (a script), with a
    markup file at its top. *)
Definition buildIsFile : world Demo.script :=
  World
    [ ("build", Fs.File "#!/bin/sh");
      ("index.html", Fs.File "<html>") ]
    "/" Demo.scenario1.

(** A working tree without any markup file. *)
Definition bare : world Demo.script :=
  World
    [ ("dist", Fs.Dir [("notes.txt", Fs.File "")]);
      ("README.md", Fs.File "docs") ]
    "/" Demo.scenario1.

(** A source tree at [/src] with one markup file, and an empty target
    directory [/out]. *)
Definition copying : world Demo.script :=
  World
    [ ("src", Fs.Dir [("a.html", Fs.File "<html>")]);
      ("out", Fs.Dir []) ]
    "/" Demo.scenario1.

(** An event for a closed pull request of the monitored repository whose
    [number] is the text [../..]. *)
Definition dotted : Js.value Z :=
  Js.Obj
    [ ("action", Js.Str "closed");
      ("repository",
       Js.Obj [ ("name", Js.Str "docs-site");
                ("full_name", Js.Str "acme/docs-site");
                ("owner", Js.Obj [("login", Js.Str "acme")]) ]);
      ("pull_request", Js.Obj [("number", Js.Str "../.."); ("head", Demo.sha)]) ].

(** An event for an unmonitored repository whose [number] is an object
    with a key [toString]. *)
Definition opaqueNumber : Js.value Z :=
  Js.Obj
    [ ("action", Js.Str "opened");
      ("repository",
       Js.Obj [ ("name", Js.Str "random-repo");
                ("full_name", Js.Str "acme/random-repo");
                ("owner", Js.Obj [("login", Js.Str "acme")]) ]);
      ("pull_request",
       Js.Obj [ ("number", Js.Obj [("toString", Js.Num 1%Z)]);
                ("head", Demo.sha) ]) ].

(** An event of the monitored repository whose [action] is an object with
    a key [toString]. *)
Definition opaqueAction : Js.value Z :=
  Js.Obj
    [ ("action", Js.Obj [("toString", Js.Num 1%Z)]);
      ("repository",
       Js.Obj [ ("name", Js.Str "docs-site");
                ("full_name", Js.Str "acme/docs-site");
                ("owner", Js.Obj [("login", Js.Str "acme")]) ]);
      ("pull_request", Js.Obj [("number", Js.Num 42%Z); ("head", Demo.sha)]) ].

(** Neither token is set. *)
Definition noToken : environment := Environment None None.

(** A working tree whose [build.sh] succeeds. *)
Definition scripted : world Demo.script :=
  World
    [ ("build.sh", Fs.File "make html") ]
    "/" Demo.scenario1.

End Cases.


(** ** Classes of events *)

(** Output on the error stream. *)
Definition errorStream (e : event) : bool :=
  match e with
  | Error _ | ErrorWith _ _ | Uncaught _ => true
  | _ => false
  end.

(** What cloning the source, Build Discovery and the Artifact Locator do. *)
Definition sourceEvent (e : event) : bool :=
  match e with
  | Log _ | Warn _ | Chdir _ _ | Exists _ _ | Walk _ _ => true
  | Exec (CloneSource _ _) _ | Exec (Checkout _) _ => true
  | Exec (BuildCommand _) _ | Exec (BuildScript _) _ => true
  | _ => false
  end.

(** What the Publisher does before it commits. *)
Definition stageEvent (e : event) : bool :=
  match e with
  | Log _ | Chdir _ _ | Exists _ _ | Mkdir _ _ | CopyFile _ _ _ => true
  | Exec (ClonePreview _ _ _ _) _ | Exec (AddPath _) _ => true
  | Exec ConfigUserName _ | Exec ConfigUserEmail _ => true
  | _ => false
  end.

(** What the commit-and-push step of either flow does. *)
Definition commitEvent (e : event) : bool :=
  match e with
  | Log _ | Exec (Commit _) _ | Exec Push _ => true
  | _ => false
  end.

(** What the Remover does before it commits, its probe of the preview
    folder apart. *)
Definition removerEvent (e : event) : bool :=
  match e with
  | Log _ | Chdir _ _ => true
  | Exec (ClonePreview _ _ _ _) _ | Exec (DeleteTarget _) _ => true
  | Exec ConfigUserName _ | Exec ConfigUserEmail _ | Exec AddAll _ => true
  | _ => false
  end.

(** A step of publishing: the clone of the preview repository, a copy, the
    staging, a commit or a push. *)
Definition publishEvent (e : event) : bool :=
  match e with
  | Mkdir _ _ | CopyFile _ _ _ => true
  | Exec (ClonePreview _ _ _ _) _ | Exec (AddPath _) _ => true
  | Exec ConfigUserName _ | Exec ConfigUserEmail _ => true
  | Exec (Commit _) _ | Exec Push _ => true
  | _ => false
  end.

Definition isPush (e : event) : bool :=
  match e with
  | Exec Push _ => true
  | _ => false
  end.

Definition isCommit (e : event) : bool :=
  match e with
  | Exec (Commit _) _ => true
  | _ => false
  end.

Definition isRemoval (e : event) : bool :=
  match e with
  | Exec (RemoveScratch _) _ => true
  | _ => false
  end.

(** What the Remover does after its probe of the preview folder. *)
Definition afterProbe (e : event) : bool :=
  removerEvent e || commitEvent e || isRemoval e.

(** What either flow does before its commit step. *)
Definition beforeCommit (e : event) : bool :=
  sourceEvent e || stageEvent e || removerEvent e.

(** The two ways a flow ends.  It fails before it reaches the removal of
    its scratch directories: [pre] holds the events before the commit step,
    [committed] those of the commit step (none when it was not reached),
    the last event is on the error stream.  Or it reaches the removal,
    the command [rm -rf] of the scratch directories [dirs], whose failure
    [fl] is the only thing that can still go wrong. *)
Inductive flowShape {ext : Type} (label : string) (dirs : list string)
    (r : run ext unit) : Prop :=
| FlowFailed (pre committed : list event) (e : event) :
    forallb beforeCommit pre = true ->
    forallb commitEvent committed = true ->
    (forall t msg, In (Exec (Commit t) (Some msg)) committed ->
                   Str.includes "nothing to commit" msg = false) ->
    errorStream e = true ->
    events r = List.app pre (List.app committed [e]) ->
    result r = Exit 1%Z ->
    flowShape label dirs r
| FlowEnded (pre committed : list event) (fl : option string) :
    forallb beforeCommit pre = true ->
    forallb commitEvent committed = true ->
    (forall t msg, In (Exec (Commit t) (Some msg)) committed ->
                   Str.includes "nothing to commit" msg = true ->
                   committed = [ Exec (Commit t) (Some msg);
                                 Log "No changes to commit." ]) ->
    events r
    = List.app pre
        (List.app committed
           (Chdir "/" true :: Exec (RemoveScratch dirs) fl
            :: match fl with
               | None => []
               | Some m => [ErrorWith label (Exn m)]
               end)) ->
    result r = match fl with
               | None => Ret tt
               | Some _ => Exit 1%Z
               end ->
    flowShape label dirs r.

(** Equality of events is decidable; [occurs] is membership by it. *)
Definition event_eq_dec (a b : event) : {a = b} + {a <> b}.
Proof. repeat decide equality. Defined.

Definition occurs (e : event) (l : list event) : bool :=
  if in_dec event_eq_dec e l then true else false.

(** ** Runs stay within a class of events and never call [process.exit] *)

Definition tame {ext A : Type} (P : event -> bool) (m : M ext A) : Prop :=
  forall w,
    forallb P (events (m w)) = true /\ (forall c, result (m w) <> Exit c).

(** The value a computation returns when it returns. *)
Definition returns {ext A : Type} (a : A) (m : M ext A) : Prop :=
  forall w x, result (m w) = Ret x -> x = a.

(** ** Failures the code recovers from, and invariants of traces *)

(** A failed command the code recovers from: a command-style build
    candidate (src/handler.js 79-86), and a commit or a push whose error
    message includes "nothing to commit" (156-162 and 200-206). *)
Definition recovered (c : command) (msg : string) : bool :=
  match c with
  | BuildCommand _ => true
  | Commit _ | Push => Str.includes "nothing to commit" msg
  | _ => false
  end.

(** A computation that does not return normally once a command has failed
    that the code does not recover from. *)
Definition strict {ext A : Type} (m : M ext A) : Prop :=
  forall w c msg,
    In (Exec c (Some msg)) (events (m w)) -> recovered c msg = false ->
    forall a, result (m w) <> Ret a.

(** A computation that calls [process.exit] with code 0 or 1 only. *)
Definition exitsWith01 {ext A : Type} (m : M ext A) : Prop :=
  forall w c, result (m w) = Exit c -> c = 0%Z \/ c = 1%Z.

(** A computation that never returns normally. *)
Definition fails {ext A : Type} (m : M ext A) : Prop :=
  forall w a, result (m w) <> Ret a.

(** A property of the trace of every run of a computation. *)
Definition traces {ext A : Type} (Q : list event -> bool) (m : M ext A)
  : Prop :=
  forall w, Q (events (m w)) = true.

Definition isCommitted (e : event) : bool :=
  match e with
  | Exec (Commit _) None => true
  | _ => false
  end.

(** Every push of the trace comes right after a successful commit;
    [prev] tells whether the event before the trace is one. *)
Fixpoint guarded (prev : bool) (l : list event) : bool :=
  match l with
  | [] => true
  | e :: rest =>
      (if isPush e then prev else true) && guarded (isCommitted e) rest
  end.

(** What the cleanup flow does: no clone or checkout of the source
    repository, no build, no walk, no directory made, no file copied, no
    staging of a single path. *)
Definition cleanupEvent (e : event) : bool :=
  match e with
  | Log _ | Chdir _ _ | Exists _ _ | ErrorWith _ _ => true
  | Exec (ClonePreview _ _ _ _) _ | Exec (DeleteTarget _) _ => true
  | Exec ConfigUserName _ | Exec ConfigUserEmail _ | Exec AddAll _ => true
  | Exec (Commit _) _ | Exec Push _ | Exec (RemoveScratch _) _ => true
  | _ => false
  end.

(** What the generation flow does with the constants [g]: it clones
    [repoFullName], checks out [commitSha], stages [previewPath] only, and
    deletes nothing but its scratch directories. *)
Definition generationEvent {num : Type} `{JsNumber num} (g : globals num)
    (e : event) : bool :=
  match e with
  | Exec (CloneSource repo _) _ => String.eqb repo (Js.text (repoFullName g))
  | Exec (Checkout sha) _ => String.eqb sha (Js.text (commitSha g))
  | Exec (ClonePreview _ owner name _) _ =>
      String.eqb owner (previewRepoOwner g) && String.eqb name (previewRepoName g)
  | Exec (AddPath p) _ => String.eqb p (previewPath g)
  | Exec AddAll _ | Exec (DeleteTarget _) _ => false
  | Uncaught _ => false
  | _ => true
  end.

(** The copies of a trace: source, destination and outcome. *)
Fixpoint copies (l : list event) : list (string * string * bool) :=
  match l with
  | [] => []
  | CopyFile src dest ok :: rest => (src, dest, ok) :: copies rest
  | _ :: rest => copies rest
  end.

(** The end of both flows: the change to [/] and the removal of the
    scratch directories. *)
Definition closingEvent (e : event) : bool :=
  match e with
  | Chdir _ _ | Exec (RemoveScratch _) _ => true
  | _ => false
  end.

(** [typeof v === 'string'] *)
Definition isText {num : Type} (v : Js.value num) : bool :=
  match v with
  | Js.Str _ => true
  | _ => false
  end.

(** The text of the commit of the Publisher (src/handler.js 153), or the
    exception its evaluation throws. *)
Definition updateText {num : Type} `{JsNumber num} (g : globals num)
  : exn + string :=
  match Js.toString (repoName g) with
  | inl e => inl e
  | inr name =>
      match Js.toString (prNumber g) with
      | inl e => inl e
      | inr number =>
          match shortSha (commitSha g) with
          | inl e => inl e
          | inr sha7 =>
              inr ("Update preview for " ++ name ++ "#" ++ number
                   ++ " (" ++ sha7 ++ ")")
          end
      end
  end.

(** The text of the commit of the Remover (src/handler.js 197), or the
    exception its evaluation throws. *)
Definition removalText {num : Type} `{JsNumber num} (g : globals num)
  : exn + string :=
  match Js.toString (repoName g) with
  | inl e => inl e
  | inr name =>
      match Js.toString (prNumber g) with
      | inl e => inl e
      | inr number => inr ("Remove preview for " ++ name ++ "#" ++ number)
      end
  end.

(** The constants a flow renders in its messages and command lines
    convert to text, as the top level has checked when it runs a flow
    (src/handler.js 33 and 41). *)
Definition converts {num : Type} `{JsNumber num} (g : globals num) : bool :=
  Js.renders (repoName g) && Js.renders (prNumber g)
  && Js.renders (repoFullName g).

(** Anything but a call of [execSync]. *)
Definition noExec (e : event) : bool :=
  match e with
  | Exec _ _ => false
  | _ => true
  end.

(** Anything but a commit or a push. *)
Definition noCommit (e : event) : bool := negb (isCommit e || isPush e).


Definition isDelete (e : event) : bool :=
  match e with
  | Exec (DeleteTarget _) _ => true
  | _ => false
  end.

(** Every copy is of a file whose path ends with [.html]. *)
Definition copiesHtml (e : event) : bool :=
  match e with
  | CopyFile src _ _ => Str.endsWith ".html" src
  | _ => true
  end.





(** A failed command carries the message [execSync] gives its error. *)
Definition nodeMessage (e : event) : bool :=
  match e with
  | Exec c (Some msg) => String.eqb msg (commandFailed c)
  | _ => true
  end.

(** A push that succeeded, or one of the given log lines. *)
Definition settled (lines : list string) (e : event) : bool :=
  match e with
  | Exec Push None => true
  | Log line => existsb (String.eqb line) lines
  | _ => false
  end.

(** A computation whose normal return is marked by a [settled] event. *)
Definition concluded {ext A : Type} (lines : list string) (m : M ext A)
  : Prop :=
  forall w a,
    result (m w) = Ret a -> existsb (settled lines) (events (m w)) = true.

(** The preview clone uses the token [tok]. *)
Definition tokenIs (tok : string) (e : event) : bool :=
  match e with
  | Exec (ClonePreview t _ _ _) _ => String.eqb t tok
  | _ => true
  end.

(** A step that failed and that the code does not recover from: a
    command (see [recovered]), a change of directory, the making of a
    directory, a copy, or the reading of a directory. *)
Definition culprit (e : event) : bool :=
  match e with
  | Exec c (Some msg) => negb (recovered c msg)
  | Chdir _ false | Mkdir _ false | CopyFile _ _ false | Walk _ None => true
  | _ => false
  end.

(** A computation that throws exactly when one of its steps failed. *)
Definition accountable {ext A : Type} (m : M ext A) : Prop :=
  forall w,
    existsb culprit (events (m w)) = true <-> exists e, result (m w) = Throw e.

(** A computation that calls [process.exit] only after the line [line] on
    the error stream. *)
Definition exitsAfter {ext A : Type} (line : string) (m : M ext A) : Prop :=
  forall w c, result (m w) = Exit c -> In (Error line) (events (m w)).





Definition isCopy (e : event) : bool :=
  match e with
  | CopyFile _ _ _ => true
  | _ => false
  end.


Definition isBuilt (e : event) : bool :=
  match e with
  | Exec (BuildCommand _) None | Exec (BuildScript _) None => true
  | _ => false
  end.

(** * Properties *)

Section Properties.
Context {num : Type} `{JsNumber num} {ext : Type} `{Outside ext}.
Variable cfg : config.
Variable env : environment.

Lemma tame_ret {A} P (a : A) : tame (ext:=ext) P (ret a).
Proof. intro w; split; [reflexivity | discriminate]. Qed.

Lemma tame_throw {A} P e : tame (ext:=ext) (A:=A) P (throw e).
Proof. intro w; split; [reflexivity | discriminate]. Qed.

Lemma tame_lift {A} P (x : exn + A) : tame (ext:=ext) P (lift x).
Proof. destruct x; [apply tame_throw | apply tame_ret]. Qed.

Lemma tame_emit P e : P e = true -> tame (ext:=ext) P (emit e).
Proof.
  intros He w; split; [cbn; now rewrite He | discriminate].
Qed.

Lemma tame_bind {A B} P (m : M ext A) (k : A -> M ext B) :
  tame P m -> (forall a, tame P (k a)) -> tame P (bind m k).
Proof.
  intros Hm Hk w. unfold bind, after.
  destruct (Hm w) as [Em Xm].
  destruct (result (m w)) as [a | e | c] eqn:R; cbn.
  - destruct (Hk a (final (m w))) as [Ek Xk].
    split; [rewrite forallb_app, Em, Ek; reflexivity | exact Xk].
  - split; [exact Em | discriminate].
  - exfalso; now apply (Xm c).
Qed.

Lemma tame_tryCatch {A} P (m : M ext A) (h : exn -> M ext A) :
  tame P m -> (forall e, tame P (h e)) -> tame P (tryCatch m h).
Proof.
  intros Hm Hh w. unfold tryCatch.
  destruct (Hm w) as [Em Xm].
  destruct (result (m w)) as [a | e | c] eqn:R; cbn.
  - split; [exact Em | now rewrite R].
  - destruct (Hh e (final (m w))) as [Ek Xk].
    split; [rewrite forallb_app, Em, Ek; reflexivity | exact Xk].
  - exfalso; now apply (Xm c).
Qed.

Lemma tame_weaken {A} (P Q : event -> bool) (m : M ext A) :
  (forall e, P e = true -> Q e = true) -> tame P m -> tame Q m.
Proof.
  intros HPQ Hm w. destruct (Hm w) as [Em Xm]. split; [| exact Xm].
  rewrite forallb_forall in *. auto.
Qed.

Lemma tame_now P : tame P now.
Proof. intro w; split; [reflexivity | discriminate]. Qed.

Lemma tame_execSync P c :
  (forall x, P (Exec c x) = true) -> tame (ext:=ext) P (execSync c).
Proof.
  intros Hc w; split.
  - cbn. now rewrite Hc.
  - cbn. destruct (failure c w); discriminate.
Qed.

Lemma tame_existsSync P p :
  (forall b, P (Exists p b) = true) -> tame (ext:=ext) P (existsSync p).
Proof. intros Hp w; split; [cbn; now rewrite Hp | discriminate]. Qed.

Lemma tame_chdir P d :
  (forall b, P (Chdir d b) = true) -> tame (ext:=ext) P (chdir d).
Proof.
  intros Hd w; unfold chdir.
  destruct (Fs.isDir _); split; cbn; try rewrite Hd; try reflexivity;
    discriminate.
Qed.

Lemma tame_mkdirSync P p :
  (forall b, P (Mkdir p b) = true) -> tame (ext:=ext) P (mkdirSync p).
Proof.
  intros Hp w; unfold mkdirSync.
  destruct (Fs.mkdirp _ _); split; cbn; try rewrite Hp; try reflexivity;
    discriminate.
Qed.

Lemma tame_copyFileSync P s d :
  (forall b, P (CopyFile s d b) = true) -> tame (ext:=ext) P (copyFileSync s d).
Proof.
  intros Hp w; unfold copyFileSync.
  destruct (Fs.at_path _ _ _) as [[content | es |] |];
    try destruct (Fs.write _ _ _);
    split; cbn; try rewrite Hp; try reflexivity; discriminate.
Qed.

Lemma tame_pathRelative P a b   : tame (ext:=ext) P (pathRelative a b).
Proof. intro w; split; [reflexivity | discriminate]. Qed.

Lemma tame_findHtmlFiles P d :
  (forall l, P (Walk d l) = true) -> tame (ext:=ext) P (findHtmlFiles d).
Proof.
  intros Hp w; split.
  - cbn. now rewrite Hp.
  - cbn. destruct (walked d w); discriminate.
Qed.

Ltac tame_step :=
  first
    [ apply tame_bind; [| intros ?]
    | apply tame_tryCatch; [| intros ?]
    | apply tame_ret
    | apply tame_throw
    | apply tame_lift
    | apply tame_now
    | apply tame_pathRelative
    | apply tame_emit; reflexivity
    | apply tame_execSync; intros ?; reflexivity
    | apply tame_existsSync; intros ?; reflexivity
    | apply tame_chdir; intros ?; reflexivity
    | apply tame_mkdirSync; intros ?; reflexivity
    | apply tame_copyFileSync; intros ?; reflexivity
    | apply tame_findHtmlFiles; intros ?; reflexivity
    | match goal with
      | |- tame _ (if ?b then _ else _) => destruct b
      | |- tame _ (let _ := _ in _) => cbv zeta
      end
    | assumption ].

Ltac tame_tac :=
  unfold console_log, console_warn, console_error, console_error_with;
  repeat tame_step.

Lemma tame_buildLoop scripts : tame (ext:=ext) sourceEvent (buildLoop scripts).
Proof.
  induction scripts as [| script rest IH]; cbn [buildLoop]; tame_tac.
Qed.

Lemma tame_locate dirs : tame (ext:=ext) sourceEvent (locate dirs).
Proof.
  induction dirs as [| dir rest IH]; cbn [locate]; tame_tac.
Qed.

Lemma tame_checkoutAndBuild g :
  tame (ext:=ext) sourceEvent (checkoutAndBuild (num:=num) g).
Proof.
  unfold checkoutAndBuild. tame_tac; try apply tame_buildLoop.
Qed.

Lemma tame_copyLoop tempDir targetDir htmlFiles :
  tame (ext:=ext) stageEvent (copyLoop tempDir targetDir htmlFiles).
Proof.
  induction htmlFiles as [| file rest IH]; cbn [copyLoop]; tame_tac.
Qed.

Lemma tame_stage g tempDir previewDir htmlFiles :
  tame (ext:=ext) stageEvent (stage (num:=num) env g tempDir previewDir htmlFiles).
Proof.
  unfold stage. tame_tac; try apply tame_copyLoop.
Qed.

Lemma tame_toleratingNoChanges e :
  tame (ext:=ext) commitEvent (toleratingNoChanges e).
Proof. unfold toleratingNoChanges. tame_tac. Qed.

(** *** The top level *)

Lemma bind_ret {A B} (a : A) (k : A -> M ext B) w : bind (ret a) k w = k a w.
Proof. unfold bind, after, ret; cbn. now destruct (k a w). Qed.

Lemma truthy_not_nullish (v : Js.value num) :
  Js.truthy v = true -> Js.nullish v = false.
Proof. destruct v; cbn; congruence. Qed.

Lemma bind_get {B} (v : Js.value num) k (f : Js.value num -> M ext B) w :
  Js.nullish v = false ->
  bind (lift (Js.get v k)) f w = f (Js.prop v k) w.
Proof.
  intros Hv. unfold Js.prop.
  destruct v; try discriminate; cbn [Js.get lift]; apply bind_ret.
Qed.

(** C7: an event payload that lacks [action], [repository] or
    [pull_request] makes the invocation end with exit code 1 after one
    message on the error stream (the "Missing required ..." line, or the
    report of the uncaught exception when the payload is [null]); the world
    is left as it was: no clone, build, commit or push. *)
Theorem missing_field_is_fatal (payload : Js.value num) (w : world ext) :
  Js.missing payload "action" || Js.missing payload "repository"
  || Js.missing payload "pull_request" = true ->
  let r := invoke cfg env payload w in
  exitCode r = 1%Z /\ endWorld r = w
  /\ (exists e, trace r = [e] /\ errorStream e = true)
  /\ (Js.nullish payload = false ->
      trace r = [Error "Missing required event payload fields"]).
Proof.
  intros Hmiss r. subst r. unfold invoke, main.
  destruct (Js.nullish payload) eqn:Hn.
  - destruct payload; try discriminate Hn; cbn; repeat split;
      try discriminate; eexists; split; reflexivity.
  - rewrite bind_get by exact Hn. cbv beta.
    rewrite bind_get by exact Hn. cbv beta.
    rewrite bind_get by exact Hn. cbv beta.
    rewrite bind_get by exact Hn. cbv beta.
    assert (Hcond : negb (Js.truthy (Js.prop payload "action"))
                    || negb (Js.truthy (Js.prop payload "repository"))
                    || negb (Js.truthy (Js.prop payload "pull_request")) = true).
    { unfold Js.missing in Hmiss.
      destruct (Js.prop payload "action"); cbn in *; try reflexivity;
        destruct (Js.prop payload "repository"); cbn in *;
        rewrite ?orb_true_r; try reflexivity;
        destruct (Js.prop payload "pull_request"); cbn in *;
        rewrite ?orb_true_r; try reflexivity; discriminate. }
    rewrite Hcond. cbn. repeat split.
    exists (Error "Missing required event payload fields"). now split.
Qed.

Lemma prop_of_nullish (v : Js.value num) k :
  Js.nullish v = true -> Js.prop v k = Js.Undefined.
Proof. destruct v; try discriminate; reflexivity. Qed.

Lemma required_fields_payload (payload : Js.value num) k :
  Js.truthy (Js.prop payload k) = true -> Js.nullish payload = false.
Proof.
  intros Ht. destruct (Js.nullish payload) eqn:Hn; [| reflexivity].
  rewrite (prop_of_nullish payload k Hn) in Ht. discriminate.
Qed.

Ltac read_field H :=
  rewrite bind_get by exact H; cbv beta.

Lemma toString_renders (v : Js.value num) :
  Js.renders v = true -> Js.toString v = inr (Js.text v).
Proof. intros Hv. unfold Js.toString. now rewrite Hv. Qed.

Lemma toString_throws (v : Js.value num) :
  Js.renders v = false ->
  Js.toString v = inl (Exn "Cannot convert object to primitive value").
Proof. intros Hv. unfold Js.toString. now rewrite Hv. Qed.

Lemma bind_toString {B} (v : Js.value num) (f : string -> M ext B) w :
  Js.renders v = true ->
  bind (lift (Js.toString v)) f w = f (Js.text v) w.
Proof. intros Hv. rewrite (toString_renders v Hv). apply bind_ret. Qed.

(** A conversion to text gives the text of the value or throws. *)
Lemma tame_render {B} P (v : Js.value num) (k : string -> M ext B) :
  tame P (k (Js.text v)) -> tame P (bind (lift (Js.toString v)) k).
Proof.
  intros Hk w. unfold Js.toString. destruct (Js.renders v); cbn [lift].
  - rewrite bind_ret. apply Hk.
  - split; [reflexivity | discriminate].
Qed.

Lemma isString_renders (v : Js.value num) s :
  Js.isString v s = true -> Js.renders v = true.
Proof. destruct v; try discriminate; reflexivity. Qed.

Ltac render_field H :=
  rewrite bind_toString by exact H; cbv beta.


(** C10 (amended): when the three required fields are present and
    [pull_request.head] is missing ([undefined] or [null]), reading
    [pull_request.head.sha] throws before the repository filter and the
    router run, whatever the action and whether or not the repository is
    monitored: the invocation ends with exit code 1, the only event is the
    report of the uncaught exception, and the world is left as it was. *)
Theorem missing_head_throws_before_filter (payload : Js.value num)
    (w : world ext) :
  Js.truthy (Js.prop payload "action") = true ->
  Js.truthy (Js.prop payload "repository") = true ->
  Js.truthy (Js.prop payload "pull_request") = true ->
  Js.nullish (Js.prop (Js.prop payload "pull_request") "head") = true ->
  let r := invoke cfg env payload w in
  exitCode r = 1%Z /\ endWorld r = w
  /\ exists e, trace r = [Uncaught e].
Proof.
  intros Ha Hr Hp Hh r. subst r.
  pose proof (required_fields_payload payload _ Ha) as Hn.
  pose proof (truthy_not_nullish _ Hr) as Hr'.
  pose proof (truthy_not_nullish _ Hp) as Hp'.
  unfold invoke, main.
  do 4 read_field Hn.
  rewrite Ha, Hr, Hp. cbn [negb orb].
  read_field Hr'. read_field Hp'. read_field Hp'.
  destruct (Js.prop (Js.prop payload "pull_request") "head");
    try discriminate Hh; cbn; repeat split; eexists; reflexivity.
Qed.

(** *** The Artifact Locator *)

Lemma locate_skips_absent dir rest (w : world ext) :
  found dir w = false ->
  locate (dir :: rest) w = prepend [Exists dir false] (locate rest w).
Proof.
  intros Hf. cbn [locate]. unfold bind, after, existsSync. cbn.
  rewrite Hf. reflexivity.
Qed.

Lemma locate_skips_empty dir rest (w : world ext) :
  found dir w = true -> walked dir w = Some [] ->
  locate (dir :: rest) w
  = prepend [Exists dir true; Walk dir (Some [])] (locate rest w).
Proof.
  intros Hf Hw. cbn [locate]. unfold bind, after, existsSync, findHtmlFiles.
  cbn. rewrite Hf. cbn. rewrite Hw. reflexivity.
Qed.

Lemma locate_takes_first dir rest l (w : world ext) :
  found dir w = true -> walked dir w = Some l -> l <> [] ->
  locate (dir :: rest) w
  = Run [ Exists dir true; Walk dir (Some l);
          Log ("Found " ++ Str.ofZ (Z.of_nat (List.length l))
               ++ " HTML files in " ++ dir) ] w (Ret l).
Proof.
  intros Hf Hw Hl. cbn [locate].
  unfold bind, after, existsSync, findHtmlFiles. cbn.
  rewrite Hf. cbn. rewrite Hw. cbn.
  destruct l as [| x l']; [contradiction |]. reflexivity.
Qed.


Lemma locate_yield dirs (w : world ext) l :
  result (locate dirs w) = Ret l -> l <> [] ->
  exists dir, In (Walk dir (Some l)) (events (locate dirs w)).
Proof.
  induction dirs as [| dir rest IH]; intros Hres Hl.
  - cbn in Hres. congruence.
  - destruct (found dir w) eqn:Hf.
    + destruct (walked dir w) as [[| x l'] |] eqn:Hw.
      * rewrite (locate_skips_empty dir rest w Hf Hw) in *.
        destruct (IH Hres Hl) as [d Hd]. exists d. cbn. auto.
      * rewrite (locate_takes_first dir rest (x :: l') w Hf Hw) in *
          by discriminate.
        cbn in Hres. injection Hres as <-. exists dir. cbn. auto.
      * cbn [locate] in Hres. unfold bind, after, existsSync, findHtmlFiles in Hres.
        cbn in Hres. rewrite Hf in Hres. cbn in Hres. rewrite Hw in Hres.
        discriminate.
    + rewrite (locate_skips_absent dir rest w Hf) in *.
      destruct (IH Hres Hl) as [d Hd]. exists d. cbn. auto.
Qed.

(** *** Events of composed runs *)

Lemma tame_run {A} P (m : M ext A) w evs w' res :
  tame P m -> m w = Run evs w' res ->
  forallb P evs = true /\ forall c, res <> Exit c.
Proof. intros Hm E. specialize (Hm w). now rewrite E in Hm. Qed.

Lemma in_bind_l {A B} (m : M ext A) (k : A -> M ext B) w ev :
  In ev (events (m w)) -> In ev (events (bind m k w)).
Proof.
  intros Hin. unfold bind, after.
  destruct (result (m w)); cbn; [apply in_or_app; now left | |]; exact Hin.
Qed.

Lemma in_bind_r {A B} (m : M ext A) (k : A -> M ext B) w a ev :
  result (m w) = Ret a -> In ev (events (k a (final (m w)))) ->
  In ev (events (bind m k w)).
Proof.
  intros R Hin. unfold bind, after. rewrite R. cbn.
  apply in_or_app; now right.
Qed.

Lemma in_tryCatch {A} (m : M ext A) h w ev :
  In ev (events (m w)) -> In ev (events (tryCatch m h w)).
Proof.
  intros Hin. unfold tryCatch.
  destruct (result (m w)); cbn; [| apply in_or_app; now left |]; exact Hin.
Qed.

Lemma forallb_weaken (P Q : event -> bool) l :
  (forall e, P e = true -> Q e = true) ->
  forallb P l = true -> forallb Q l = true.
Proof. intros HPQ. rewrite !forallb_forall. auto. Qed.

Lemma source_not_publish e : sourceEvent e = true -> negb (publishEvent e) = true.
Proof. destruct e as [| | | | | [] ? | | | | |]; cbn; congruence. Qed.

Lemma bind_run_ret {A B} (m : M ext A) (k : A -> M ext B) w evs w' a :
  m w = Run evs w' (Ret a) -> bind m k w = prepend evs (k a w').
Proof. intros E. unfold bind, after. now rewrite E. Qed.

Lemma bind_run_throw {A B} (m : M ext A) (k : A -> M ext B) w evs w' e :
  m w = Run evs w' (Throw e) -> bind m k w = Run evs w' (Throw e).
Proof. intros E. unfold bind, after. now rewrite E. Qed.

Lemma bind_run_exit {A B} (m : M ext A) (k : A -> M ext B) w evs w' c :
  m w = Run evs w' (Exit c) -> bind m k w = Run evs w' (Exit c).
Proof. intros E. unfold bind, after. now rewrite E. Qed.

Lemma tryCatch_run_ret {A} (m : M ext A) h w evs w' a :
  m w = Run evs w' (Ret a) -> tryCatch m h w = Run evs w' (Ret a).
Proof. intros E. unfold tryCatch. now rewrite E. Qed.

Lemma tryCatch_run_throw {A} (m : M ext A) h w evs w' e :
  m w = Run evs w' (Throw e) -> tryCatch m h w = prepend evs (h e w').
Proof. intros E. unfold tryCatch. now rewrite E. Qed.

Lemma tryCatch_run_exit {A} (m : M ext A) h w evs w' c :
  m w = Run evs w' (Exit c) -> tryCatch m h w = Run evs w' (Exit c).
Proof. intros E. unfold tryCatch. now rewrite E. Qed.

(** The run of the generation flow when the search for files ends. *)
Lemma generation_after_search (g : globals num) (w : world ext)
    e1 w1 dirs e2 w2 l :
  checkoutAndBuild g w = Run e1 w1 (Ret dirs) ->
  locate htmlDirs w1 = Run e2 w2 (Ret l) ->
  generation env g w
  = prepend e1
      (prepend e2
         (if (List.length l =? 0)%nat then
            Run [Error "No HTML files found. Build script may not have generated output."]
              w2 (Exit 1%Z)
          else publish env g (fst dirs) (snd dirs) l w2)).
Proof.
  intros E1 E2. unfold generation.
  rewrite (bind_run_ret _ _ _ _ _ _ E1). cbv beta.
  rewrite (bind_run_ret _ _ _ _ _ _ E2). cbv beta.
  destruct (List.length l =? 0)%nat; reflexivity.
Qed.

(** C5: a generation-flow run in which no walk of a candidate directory
    yields a file fails: the process exits with code 1, the last event is
    a message on the error stream (the "No HTML files found" line when the
    search ended, the caught exception otherwise), and no step of
    publishing (clone of the preview repository, copy, staging, commit,
    push) occurs. *)
Theorem no_artifacts_is_fatal (g : globals num) (w : world ext) :
  let r := ending (handlePreviewGeneration env g w) in
  (forall dir l, In (Walk dir (Some l)) (trace r) -> l = []) ->
  exitCode r = 1%Z
  /\ forallb (fun e => negb (publishEvent e)) (trace r) = true
  /\ exists evs e,
       trace r = List.app evs [e]
       /\ (e = Error "No HTML files found. Build script may not have generated output."
           \/ exists x, e = ErrorWith "Error generating preview:" x).
Proof.
  intros r Hnone. subst r.
  assert (Hyield : forall l, l <> [] ->
            forall w1 dirs,
              result (checkoutAndBuild g w) = Ret dirs ->
              final (checkoutAndBuild g w) = w1 ->
              result (locate htmlDirs w1) = Ret l -> False).
  { intros l Hl w1 dirs R1 F1 R2.
    destruct (locate_yield htmlDirs w1 l R2 Hl) as [d Hd].
    apply Hl, (Hnone d).
    assert (Hin : In (Walk d (Some l))
                    (events (handlePreviewGeneration env g w))).
    { apply in_tryCatch. unfold generation.
      eapply in_bind_r; [exact R1 |]. rewrite F1. now apply in_bind_l. }
    unfold ending.
    destruct (result (handlePreviewGeneration env g w)); cbn; try exact Hin.
    apply in_or_app; now left. }
  clear Hnone. unfold handlePreviewGeneration.
  destruct (checkoutAndBuild g w) as [e1 w1 [dirs | ex | c]] eqn:E1;
    destruct (tame_run _ _ _ _ _ _ (tame_checkoutAndBuild g) E1) as [S1 X1].
  - destruct (locate htmlDirs w1) as [e2 w2 [l | ex | c]] eqn:E2;
      destruct (tame_run _ _ _ _ _ _ (tame_locate htmlDirs) E2) as [S2 X2].
    + destruct l as [| x l'].
      * rewrite (tryCatch_run_exit _ _ _ (List.app e1 (List.app e2 [Error "No HTML files found. Build script may not have generated output."])) w2 1%Z)
          by (rewrite (generation_after_search g w _ _ _ _ _ _ E1 E2);
              reflexivity).
        cbn. split; [reflexivity |]. split.
        -- rewrite !forallb_app.
           rewrite (forallb_weaken _ _ _ source_not_publish S1).
           rewrite (forallb_weaken _ _ _ source_not_publish S2).
           reflexivity.
        -- exists (List.app e1 e2). eexists. split;
             [now rewrite app_assoc | now left].
      * exfalso. apply (Hyield (x :: l')) with (w1 := w1) (dirs := dirs);
          try reflexivity; try discriminate.
        now rewrite E2.
    + rewrite (tryCatch_run_throw _ _ _ (List.app e1 e2) w2 ex).
      2:{ unfold generation. rewrite (bind_run_ret _ _ _ _ _ _ E1). cbv beta.
          rewrite (bind_run_throw _ _ _ _ _ _ E2). reflexivity. }
      cbn. split; [reflexivity |]. split.
      * rewrite !forallb_app.
        rewrite (forallb_weaken _ _ _ source_not_publish S1).
        rewrite (forallb_weaken _ _ _ source_not_publish S2).
        reflexivity.
      * exists (List.app e1 e2). eexists. split; [reflexivity | right; eauto].
    + exfalso. now apply (X2 c).
  - rewrite (tryCatch_run_throw _ _ _ e1 w1 ex)
      by (unfold generation; now rewrite (bind_run_throw _ _ _ _ _ _ E1)).
    cbn. split; [reflexivity |]. split.
    + rewrite !forallb_app.
      rewrite (forallb_weaken _ _ _ source_not_publish S1). reflexivity.
    + exists e1. eexists. split; [reflexivity | right; eauto].
  - exfalso. now apply (X1 c).
Qed.

(** *** The commit step and the removal of the scratch directories *)

Lemma chdir_root (w : world ext) :
  chdir "/" w = Run [Chdir "/" true] (World (files w) "/" (outside w)) (Ret tt).
Proof. reflexivity. Qed.

Lemma removeScratch_run dirs (w : world ext) :
  let w' := World (files w) "/" (outside w) in
  removeScratch dirs w
  = Run [Chdir "/" true; Exec (RemoveScratch dirs) (failure (RemoveScratch dirs) w')]
      (afterExec (RemoveScratch dirs) w')
      (match failure (RemoveScratch dirs) w' with
       | None => Ret tt
       | Some m => Throw (Exn m)
       end).
Proof.
  intros w'. unfold removeScratch.
  rewrite (bind_run_ret _ _ _ _ _ _ (chdir_root w)). reflexivity.
Qed.

Lemma commitAndPush_step (g : globals num) (w : world ext) :
  commitAndPush g w
  = commitStep (updateText g) "Preview updated successfully!" w.
Proof.
  unfold commitAndPush, commitStep, updateText, tryCatch.
  destruct (Js.toString (repoName g)); cbn [lift]; [reflexivity |].
  rewrite !bind_ret.
  destruct (Js.toString (prNumber g)); cbn [lift]; [reflexivity |].
  rewrite !bind_ret.
  destruct (shortSha (commitSha g)); cbn [lift]; [reflexivity |].
  now rewrite !bind_ret.
Qed.

Lemma commitRemoval_step (g : globals num) (w : world ext) :
  commitRemoval g w
  = commitStep (removalText g) "Preview cleanup completed!" w.
Proof.
  unfold commitRemoval, commitStep, removalText, tryCatch.
  destruct (Js.toString (repoName g)); cbn [lift]; [reflexivity |].
  rewrite !bind_ret.
  destruct (Js.toString (prNumber g)); cbn [lift]; [reflexivity |].
  now rewrite !bind_ret.
Qed.

Lemma tame_commitStep text done : tame commitEvent (commitStep text done).
Proof.
  unfold commitStep. tame_tac; try apply tame_toleratingNoChanges.
Qed.

(** When the commit fails with a message that includes "nothing to
    commit", the step logs one line and returns normally: no push is
    attempted. *)
Lemma commitStep_tolerates text done (w : world ext) t msg :
  In (Exec (Commit t) (Some msg)) (events (commitStep text done w)) ->
  Str.includes "nothing to commit" msg = true ->
  result (commitStep text done w) = Ret tt
  /\ events (commitStep text done w)
     = [Exec (Commit t) (Some msg); Log "No changes to commit."].
Proof.
  unfold commitStep, tryCatch, bind, after, lift, toleratingNoChanges.
  destruct text as [e | t0]; cbn.
  - destruct (Str.includes "nothing to commit" (message e)); cbn;
      intros Hin; exfalso; intuition discriminate.
  - destruct (failure (Commit t0) w) as [m |] eqn:Fc; cbn.
    + destruct (Str.includes "nothing to commit" m) eqn:Hm; cbn.
      * intros [Hin | [Hin | []]] _; [| discriminate Hin].
        injection Hin as -> ->. split; reflexivity.
      * intros [Hin | []] Hmsg. injection Hin as -> ->. congruence.
    + destruct (failure Push (afterExec (Commit t0) w)) as [m |] eqn:Fp; cbn.
      * destruct (Str.includes "nothing to commit" m); cbn;
          intros Hin; exfalso; intuition discriminate.
      * intros Hin; exfalso; intuition discriminate.
Qed.

(** *** The shape of the runs of the two flows *)

Lemma source_beforeCommit e : sourceEvent e = true -> beforeCommit e = true.
Proof. unfold beforeCommit. now intros ->. Qed.

Lemma stage_beforeCommit e : stageEvent e = true -> beforeCommit e = true.
Proof. unfold beforeCommit. intros ->. now rewrite orb_true_r. Qed.

Lemma remover_beforeCommit e : removerEvent e = true -> beforeCommit e = true.
Proof. unfold beforeCommit. intros ->. now rewrite orb_true_r. Qed.

Lemma commitStep_not_tolerated text done (w : world ext) x t msg :
  result (commitStep text done w) = Throw x ->
  In (Exec (Commit t) (Some msg)) (events (commitStep text done w)) ->
  Str.includes "nothing to commit" msg = false.
Proof.
  intros R Hin. destruct (Str.includes "nothing to commit" msg) eqn:Hm;
    [| reflexivity].
  destruct (commitStep_tolerates text done w t msg Hin Hm) as [R' _].
  congruence.
Qed.

Lemma prepend_prepend {A} a b (r : run ext A) :
  prepend a (prepend b r) = prepend (List.app a b) r.
Proof. unfold prepend; cbn. now rewrite app_assoc. Qed.

Lemma bind_assoc {A B C} (m : M ext A) (k : A -> M ext B) (k' : B -> M ext C) w :
  bind (bind m k) k' w = bind m (fun a => bind (k a) k') w.
Proof.
  unfold bind, after.
  destruct (result (m w)) as [a | e | c]; cbn; try reflexivity.
  destruct (result (k a (final (m w)))) as [b | e | c]; cbn; try reflexivity.
  now rewrite app_assoc.
Qed.

Lemma bind_pointwise {A B} (m m' : M ext A) (k : A -> M ext B) w :
  m w = m' w -> bind m k w = bind m' k w.
Proof. intros E. unfold bind. now rewrite E. Qed.

(** A flow that reaches the removal of its scratch directories. *)
Lemma flow_end_shape label dirs pre committed (w w4 : world ext)
    (body : M ext unit) :
  forallb beforeCommit pre = true ->
  forallb commitEvent committed = true ->
  (forall t msg, In (Exec (Commit t) (Some msg)) committed ->
                 Str.includes "nothing to commit" msg = true ->
                 committed = [ Exec (Commit t) (Some msg);
                               Log "No changes to commit." ]) ->
  body w = prepend (List.app pre committed) (removeScratch dirs w4) ->
  flowShape label dirs
    (tryCatch body (fun error => console_error_with label error ;; exit 1%Z) w).
Proof.
  intros Hpre Hcom Htol Hbody.
  rewrite removeScratch_run in Hbody. cbv zeta in Hbody.
  set (fl := failure (RemoveScratch dirs) (World (files w4) "/" (outside w4))) in *.
  unfold prepend in Hbody. cbn [events final result] in Hbody.
  apply (FlowEnded label dirs _ pre committed fl Hpre Hcom Htol).
  - destruct fl as [m |].
    + rewrite (tryCatch_run_throw _ _ _ _ _ _ Hbody). cbn.
      now rewrite <- !app_assoc.
    + rewrite (tryCatch_run_ret _ _ _ _ _ _ Hbody). cbn.
      now rewrite <- !app_assoc.
  - destruct fl as [m |].
    + rewrite (tryCatch_run_throw _ _ _ _ _ _ Hbody). reflexivity.
    + rewrite (tryCatch_run_ret _ _ _ _ _ _ Hbody). reflexivity.
Qed.

(** After the steps before the commit, a flow runs its commit step and the
    removal of the scratch directories. *)
Lemma flow_tail_shape label text done dirs pre (w w3 : world ext)
    (body : M ext unit) :
  forallb beforeCommit pre = true ->
  body w
  = prepend pre (bind (commitStep text done) (fun _ => removeScratch dirs) w3) ->
  flowShape label dirs
    (tryCatch body (fun error => console_error_with label error ;; exit 1%Z) w).
Proof.
  intros Hpre Hbody.
  destruct (commitStep text done w3) as [e4 w4 [[] | x | c]] eqn:E4;
    destruct (tame_run _ _ _ _ _ _ (tame_commitStep text done) E4) as [S4 X4].
  - rewrite (bind_run_ret _ _ _ _ _ _ E4) in Hbody. cbv beta in Hbody.
    rewrite prepend_prepend in Hbody.
    apply (flow_end_shape label dirs pre e4 w w4 body Hpre S4); [| exact Hbody].
    intros t msg Hin Hm.
    pose proof (commitStep_tolerates text done w3 t msg) as T.
    rewrite E4 in T. now apply T.
  - rewrite (bind_run_throw _ _ _ _ _ _ E4) in Hbody.
    unfold prepend in Hbody. cbn [events final result] in Hbody.
    apply (FlowFailed label dirs _ pre e4 (ErrorWith label x) Hpre S4).
    + intros t msg Hin.
      apply (commitStep_not_tolerated text done w3 x t msg); now rewrite E4.
    + reflexivity.
    + rewrite (tryCatch_run_throw _ _ _ _ _ _ Hbody). cbn.
      now rewrite <- !app_assoc.
    + rewrite (tryCatch_run_throw _ _ _ _ _ _ Hbody). reflexivity.
  - exfalso. now apply (X4 c).
Qed.

(** A flow that throws before its commit step. *)
Lemma flow_early_failure label dirs pre (w w' : world ext) x
    (body : M ext unit) :
  forallb beforeCommit pre = true ->
  body w = Run pre w' (Throw x) ->
  flowShape label dirs
    (tryCatch body (fun error => console_error_with label error ;; exit 1%Z) w).
Proof.
  intros Hpre Hbody.
  apply (FlowFailed label dirs _ pre [] (ErrorWith label x) Hpre eq_refl).
  - intros t msg [].
  - reflexivity.
  - rewrite (tryCatch_run_throw _ _ _ _ _ _ Hbody). reflexivity.
  - rewrite (tryCatch_run_throw _ _ _ _ _ _ Hbody). reflexivity.
Qed.

Lemma tame_deleteAndStage g targetPath :
  tame (ext:=ext) removerEvent (deleteAndStage (num:=num) g targetPath).
Proof. unfold deleteAndStage. tame_tac. Qed.

Lemma tame_enterPreview g :
  tame (ext:=ext) removerEvent (enterPreview (num:=num) env g).
Proof. unfold enterPreview. tame_tac. Qed.

Lemma returns_ret {A} (a : A) : returns (ext:=ext) a (ret a).
Proof. intros w x Hx. cbn in Hx. congruence. Qed.

Lemma returns_bind {A B} (b : B) (m : M ext A) (k : A -> M ext B) :
  (forall a, returns b (k a)) -> returns b (bind m k).
Proof.
  intros Hk w x. unfold bind, after.
  destruct (result (m w)) as [a | e | c]; cbn; try discriminate.
  apply Hk.
Qed.

Lemma now_run (w : world ext) :
  now w = Run [] (World (files w) (cwd w) (snd (dateNow (outside w))))
            (Ret (fst (dateNow (outside w)))).
Proof. reflexivity. Qed.

Lemma checkoutAndBuild_dirs (g : globals num) (w : world ext) dirs :
  result (checkoutAndBuild g w) = Ret dirs ->
  [fst dirs; snd dirs] = generationScratch w.
Proof.
  unfold checkoutAndBuild.
  rewrite (bind_run_ret _ _ _ _ _ _ (now_run w)). cbv beta zeta.
  rewrite (bind_run_ret _ _ _ _ _ _ (now_run _)). cbv beta zeta.
  unfold prepend. cbn [result outside].
  intros Hres.
  match type of Hres with
  | result (?m _) = _ =>
      assert (R : returns
                    (Path.join ["/tmp"; "preview-" ++ Str.ofZ (fst (dateNow (outside w)))],
                     Path.join ["/tmp"; "preview-repo-"
                                  ++ Str.ofZ (fst (dateNow (snd (dateNow (outside w)))))])
                    m)
        by (repeat (apply returns_bind; intros ?); apply returns_ret)
  end.
  rewrite (R _ _ Hres). reflexivity.
Qed.

Lemma enterPreview_dir (g : globals num) (w : world ext) previewDir :
  result (enterPreview env g w) = Ret previewDir ->
  [previewDir] = cleanupScratch w.
Proof.
  unfold enterPreview.
  rewrite (bind_run_ret _ _ _ _ _ _ (now_run w)). cbv beta zeta.
  unfold prepend. cbn [result outside].
  intros Hres.
  match type of Hres with
  | result (?m _) = _ =>
      assert (R : returns
                    (Path.join ["/tmp"; "preview-repo-cleanup-"
                                  ++ Str.ofZ (fst (dateNow (outside w)))])
                    m)
        by (repeat (apply returns_bind; intros ?); apply returns_ret)
  end.
  rewrite (R _ _ Hres). reflexivity.
Qed.

Lemma generation_flow_shape (g : globals num) (w : world ext) :
  flowShape "Error generating preview:" (generationScratch w)
    (handlePreviewGeneration env g w).
Proof.
  unfold handlePreviewGeneration.
  destruct (checkoutAndBuild g w) as [e1 w1 [dirs | ex | c]] eqn:E1;
    destruct (tame_run _ _ _ _ _ _ (tame_checkoutAndBuild g) E1) as [S1 X1].
  - pose proof (checkoutAndBuild_dirs g w) as Hdirs.
    rewrite E1 in Hdirs. specialize (Hdirs dirs eq_refl).
    destruct (locate htmlDirs w1) as [e2 w2 [l | ex | c]] eqn:E2;
      destruct (tame_run _ _ _ _ _ _ (tame_locate htmlDirs) E2) as [S2 X2].
    + assert (S12 : forallb beforeCommit (List.app e1 e2) = true).
      { rewrite forallb_app.
        rewrite (forallb_weaken _ _ _ source_beforeCommit S1).
        now rewrite (forallb_weaken _ _ _ source_beforeCommit S2). }
      pose proof (generation_after_search g w _ _ _ _ _ _ E1 E2) as G.
      rewrite prepend_prepend in G.
      destruct l as [| x l']; cbn [List.length Nat.eqb] in G.
      * apply (FlowFailed _ _ _ (List.app e1 e2) []
                 (Error "No HTML files found. Build script may not have generated output.")
                 S12 eq_refl).
        -- intros t msg [].
        -- reflexivity.
        -- rewrite (tryCatch_run_exit _ _ _ _ _ _ G). reflexivity.
        -- rewrite (tryCatch_run_exit _ _ _ _ _ _ G). reflexivity.
      * unfold publish in G.
        destruct (stage env g (fst dirs) (snd dirs) (x :: l') w2)
          as [e3 w3 [[] | ex | c]] eqn:E3;
          destruct (tame_run _ _ _ _ _ _
                      (tame_stage g (fst dirs) (snd dirs) (x :: l')) E3)
            as [S3 X3].
        -- rewrite (bind_run_ret _ _ _ _ _ _ E3) in G. cbv beta in G.
           rewrite prepend_prepend in G.
           rewrite (bind_pointwise _ _ _ _ (commitAndPush_step g w3)) in G.
           rewrite Hdirs in G.
           eapply flow_tail_shape; [| exact G].
           rewrite forallb_app, S12.
           now rewrite (forallb_weaken _ _ _ stage_beforeCommit S3).
        -- rewrite (bind_run_throw _ _ _ _ _ _ E3) in G.
           unfold prepend in G; cbn [events final result] in G.
           eapply flow_early_failure; [| exact G].
           rewrite forallb_app, S12.
           now rewrite (forallb_weaken _ _ _ stage_beforeCommit S3).
        -- exfalso. now apply (X3 c).
    + eapply (flow_early_failure _ _ (List.app e1 e2)).
      * rewrite forallb_app.
        rewrite (forallb_weaken _ _ _ source_beforeCommit S1).
        now rewrite (forallb_weaken _ _ _ source_beforeCommit S2).
      * unfold generation. rewrite (bind_run_ret _ _ _ _ _ _ E1). cbv beta.
        rewrite (bind_run_throw _ _ _ _ _ _ E2). reflexivity.
    + exfalso. now apply (X2 c).
  - eapply (flow_early_failure _ _ e1).
    + now rewrite (forallb_weaken _ _ _ source_beforeCommit S1).
    + unfold generation. now rewrite (bind_run_throw _ _ _ _ _ _ E1).
  - exfalso. now apply (X1 c).
Qed.

Lemma existsSync_run p (w : world ext) :
  existsSync p w = Run [Exists p (found p w)] w (Ret (found p w)).
Proof. reflexivity. Qed.

Lemma console_log_run line (w : world ext) :
  console_log line w = Run [Log line] w (Ret tt).
Proof. reflexivity. Qed.

Lemma cleanup_flow_shape (g : globals num) (w : world ext) :
  flowShape "Error during cleanup:" (cleanupScratch w) (handleCleanup env g w).
Proof.
  unfold handleCleanup.
  destruct (enterPreview env g w) as [e1 w1 [previewDir | ex | c]] eqn:E1;
    destruct (tame_run _ _ _ _ _ _ (tame_enterPreview g) E1) as [S1 X1].
  - pose proof (enterPreview_dir g w) as Hdir.
    rewrite E1 in Hdir. specialize (Hdir previewDir eq_refl).
    assert (B1 : forallb beforeCommit e1 = true)
      by now rewrite (forallb_weaken _ _ _ remover_beforeCommit S1).
    assert (G : cleanup env g w
                = prepend e1
                    (bind (existsSync (Path.join [previewDir; previewPath g]))
                       (fun present : bool =>
                          (if present
                           then removePreview g (Path.join [previewDir; previewPath g])
                           else console_log ("Preview folder " ++ previewPath g
                                   ++ " does not exist. Nothing to clean up.")) ;;
                          removeScratch [previewDir]) w1)).
    { unfold cleanup. now rewrite (bind_run_ret _ _ _ _ _ _ E1). }
    rewrite (bind_run_ret _ _ _ _ _ _ (existsSync_run _ w1)) in G.
    cbv beta in G. rewrite prepend_prepend in G.
    destruct (found (Path.join [previewDir; previewPath g]) w1) eqn:Hf.
    + unfold removePreview in G. rewrite bind_assoc in G.
      destruct (deleteAndStage g (Path.join [previewDir; previewPath g]) w1)
        as [e3 w3 [[] | ex | c]] eqn:E3;
        destruct (tame_run _ _ _ _ _ _ (tame_deleteAndStage g _) E3) as [S3 X3].
      * rewrite (bind_run_ret _ _ _ _ _ _ E3) in G. cbv beta in G.
        rewrite prepend_prepend in G.
        rewrite (bind_pointwise _ _ _ _ (commitRemoval_step g w3)) in G.
        rewrite Hdir in G.
        eapply flow_tail_shape; [| exact G].
        rewrite !forallb_app, B1. cbn.
        now rewrite (forallb_weaken _ _ _ remover_beforeCommit S3).
      * rewrite (bind_run_throw _ _ _ _ _ _ E3) in G.
        unfold prepend in G; cbn [events final result] in G.
        eapply flow_early_failure; [| exact G].
        rewrite !forallb_app, B1. cbn.
        now rewrite (forallb_weaken _ _ _ remover_beforeCommit S3).
      * exfalso. now apply (X3 c).
    + rewrite (bind_run_ret _ _ _ _ _ _ (console_log_run _ w1)) in G.
      rewrite prepend_prepend in G.
      rewrite Hdir in G.
      eapply (flow_end_shape _ _ _ [] w w1); cycle 3.
      * rewrite app_nil_r. exact G.
      * rewrite !forallb_app, B1. reflexivity.
      * reflexivity.
      * intros t msg [].
  - eapply (flow_early_failure _ _ e1).
    + now rewrite (forallb_weaken _ _ _ remover_beforeCommit S1).
    + unfold cleanup. now rewrite (bind_run_throw _ _ _ _ _ _ E1).
  - exfalso. now apply (X1 c).
Qed.

(** For a valid event of a monitored repository whose full name and
    action convert to text, the invocation is one log line followed by the
    flow the router picks, run on the constants of the event: what is
    proved below of a flow holds of the invocation that runs it. *)
Lemma router_dispatch (payload : Js.value num) (w : world ext) :
  Js.valid payload = true ->
  Js.renders (Js.prop (Js.prop payload "repository") "full_name") = true ->
  Js.renders (Js.prop payload "action") = true ->
  Js.includedIn (Js.prop (Js.prop payload "repository") "name")
    (monitoredRepositories cfg) = true ->
  main cfg env payload w
  = prepend
      [Log ("Processing PR #"
            ++ Js.text (Js.prop (Js.prop payload "pull_request") "number")
            ++ " from "
            ++ Js.text (Js.prop (Js.prop payload "repository") "full_name")
            ++ " (action: " ++ Js.text (Js.prop payload "action") ++ ")")]
      (route env (globalsOf cfg payload) w).
Proof.
  intros Hv Hfull Hact Hin. unfold Js.valid in Hv.
  repeat rewrite andb_true_iff in Hv.
  destruct Hv as [[Hwf Hname] Hnumber]. unfold Js.wellFormed in Hwf.
  repeat rewrite andb_true_iff in Hwf.
  destruct Hwf as [[[[Ha Hr] Hp] Hh] Ho].
  rewrite negb_true_iff in Hh, Ho.
  pose proof (required_fields_payload payload _ Ha) as Hn.
  pose proof (truthy_not_nullish _ Hr) as Hr'.
  pose proof (truthy_not_nullish _ Hp) as Hp'.
  unfold main.
  do 4 read_field Hn.
  rewrite Ha, Hr, Hp. cbn [negb orb].
  read_field Hr'. read_field Hp'. read_field Hp'. read_field Hh.
  read_field Hr'. read_field Hr'. read_field Ho.
  render_field Hname. render_field Hnumber.
  cbv zeta. rewrite Hin. cbn [negb].
  render_field Hnumber. render_field Hfull. render_field Hact.
  rewrite (bind_run_ret _ _ _ _ _ _ (console_log_run _ w)).
  reflexivity.
Qed.

(** *** Consequences of the shape of a flow *)

Lemma in_class (P : event -> bool) l e :
  forallb P l = true -> In e l -> P e = true.
Proof. intros Hl Hin. rewrite forallb_forall in Hl. auto. Qed.

Lemma none_in_class (P Q : event -> bool) l :
  forallb P l = true -> (forall e, P e = true -> Q e = false) ->
  existsb Q l = false.
Proof.
  intros Hl HPQ. induction l as [| e l IH]; [reflexivity |].
  cbn in *. apply andb_true_iff in Hl as [He Hl].
  now rewrite (HPQ e He), (IH Hl).
Qed.

Lemma beforeCommit_not_push e : beforeCommit e = true -> isPush e = false.
Proof. destruct e as [| | | | | [] ? | | | | |]; cbn; congruence. Qed.

Lemma beforeCommit_not_commit e : beforeCommit e = true -> isCommit e = false.
Proof. destruct e as [| | | | | [] ? | | | | |]; cbn; congruence. Qed.


(** *** The Remover when the preview folder is absent *)

Lemma enterPreview_events (g : globals num) (w : world ext) e1 w1 previewDir :
  enterPreview env g w = Run e1 w1 (Ret previewDir) ->
  e1 = [ Log ("Cloning preview repository " ++ previewRepoOwner g ++ "/"
              ++ previewRepoName g ++ "...");
         Exec (ClonePreview (previewToken env) (previewRepoOwner g)
                 (previewRepoName g) previewDir) None;
         Chdir previewDir true ].
Proof.
  unfold enterPreview.
  rewrite (bind_run_ret _ _ _ _ _ _ (now_run w)). cbv beta zeta.
  rewrite (bind_run_ret _ _ _ _ _ _ (console_log_run _ _)).
  unfold bind, after, execSync, chdir, prepend. cbn [result final events].
  destruct (failure _ _); cbn [result final events]; [discriminate |].
  destruct (Fs.isDir _); cbn; [| discriminate].
  intros E. injection E as <- _ <-. reflexivity.
Qed.

Lemma tame_removal g targetPath dirs :
  tame (ext:=ext) afterProbe
    (removePreview (num:=num) g targetPath ;; removeScratch dirs).
Proof.
  unfold removePreview, deleteAndStage, commitRemoval, removeScratch.
  tame_tac.
  apply (tame_weaken commitEvent); [| apply tame_toleratingNoChanges].
  intros ev Hev. unfold afterProbe. rewrite Hev. now rewrite orb_true_r.
Qed.

(** C8 (amended): in a cleanup-flow run whose probe of the preview folder
    finds nothing, the Remover deletes, stages, commits and pushes
    nothing: the trace is the clone of the preview repository, the probe,
    one log line and the removal of the scratch directory, followed by the
    report of the error when that removal fails; the process exits with
    code 0 when the removal succeeds and with code 1 when it fails. *)
Theorem absent_preview_is_noop (g : globals num) (w : world ext) (p : string) :
  let r := ending (handleCleanup env g w) in
  In (Exists p false) (trace r) ->
  exists previewDir fl,
    [previewDir] = cleanupScratch w
    /\ p = Path.join [previewDir; previewPath g]
    /\ (fl = None \/ fl = Some (commandFailed (RemoveScratch [previewDir])))
    /\ trace r
       = List.app
           [ Log ("Cloning preview repository " ++ previewRepoOwner g ++ "/"
                  ++ previewRepoName g ++ "...");
             Exec (ClonePreview (previewToken env) (previewRepoOwner g)
                     (previewRepoName g) previewDir) None;
             Chdir previewDir true;
             Exists p false;
             Log ("Preview folder " ++ previewPath g
                  ++ " does not exist. Nothing to clean up.");
             Chdir "/" true;
             Exec (RemoveScratch [previewDir]) fl ]
           match fl with
           | None => []
           | Some m => [ErrorWith "Error during cleanup:" (Exn m)]
           end
    /\ exitCode r = match fl with
                    | None => 0%Z
                    | Some _ => 1%Z
                    end.
Proof.
  intros r. subst r. unfold handleCleanup.
  destruct (enterPreview env g w) as [e1 w1 [previewDir | ex | c]] eqn:E1;
    destruct (tame_run _ _ _ _ _ _ (tame_enterPreview g) E1) as [S1 X1].
  - pose proof (enterPreview_dir g w) as Hdir.
    rewrite E1 in Hdir. specialize (Hdir previewDir eq_refl).
    pose proof (enterPreview_events g w _ _ _ E1) as He1.
    assert (G : cleanup env g w
                = prepend e1
                    (bind (existsSync (Path.join [previewDir; previewPath g]))
                       (fun present : bool =>
                          (if present
                           then removePreview g (Path.join [previewDir; previewPath g])
                           else console_log ("Preview folder " ++ previewPath g
                                   ++ " does not exist. Nothing to clean up.")) ;;
                          removeScratch [previewDir]) w1)).
    { unfold cleanup. now rewrite (bind_run_ret _ _ _ _ _ _ E1). }
    rewrite (bind_run_ret _ _ _ _ _ _ (existsSync_run _ w1)) in G.
    cbv beta in G. rewrite prepend_prepend in G.
    destruct (found (Path.join [previewDir; previewPath g]) w1) eqn:Hf.
    + (* the folder exists: no probe answers false *)
      intros Hin. exfalso.
      destruct ((removePreview g (Path.join [previewDir; previewPath g]) ;;
                 removeScratch [previewDir]) w1) as [e3 w3 res3] eqn:E3.
      destruct (tame_run _ _ _ _ _ _ (tame_removal g _ [previewDir]) E3)
        as [S3 X3].
      unfold prepend in G. cbn [events final result] in G.
      assert (Hnot : ~ In (Exists p false)
                        (List.app (List.app e1 [Exists (Path.join [previewDir; previewPath g]) true]) e3)).
      { intros Hin'. apply in_app_or in Hin' as [Hin' | Hin'].
        - apply in_app_or in Hin' as [Hin' | [Hin' | []]].
          + pose proof (in_class _ _ _ S1 Hin') as Hc. discriminate Hc.
          + discriminate Hin'.
        - pose proof (in_class _ _ _ S3 Hin') as Hc. discriminate Hc. }
      apply Hnot. revert Hin. unfold ending.
      destruct res3 as [[] | x | c].
      * rewrite (tryCatch_run_ret _ _ _ _ _ _ G). cbn. auto.
      * rewrite (tryCatch_run_throw _ _ _ _ _ _ G). cbn.
        intros Hin. apply in_app_or in Hin as [Hin | [Hin | []]];
          [exact Hin | discriminate Hin].
      * exfalso. now apply (X3 c).
    + rewrite (bind_run_ret _ _ _ _ _ _ (console_log_run _ w1)) in G.
      rewrite removeScratch_run in G. cbv zeta in G.
      unfold prepend in G. cbn [events final result] in G.
      assert (Hfl : failure (RemoveScratch [previewDir])
                      (World (files w1) "/" (outside w1)) = None
                    \/ failure (RemoveScratch [previewDir])
                         (World (files w1) "/" (outside w1))
                       = Some (commandFailed (RemoveScratch [previewDir]))).
      { unfold failure. destruct (fst (fst _)); auto. }
      destruct (failure (RemoveScratch [previewDir])
                  (World (files w1) "/" (outside w1))) as [m |] eqn:Fr.
      * intros Hin. exists previewDir, (Some m).
        unfold ending. rewrite (tryCatch_run_throw _ _ _ _ _ _ G).
        cbn [trace exitCode result events prepend bind after
               console_error_with emit exit final List.app].
        assert (Hp : p = Path.join [previewDir; previewPath g]).
        { revert Hin. unfold ending.
          rewrite (tryCatch_run_throw _ _ _ _ _ _ G).
          cbn [trace exitCode result events prepend bind after
                 console_error_with emit exit final List.app].
          subst e1. cbn. intuition congruence. }
        subst p e1. repeat split; try assumption.
      * intros Hin. exists previewDir, None.
        unfold ending. rewrite (tryCatch_run_ret _ _ _ _ _ _ G).
        cbn [trace exitCode result events] in *.
        assert (Hp : p = Path.join [previewDir; previewPath g]).
        { revert Hin. unfold ending.
          rewrite (tryCatch_run_ret _ _ _ _ _ _ G). cbn [trace result events].
          subst e1. cbn. intuition congruence. }
        subst p e1. repeat split; try assumption.
  - intros Hin. exfalso. revert Hin. unfold ending.
    rewrite (tryCatch_run_throw _ _ _ e1 w1 ex)
      by (unfold cleanup; now rewrite (bind_run_throw _ _ _ _ _ _ E1)).
    cbn. intros Hin. apply in_app_or in Hin as [Hin | [Hin | []]].
    + pose proof (in_class _ _ _ S1 Hin) as Hc. discriminate Hc.
    + discriminate Hin.
  - exfalso. now apply (X1 c).
Qed.

(** *** Build Discovery *)

Lemma buildLoop_command_failure script rest (w : world ext) m :
  commandStyle script = true ->
  failure (BuildCommand script) w = Some m ->
  buildLoop (script :: rest) w
  = prepend [Log ("Trying: " ++ script); Exec (BuildCommand script) (Some m)]
      (buildLoop rest (afterExec (BuildCommand script) w)).
Proof.
  intros Hcs Hf. cbn [buildLoop]. rewrite Hcs.
  unfold tryCatch, bind, after, execSync, console_log, emit.
  cbn [result final events]. rewrite Hf. reflexivity.
Qed.

Lemma buildLoop_command_success script rest (w : world ext) :
  commandStyle script = true ->
  failure (BuildCommand script) w = None ->
  result (buildLoop (script :: rest) w) = Ret true.
Proof.
  intros Hcs Hf. cbn [buildLoop]. rewrite Hcs.
  unfold tryCatch, bind, after, execSync, console_log, emit.
  cbn [result final events]. rewrite Hf. reflexivity.
Qed.

(** Build Discovery throws only when a script that exists fails. *)
Lemma buildLoop_throws scripts (w : world ext) e :
  result (buildLoop scripts w) = Throw e ->
  exists s m, In (Exec (BuildScript s) (Some m)) (events (buildLoop scripts w)).
Proof.
  revert w. induction scripts as [| script rest IH]; intros w Hres.
  - discriminate Hres.
  - destruct (commandStyle script) eqn:Hcs.
    + destruct (failure (BuildCommand script) w) as [m |] eqn:Hf.
      * rewrite (buildLoop_command_failure script rest w m Hcs Hf) in *.
        destruct (IH _ Hres) as (s & m' & Hin).
        exists s, m'. cbn. auto.
      * rewrite (buildLoop_command_success script rest w Hcs Hf) in Hres.
        discriminate.
    + revert Hres. cbn [buildLoop]. rewrite Hcs.
      rewrite (bind_run_ret _ _ _ _ _ _ (existsSync_run script w)).
      destruct (found script w).
      * unfold bind, after, execSync, console_log, emit, prepend.
        cbn [result final events].
        destruct (failure (BuildScript script) w) as [m |]; cbn;
          [| discriminate].
        intros _. exists script, m. auto.
      * unfold prepend. cbn [result events final]. intros Hres.
        destruct (IH _ Hres) as (s & m' & Hin).
        exists s, m'. cbn. auto.
Qed.

Lemma execSync_bind_fail {B} c (k : unit -> M ext B) (w : world ext) m :
  failure c w = Some m ->
  bind (execSync c) k w = Run [Exec c (Some m)] (afterExec c w) (Throw (Exn m)).
Proof.
  intros Hf. unfold bind, after, execSync. cbn [result final events].
  now rewrite Hf.
Qed.

Lemma execSync_bind_ok {B} c (k : unit -> M ext B) (w : world ext) :
  failure c w = None ->
  bind (execSync c) k w = prepend [Exec c None] (k tt (afterExec c w)).
Proof.
  intros Hf. unfold bind, after, execSync. cbn [result final events].
  now rewrite Hf.
Qed.

Lemma chdir_events d (w : world ext) :
  exists b, events (chdir d w) = [Chdir d b].
Proof. unfold chdir. destruct (Fs.isDir _); eexists; reflexivity. Qed.

(** Once the checkout has succeeded, the first two steps of the
    generation flow return unless a script that exists fails. *)
Lemma checkoutAndBuild_returns (g : globals num) (w : world ext) x :
  In (Exec (Checkout x) None) (events (checkoutAndBuild g w)) ->
  (forall s m,
     ~ In (Exec (BuildScript s) (Some m)) (events (checkoutAndBuild g w))) ->
  exists dirs, result (checkoutAndBuild g w) = Ret dirs.
Proof.
  unfold checkoutAndBuild.
  rewrite (bind_run_ret _ _ _ _ _ _ (now_run w)). cbv beta zeta.
  rewrite (bind_run_ret _ _ _ _ _ _ (now_run _)). cbv beta zeta.
  destruct (Js.renders (repoFullName g)) eqn:Hfull;
    [ rewrite !(toString_renders _ Hfull)
    | rewrite !(toString_throws _ Hfull); cbn; intros Hin; exfalso;
      intuition discriminate ].
  destruct (Js.renders (commitSha g)) eqn:Hsha;
    [ rewrite !(toString_renders _ Hsha)
    | rewrite !(toString_throws _ Hsha); cbn; intros Hin; exfalso;
      intuition discriminate ].
  cbn [lift]. rewrite !bind_ret. cbv beta.
  rewrite (bind_run_ret _ _ _ _ _ _ (console_log_run _ _)).
  rewrite !prepend_prepend. rewrite bind_ret. cbv beta.
  match goal with
  | |- context [bind (execSync ?c) ?k ?w0] =>
      destruct (failure c w0) as [m |] eqn:Fclone;
      [ rewrite (execSync_bind_fail c k w0 m Fclone)
      | rewrite (execSync_bind_ok c k w0 Fclone) ]
  end.
  { cbn. intros Hin. exfalso. intuition discriminate. }
  rewrite !prepend_prepend.
  match goal with
  | |- context [bind (chdir ?d) ?k ?w0] =>
      destruct (chdir_events d w0) as [b Hb];
      destruct (chdir d w0) as [ec wc [[] | exc | cc]] eqn:Echdir;
      cbn [events] in Hb; subst ec;
      [ rewrite (bind_run_ret _ _ _ _ _ _ Echdir)
      | rewrite (bind_run_throw _ _ _ _ _ _ Echdir)
      | rewrite (bind_run_exit _ _ _ _ _ _ Echdir) ]
  end.
  2,3: cbn; intros Hin; exfalso; intuition discriminate.
  rewrite !prepend_prepend. rewrite bind_ret. cbv beta.
  match goal with
  | |- context [bind (execSync ?c) ?k ?w0] =>
      destruct (failure c w0) as [m |] eqn:Fco;
      [ rewrite (execSync_bind_fail c k w0 m Fco)
      | rewrite (execSync_bind_ok c k w0 Fco) ]
  end.
  { cbn. intros Hin. exfalso. intuition discriminate. }
  rewrite (bind_run_ret _ _ _ _ _ _ (console_log_run _ _)).
  rewrite !prepend_prepend.
  match goal with
  | |- context [bind (buildLoop buildScripts) ?k ?w0] =>
      pose proof (buildLoop_throws buildScripts w0) as Hthrow;
      destruct (buildLoop buildScripts w0) as [eb wb [built | exb | cb]] eqn:Eb;
      [ rewrite (bind_run_ret _ _ _ _ _ _ Eb)
      | rewrite (bind_run_throw _ _ _ _ _ _ Eb)
      | rewrite (bind_run_exit _ _ _ _ _ _ Eb) ];
      pose proof (tame_run _ _ _ _ _ _ (tame_buildLoop buildScripts) Eb)
        as [_ Xb]
  end.
  - intros _ _.
    destruct built; unfold prepend, bind, after, console_warn, emit, ret; cbn;
      eauto.
  - intros _ Hno. exfalso.
    destruct (Hthrow exb eq_refl) as (s & m & Hin).
    apply (Hno s m). cbn [prepend events result final].
    apply in_or_app; now right.
  - exfalso. now apply (Xb cb).
Qed.

Lemma buildLoop_script_failure script rest (w : world ext) m :
  commandStyle script = false ->
  found script w = true ->
  failure (BuildScript script) w = Some m ->
  buildLoop (script :: rest) w
  = Run [ Exists script true; Log ("Executing: " ++ script);
          Exec (BuildScript script) (Some m) ]
      (afterExec (BuildScript script) w) (Throw (Exn m)).
Proof.
  intros Hcs Hf Hx. cbn [buildLoop]. rewrite Hcs.
  rewrite (bind_run_ret _ _ _ _ _ _ (existsSync_run script w)). rewrite Hf.
  rewrite (bind_run_ret _ _ _ _ _ _ (console_log_run _ w)).
  rewrite (execSync_bind_fail _ _ _ _ Hx). reflexivity.
Qed.

(** C1 (amended): a command-style candidate whose execution fails is
    recovered locally, Build Discovery continues with the next candidate;
    a script-path candidate that exists and whose execution fails makes
    Build Discovery throw, the candidates after it are not tried; and in
    every run of the generation flow in which the checkout succeeded and
    no script-path candidate failed, whatever the number of command-style
    candidates that failed, the flow proceeds to the Artifact Locator (its
    first probe, of [dist], takes place). *)
Theorem command_failures_are_recovered :
  (forall script rest (w : world ext) m,
     commandStyle script = true ->
     failure (BuildCommand script) w = Some m ->
     buildLoop (script :: rest) w
     = prepend [Log ("Trying: " ++ script); Exec (BuildCommand script) (Some m)]
         (buildLoop rest (afterExec (BuildCommand script) w)))
  /\ (forall script rest (w : world ext) m,
        commandStyle script = false ->
        found script w = true ->
        failure (BuildScript script) w = Some m ->
        buildLoop (script :: rest) w
        = Run [ Exists script true; Log ("Executing: " ++ script);
                Exec (BuildScript script) (Some m) ]
            (afterExec (BuildScript script) w) (Throw (Exn m)))
  /\ (forall (g : globals num) (w : world ext) x,
        let r := ending (handlePreviewGeneration env g w) in
        In (Exec (Checkout x) None) (trace r) ->
        (forall s m, ~ In (Exec (BuildScript s) (Some m)) (trace r)) ->
        exists b, In (Exists "dist" b) (trace r)).
Proof.
  split; [exact buildLoop_command_failure |].
  split; [exact buildLoop_script_failure |].
  intros g w x r Hco Hno. subst r.
  assert (Htrace : forall ev,
            In ev (events (handlePreviewGeneration env g w)) ->
            In ev (trace (ending (handlePreviewGeneration env g w)))).
  { intros ev Hin. unfold ending.
    destruct (result (handlePreviewGeneration env g w)); cbn; try exact Hin.
    apply in_or_app; now left. }
  destruct (checkoutAndBuild g w) as [e1 w1 [dirs | ex | c]] eqn:E1;
    destruct (tame_run _ _ _ _ _ _ (tame_checkoutAndBuild g) E1) as [S1 X1].
  - exists (found "dist" w1). apply Htrace, in_tryCatch.
    unfold generation. eapply in_bind_r; [now rewrite E1 |].
    rewrite E1. cbn [final]. apply in_bind_l.
    cbn [htmlDirs locate]. apply in_bind_l. cbn. auto.
  - exfalso.
    assert (G : handlePreviewGeneration env g w
                = Run (List.app e1 [ErrorWith "Error generating preview:" ex])
                    w1 (Exit 1%Z)).
    { unfold handlePreviewGeneration.
      rewrite (tryCatch_run_throw _ _ _ e1 w1 ex)
        by (unfold generation; now rewrite (bind_run_throw _ _ _ _ _ _ E1)).
      reflexivity. }
    rewrite G in Hco, Hno. unfold ending in Hco, Hno.
    cbn [result trace] in Hco, Hno.
    destruct (checkoutAndBuild_returns g w x) as [dirs Hd].
    + rewrite E1. cbn [events].
      apply in_app_or in Hco as [Hco | [Hco | []]];
        [exact Hco | discriminate Hco].
    + intros s m Hin. apply (Hno s m). rewrite E1 in Hin.
      apply in_or_app; now left.
    + rewrite E1 in Hd. discriminate Hd.
  - exfalso. now apply (X1 c).
Qed.

(** *** More of the top level: the intake and the router *)

(** X1: a required field that is there but falsy (an empty [action],
    [null], [false], [0]) is refused like a missing one: the one line
    "Missing required event payload fields" on the error stream, exit
    code 1, the world left as it was. *)
Theorem falsy_field_is_rejected (payload : Js.value num) (w : world ext) :
  Js.nullish payload = false ->
  Js.truthy (Js.prop payload "action")
  && Js.truthy (Js.prop payload "repository")
  && Js.truthy (Js.prop payload "pull_request") = false ->
  let r := invoke cfg env payload w in
  trace r = [Error "Missing required event payload fields"]
  /\ exitCode r = 1%Z /\ endWorld r = w.
Proof.
  intros Hn Hf r. subst r. unfold invoke, main.
  do 4 read_field Hn.
  assert (Hcond : negb (Js.truthy (Js.prop payload "action"))
                  || negb (Js.truthy (Js.prop payload "repository"))
                  || negb (Js.truthy (Js.prop payload "pull_request")) = true).
  { destruct (Js.truthy (Js.prop payload "action")),
      (Js.truthy (Js.prop payload "repository")),
      (Js.truthy (Js.prop payload "pull_request")); cbn in *; congruence. }
  rewrite Hcond. cbn. repeat split.
Qed.

(** X2: when the three required fields and [pull_request.head] are there
    and [repository.owner] is missing ([undefined] or [null]), reading
    [repository.owner.login] throws before the repository filter and the
    router run, though the login is never used afterwards: exit code 1,
    the report of the uncaught exception is the only event, the world is
    left as it was. *)
Theorem missing_owner_throws_before_filter (payload : Js.value num)
    (w : world ext) :
  Js.truthy (Js.prop payload "action") = true ->
  Js.truthy (Js.prop payload "repository") = true ->
  Js.truthy (Js.prop payload "pull_request") = true ->
  Js.nullish (Js.prop (Js.prop payload "pull_request") "head") = false ->
  Js.nullish (Js.prop (Js.prop payload "repository") "owner") = true ->
  let r := invoke cfg env payload w in
  exitCode r = 1%Z /\ endWorld r = w
  /\ exists e, trace r = [Uncaught e].
Proof.
  intros Ha Hr Hp Hh Ho r. subst r.
  pose proof (required_fields_payload payload _ Ha) as Hn.
  pose proof (truthy_not_nullish _ Hr) as Hr'.
  pose proof (truthy_not_nullish _ Hp) as Hp'.
  unfold invoke, main.
  do 4 read_field Hn.
  rewrite Ha, Hr, Hp. cbn [negb orb].
  read_field Hr'. read_field Hp'. read_field Hp'. read_field Hh.
  read_field Hr'. read_field Hr'.
  destruct (Js.prop (Js.prop payload "repository") "owner");
    try discriminate Ho; cbn; repeat split; eexists; reflexivity.
Qed.

Lemma ending_prepend evs (r : run ext unit) :
  ending (prepend evs r)
  = Report (List.app evs (trace (ending r))) (endWorld (ending r))
      (exitCode (ending r)).
Proof.
  unfold ending, prepend. cbn [result events final].
  destruct (result r); cbn [trace endWorld exitCode]; try reflexivity.
  now rewrite app_assoc.
Qed.

(** X3: for a valid event of a monitored repository whose full name and
    action convert to text and whose action is none of [opened],
    [synchronize], [closed], [merged] (any other string, or a value that
    is not a string), the invocation logs the "Processing" line and the
    "not handled" line and ends with exit code 0; no flow runs and the
    world is left as it was. *)
Theorem unhandled_action_is_skipped (payload : Js.value num) (w : world ext) :
  Js.valid payload = true ->
  Js.renders (Js.prop (Js.prop payload "repository") "full_name") = true ->
  Js.renders (Js.prop payload "action") = true ->
  Js.includedIn (Js.prop (Js.prop payload "repository") "name")
    (monitoredRepositories cfg) = true ->
  Js.isString (Js.prop payload "action") "opened"
  || Js.isString (Js.prop payload "action") "synchronize"
  || Js.isString (Js.prop payload "action") "closed"
  || Js.isString (Js.prop payload "action") "merged" = false ->
  let r := invoke cfg env payload w in
  exitCode r = 0%Z /\ endWorld r = w
  /\ trace r
     = [ Log ("Processing PR #"
              ++ Js.text (Js.prop (Js.prop payload "pull_request") "number")
              ++ " from "
              ++ Js.text (Js.prop (Js.prop payload "repository") "full_name")
              ++ " (action: " ++ Js.text (Js.prop payload "action") ++ ")");
         Log ("Action " ++ Js.text (Js.prop payload "action")
              ++ " not handled. Skipping.") ].
Proof.
  intros Hv Hfull Hrender Hin Hact r. subst r. unfold invoke.
  rewrite (router_dispatch payload w Hv Hfull Hrender Hin), ending_prepend.
  unfold route, globalsOf. cbn [action].
  rewrite !orb_false_iff in Hact. destruct Hact as [[[H1 H2] H3] H4].
  rewrite H1, H2, H3, H4. cbn [orb]. render_field Hrender.
  cbn. repeat split.
Qed.

(** X4: for a valid event of a monitored repository whose full name
    converts to text, the invocation is the "Processing" line followed by
    one flow, with that flow's end world and exit code: the generation
    flow when the action is [opened] or [synchronize], the cleanup flow
    when it is [closed] or [merged]. *)
Theorem router_runs_the_flow_of_the_action (payload : Js.value num)
    (w : world ext) :
  Js.valid payload = true ->
  Js.renders (Js.prop (Js.prop payload "repository") "full_name") = true ->
  Js.includedIn (Js.prop (Js.prop payload "repository") "name")
    (monitoredRepositories cfg) = true ->
  let g := globalsOf cfg payload in
  let line :=
    Log ("Processing PR #"
         ++ Js.text (Js.prop (Js.prop payload "pull_request") "number")
         ++ " from "
         ++ Js.text (Js.prop (Js.prop payload "repository") "full_name")
         ++ " (action: " ++ Js.text (Js.prop payload "action") ++ ")") in
  let following (flow : report (ext:=ext)) :=
    Report (line :: trace flow) (endWorld flow) (exitCode flow) in
  (Js.isString (Js.prop payload "action") "opened"
   || Js.isString (Js.prop payload "action") "synchronize" = true ->
   invoke cfg env payload w
   = following (ending (handlePreviewGeneration env g w)))
  /\ (Js.isString (Js.prop payload "action") "closed"
      || Js.isString (Js.prop payload "action") "merged" = true ->
      invoke cfg env payload w = following (ending (handleCleanup env g w))).
Proof.
  intros Hv Hfull Hin g line following. subst g line following. unfold invoke.
  assert (Hrender : forall s s',
            Js.isString (Js.prop payload "action") s
            || Js.isString (Js.prop payload "action") s' = true ->
            Js.renders (Js.prop payload "action") = true).
  { intros s s' Hs.
    apply orb_true_iff in Hs as [Hs | Hs]; exact (isString_renders _ _ Hs). }
  split; intros Hact;
    rewrite (router_dispatch payload w Hv Hfull (Hrender _ _ Hact) Hin),
      ending_prepend;
    unfold route; cbn [action globalsOf]; clear Hrender.
  - rewrite Hact. reflexivity.
  - destruct (Js.prop payload "action") as [| | b | n | s | l | l];
      try discriminate Hact.
    cbn [Js.isString] in *.
    apply orb_true_iff in Hact as [Hs | Hs]; apply String.eqb_eq in Hs;
      subst s; reflexivity.
Qed.

(** X25: a repository name or a number without a conversion to text is
    fatal before the filter.  For an event with the three required
    fields, [pull_request.head] and [repository.owner], whose
    [repository.name] or [pull_request.number] has no conversion to text
    (an object with a key [toString], or an array that holds one), the
    computation of [previewPath] throws a [TypeError]: exit code 1, the
    report of the uncaught exception is the only event, the world is left
    as it was, whether or not the repository is monitored. *)
Theorem unconvertible_name_is_fatal (payload : Js.value num) (w : world ext) :
  Js.wellFormed payload = true ->
  Js.renders (Js.prop (Js.prop payload "repository") "name")
  && Js.renders (Js.prop (Js.prop payload "pull_request") "number") = false ->
  let r := invoke cfg env payload w in
  exitCode r = 1%Z /\ endWorld r = w
  /\ trace r = [Uncaught (Exn "Cannot convert object to primitive value")].
Proof.
  intros Hwf Hno r. subst r. unfold Js.wellFormed in Hwf.
  repeat rewrite andb_true_iff in Hwf.
  destruct Hwf as [[[[Ha Hr] Hp] Hh] Ho].
  rewrite negb_true_iff in Hh, Ho.
  pose proof (required_fields_payload payload _ Ha) as Hn.
  pose proof (truthy_not_nullish _ Hr) as Hr'.
  pose proof (truthy_not_nullish _ Hp) as Hp'.
  unfold invoke, main.
  do 4 read_field Hn.
  rewrite Ha, Hr, Hp. cbn [negb orb].
  read_field Hr'. read_field Hp'. read_field Hp'. read_field Hh.
  read_field Hr'. read_field Hr'. read_field Ho.
  destruct (Js.renders (Js.prop (Js.prop payload "repository") "name"))
    eqn:Hname.
  - render_field Hname. cbn [andb] in Hno.
    rewrite (toString_throws _ Hno). cbn. repeat split.
  - rewrite (toString_throws _ Hname). cbn. repeat split.
Qed.

(** X26: a full name or an action without a conversion to text is fatal
    before the router.  For a valid event of a monitored repository whose
    [repository.full_name] or [action] has no conversion to text, the
    "Processing" line is never logged and no flow runs: the template
    literal throws a [TypeError], the process exits with code 1, the
    report of the uncaught exception is the only event and the world is
    left as it was. *)
Theorem unconvertible_action_is_fatal (payload : Js.value num) (w : world ext) :
  Js.valid payload = true ->
  Js.includedIn (Js.prop (Js.prop payload "repository") "name")
    (monitoredRepositories cfg) = true ->
  Js.renders (Js.prop (Js.prop payload "repository") "full_name")
  && Js.renders (Js.prop payload "action") = false ->
  let r := invoke cfg env payload w in
  exitCode r = 1%Z /\ endWorld r = w
  /\ trace r = [Uncaught (Exn "Cannot convert object to primitive value")].
Proof.
  intros Hv Hin Hno r. subst r. unfold Js.valid in Hv.
  repeat rewrite andb_true_iff in Hv.
  destruct Hv as [[Hwf Hname] Hnumber]. unfold Js.wellFormed in Hwf.
  repeat rewrite andb_true_iff in Hwf.
  destruct Hwf as [[[[Ha Hr] Hp] Hh] Ho].
  rewrite negb_true_iff in Hh, Ho.
  pose proof (required_fields_payload payload _ Ha) as Hn.
  pose proof (truthy_not_nullish _ Hr) as Hr'.
  pose proof (truthy_not_nullish _ Hp) as Hp'.
  unfold invoke, main.
  do 4 read_field Hn.
  rewrite Ha, Hr, Hp. cbn [negb orb].
  read_field Hr'. read_field Hp'. read_field Hp'. read_field Hh.
  read_field Hr'. read_field Hr'. read_field Ho.
  render_field Hname. render_field Hnumber.
  cbv zeta. rewrite Hin. cbn [negb]. render_field Hnumber.
  destruct (Js.renders (Js.prop (Js.prop payload "repository") "full_name"))
    eqn:Hfull.
  - render_field Hfull. cbn [andb] in Hno.
    rewrite (toString_throws _ Hno). cbn. repeat split.
  - rewrite (toString_throws _ Hfull). cbn. repeat split.
Qed.

(** *** The exit code of an invocation *)

Lemma exits_ret {A} (a : A) : exitsWith01 (ext:=ext) (ret a).
Proof. intros w c Hc. discriminate Hc. Qed.

Lemma exits_lift {A} (x : exn + A) : exitsWith01 (ext:=ext) (lift x).
Proof. intros w c Hc. destruct x; discriminate Hc. Qed.

Lemma exits_exit {A} c :
  c = 0%Z \/ c = 1%Z -> exitsWith01 (ext:=ext) (A:=A) (exit c).
Proof. intros Hc w c' Hc'. cbn in Hc'. injection Hc' as <-. exact Hc. Qed.

Lemma exits_tame {A} P (m : M ext A) : tame P m -> exitsWith01 m.
Proof. intros Hm w c Hc. destruct (Hm w) as [_ X]. now contradiction (X c). Qed.

Lemma exits_bind {A B} (m : M ext A) (k : A -> M ext B) :
  exitsWith01 m -> (forall a, exitsWith01 (k a)) -> exitsWith01 (bind m k).
Proof.
  intros Hm Hk w c. unfold bind, after.
  destruct (result (m w)) as [a | e | c'] eqn:R; cbn.
  - apply Hk.
  - discriminate.
  - intros Hc. injection Hc as <-. now apply (Hm w).
Qed.

Lemma exits_tryCatch {A} (m : M ext A) (h : exn -> M ext A) :
  exitsWith01 m -> (forall e, exitsWith01 (h e)) -> exitsWith01 (tryCatch m h).
Proof.
  intros Hm Hh w c. unfold tryCatch.
  destruct (result (m w)) as [a | e | c'] eqn:R; cbn.
  - rewrite R. discriminate.
  - apply Hh.
  - rewrite R. intros Hc. injection Hc as <-. now apply (Hm w).
Qed.

Lemma tame_commitAndPush (g : globals num) :
  tame (ext:=ext) commitEvent (commitAndPush g).
Proof.
  intros w. rewrite commitAndPush_step. apply tame_commitStep.
Qed.

Lemma tame_commitRemoval (g : globals num) :
  tame (ext:=ext) commitEvent (commitRemoval g).
Proof.
  intros w. rewrite commitRemoval_step. apply tame_commitStep.
Qed.

Lemma tame_removeScratch dirs :
  tame (ext:=ext) closingEvent (removeScratch dirs).
Proof. unfold removeScratch. tame_tac. Qed.

Ltac exits_step :=
  first
    [ apply exits_bind; [| intros ?]
    | apply exits_ret
    | apply exits_lift
    | apply exits_exit; auto
    | apply (exits_tame (fun _ => true)); tame_tac; fail
    | match goal with
      | |- exitsWith01 (if ?b then _ else _) => destruct b
      | |- exitsWith01 (let _ := _ in _) => cbv zeta
      end ].

Lemma exits_handlePreviewGeneration (g : globals num) :
  exitsWith01 (ext:=ext) (handlePreviewGeneration env g).
Proof.
  unfold handlePreviewGeneration. apply exits_tryCatch.
  - unfold generation.
    apply exits_bind; [exact (exits_tame _ _ (tame_checkoutAndBuild g)) |].
    intros dirs.
    apply exits_bind; [exact (exits_tame _ _ (tame_locate htmlDirs)) |].
    intros l. destruct (List.length l =? 0)%nat.
    + repeat exits_step.
    + unfold publish.
      apply exits_bind; [exact (exits_tame _ _ (tame_stage g _ _ _)) |].
      intros _.
      apply exits_bind; [exact (exits_tame _ _ (tame_commitAndPush g)) |].
      intros _. exact (exits_tame _ _ (tame_removeScratch _)).
  - intros e. repeat exits_step.
Qed.

Lemma exits_handleCleanup (g : globals num) :
  exitsWith01 (ext:=ext) (handleCleanup env g).
Proof.
  unfold handleCleanup. apply exits_tryCatch.
  - unfold cleanup.
    apply exits_bind; [exact (exits_tame _ _ (tame_enterPreview g)) |].
    intros previewDir. cbv zeta.
    apply exits_bind; [apply (exits_tame (fun _ => true)); tame_tac |].
    intros present.
    apply exits_bind; [| intros _; exact (exits_tame _ _ (tame_removeScratch _))].
    destruct present.
    + unfold removePreview.
      apply exits_bind; [exact (exits_tame _ _ (tame_deleteAndStage g _)) |].
      intros _. exact (exits_tame _ _ (tame_commitRemoval g)).
    + repeat exits_step.
  - intros e. repeat exits_step.
Qed.

(** X5: whatever the event payload, the configuration, the environment,
    the file system and the answers of the outside world, an invocation
    ends with exit code 0 or 1. *)
Theorem exit_code_is_0_or_1 (payload : Js.value num) (w : world ext) :
  exitCode (invoke cfg env payload w) = 0%Z
  \/ exitCode (invoke cfg env payload w) = 1%Z.
Proof.
  assert (Hmain : exitsWith01 (main cfg env payload)).
  { unfold main.
    do 4 (apply exits_bind; [apply exits_lift | intros ?]).
    match goal with
    | |- exitsWith01 (if ?b then _ else _) => destruct b
    end; [repeat exits_step |].
    do 9 (apply exits_bind; [apply exits_lift | intros ?]).
    cbv zeta.
    match goal with
    | |- exitsWith01 (if ?b then _ else _) => destruct b
    end; [repeat exits_step |].
    do 3 (apply exits_bind; [apply exits_lift | intros ?]).
    apply exits_bind; [repeat exits_step | intros _].
    repeat match goal with
           | |- exitsWith01 (if ?b then _ else _) => destruct b
           end.
    - apply exits_handlePreviewGeneration.
    - apply exits_handleCleanup.
    - repeat exits_step. }
  unfold invoke, ending.
  destruct (result (main cfg env payload w)) as [a | e | c] eqn:R;
    cbn [exitCode]; auto.
  exact (Hmain w c R).
Qed.

(** *** Failed commands that end the flow *)

Lemma strict_tame {A} (P : event -> bool) (m : M ext A) :
  (forall c msg, P (Exec c (Some msg)) = true -> recovered c msg = true) ->
  tame P m -> strict m.
Proof.
  intros HP Hm w c msg Hin Hrec. destruct (Hm w) as [Hev _].
  pose proof (in_class _ _ _ Hev Hin) as Hc.
  rewrite (HP c msg Hc) in Hrec. discriminate.
Qed.

Lemma strict_exit {A} c : strict (ext:=ext) (A:=A) (exit c).
Proof. intros w c' msg []. Qed.

Lemma strict_execSync c : strict (ext:=ext) (execSync c).
Proof.
  intros w c' msg Hin _ a. unfold execSync in *. cbn in *.
  destruct Hin as [Hin | []]. injection Hin as _ Hf. now rewrite Hf.
Qed.

Lemma strict_bind {A B} (m : M ext A) (k : A -> M ext B) :
  strict m -> (forall a, strict (k a)) -> strict (bind m k).
Proof.
  intros Hm Hk w c msg. unfold bind, after.
  destruct (result (m w)) as [a | e | c'] eqn:R; cbn; try discriminate.
  intros Hin Hrec. apply in_app_or in Hin as [Hin | Hin].
  - exfalso. apply (Hm w c msg Hin Hrec a R).
  - apply (Hk a _ c msg Hin Hrec).
Qed.

(** A [try] whose body fails only in ways the code recovers from. *)
Lemma strict_tryCatch {A} (m : M ext A) (h : exn -> M ext A) :
  (forall w c msg, In (Exec c (Some msg)) (events (m w)) ->
                   recovered c msg = true) ->
  (forall e, strict (h e)) -> strict (tryCatch m h).
Proof.
  intros Hm Hh w c msg. unfold tryCatch.
  destruct (result (m w)) as [a | e | c'] eqn:R; cbn.
  - intros Hin Hrec. rewrite (Hm w c msg Hin) in Hrec. discriminate.
  - intros Hin Hrec. apply in_app_or in Hin as [Hin | Hin].
    + rewrite (Hm w c msg Hin) in Hrec. discriminate.
    + apply (Hh e _ c msg Hin Hrec).
  - intros Hin Hrec. rewrite (Hm w c msg Hin) in Hrec. discriminate.
Qed.

Ltac strict_step :=
  first
    [ assumption
    | match goal with
      | |- strict (bind _ _) => apply strict_bind; [| intros ?]
      | |- strict (exit _) => apply strict_exit
      | |- strict (execSync _) => apply strict_execSync
      | |- strict (if ?b then _ else _) => destruct b
      | |- strict (let _ := _ in _) => cbv zeta
      | |- strict (buildLoop _) => fail 2
      | |- strict (locate _) => fail 2
      | |- strict (copyLoop _ _ _) => fail 2
      end
    | apply (strict_tame noExec); [intros ? ?; cbn; discriminate | tame_tac]; fail ].

Ltac strict_tac :=
  unfold console_log, console_warn, console_error, console_error_with;
  repeat strict_step.

Lemma strict_buildLoop scripts : strict (ext:=ext) (buildLoop scripts).
Proof.
  induction scripts as [| script rest IH]; cbn [buildLoop].
  - strict_tac.
  - destruct (commandStyle script).
    + apply strict_tryCatch; [| intros _; exact IH].
      intros w c msg. unfold bind, after, execSync, console_log, emit.
      cbn [result final events].
      destruct (failure (BuildCommand script) w); cbn;
        intros [Hin | [Hin | []]]; try discriminate Hin.
      now injection Hin as <- _.
    + strict_tac.
Qed.

Lemma strict_locate dirs : strict (ext:=ext) (locate dirs).
Proof. induction dirs as [| dir rest IH]; cbn [locate]; strict_tac. Qed.

Lemma strict_copyLoop tempDir targetDir htmlFiles :
  strict (ext:=ext) (copyLoop tempDir targetDir htmlFiles).
Proof.
  induction htmlFiles as [| file rest IH]; cbn [copyLoop]; strict_tac.
Qed.

Lemma strict_commitStep text done : strict (ext:=ext) (commitStep text done).
Proof.
  intros w c msg.
  unfold commitStep, tryCatch, bind, after, lift, toleratingNoChanges.
  destruct text as [e | t0]; cbn.
  - destruct (Str.includes "nothing to commit" (message e)); cbn;
      intros Hin; exfalso; intuition discriminate.
  - destruct (failure (Commit t0) w) as [m |] eqn:Fc; cbn.
    + destruct (Str.includes "nothing to commit" m) eqn:Hm; cbn.
      * intros [Hin | [Hin | []]] Hrec; [| discriminate Hin].
        injection Hin as <- <-. cbn in Hrec. congruence.
      * intros _ _ a. discriminate.
    + destruct (failure Push (afterExec (Commit t0) w)) as [m |] eqn:Fp; cbn.
      * destruct (Str.includes "nothing to commit" m) eqn:Hm; cbn.
        -- intros [Hin | [Hin | [Hin | []]]] Hrec; try discriminate Hin.
           injection Hin as <- <-. cbn in Hrec. congruence.
        -- intros _ _ a. discriminate.
      * intros Hin; exfalso; intuition discriminate.
Qed.

Lemma strict_pointwise {A} (m m' : M ext A) :
  (forall w, m w = m' w) -> strict m' -> strict m.
Proof. intros E Hm w. rewrite E. apply Hm. Qed.

Lemma strict_generation (g : globals num) : strict (ext:=ext) (generation env g).
Proof.
  unfold generation, checkoutAndBuild, publish, stage, removeScratch.
  strict_tac.
  - apply strict_buildLoop.
  - apply strict_locate.
  - apply strict_copyLoop.
  - apply (strict_pointwise _ _ (commitAndPush_step g)), strict_commitStep.
Qed.

Lemma strict_cleanup (g : globals num) : strict (ext:=ext) (cleanup env g).
Proof.
  unfold cleanup, enterPreview, removePreview, deleteAndStage, removeScratch.
  strict_tac.
  apply (strict_pointwise _ _ (commitRemoval_step g)), strict_commitStep.
Qed.

(** A flow returns normally only when the body of its [try] does, and adds
    nothing to what the body did. *)
Lemma flow_returns label (body : M ext unit) (w : world ext) a :
  result (tryCatch body
            (fun error => console_error_with label error ;; exit 1%Z) w) = Ret a ->
  result (body w) = Ret a
  /\ events (tryCatch body
               (fun error => console_error_with label error ;; exit 1%Z) w)
     = events (body w).
Proof.
  unfold tryCatch. destruct (result (body w)) as [x | e | c] eqn:R; cbn.
  - rewrite R. auto.
  - discriminate.
  - rewrite R. discriminate.
Qed.

Lemma shape_result label dirs (rn : run ext unit) :
  flowShape label dirs rn -> result rn = Ret tt \/ result rn = Exit 1%Z.
Proof.
  intros [pre committed e _ _ _ _ _ Hres | pre committed fl _ _ _ _ Hres];
    rewrite Hres; [| destruct fl]; auto.
Qed.

Lemma shape_trace label dirs (rn : run ext unit) :
  flowShape label dirs rn -> trace (ending rn) = events rn.
Proof.
  intros Hs. unfold ending.
  destruct (shape_result _ _ _ Hs) as [-> | ->]; reflexivity.
Qed.

Lemma shape_exit_code label dirs (rn : run ext unit) :
  flowShape label dirs rn ->
  (result rn = Ret tt /\ exitCode (ending rn) = 0%Z)
  \/ (result rn = Exit 1%Z /\ exitCode (ending rn) = 1%Z).
Proof.
  intros Hs. unfold ending.
  destruct (shape_result _ _ _ Hs) as [-> | ->]; auto.
Qed.

Lemma generation_try (g : globals num) (w : world ext) :
  handlePreviewGeneration env g w
  = tryCatch (generation env g)
      (fun error => console_error_with "Error generating preview:" error ;;
                    exit 1%Z) w.
Proof. reflexivity. Qed.

Lemma cleanup_try (g : globals num) (w : world ext) :
  handleCleanup env g w
  = tryCatch (cleanup env g)
      (fun error => console_error_with "Error during cleanup:" error ;;
                    exit 1%Z) w.
Proof. reflexivity. Qed.

Lemma strict_flow label dirs (body : M ext unit) (w : world ext) c msg :
  strict body ->
  flowShape label dirs
    (tryCatch body (fun error => console_error_with label error ;; exit 1%Z) w) ->
  In (Exec c (Some msg))
    (trace (ending (tryCatch body
                      (fun error => console_error_with label error ;; exit 1%Z)
                      w))) ->
  recovered c msg = false ->
  exitCode (ending (tryCatch body
                      (fun error => console_error_with label error ;; exit 1%Z)
                      w)) = 1%Z.
Proof.
  intros Hbody Hs Hin Hrec.
  rewrite (shape_trace _ _ _ Hs) in Hin.
  destruct (shape_exit_code _ _ _ Hs) as [[R _] | [_ Hc]]; [| exact Hc].
  exfalso.
  destruct (flow_returns label body w tt R) as [Rb Ev].
  rewrite Ev in Hin. exact (Hbody w c msg Hin Hrec tt Rb).
Qed.

(** X6: in both flows every failed command ends the process with exit
    code 1, the failures the code recovers from apart: a command-style
    build candidate, and a commit or push whose message includes "nothing
    to commit".  This holds of the clones, the checkout, a build script
    that exists, the staging, the deletion of the preview folder and the
    closing removal of the scratch directories alike. *)
Theorem unrecovered_failure_is_fatal (g : globals num) (w : world ext)
    (r : report (ext:=ext)) (c : command) (msg : string) :
  r = ending (handlePreviewGeneration env g w)
  \/ r = ending (handleCleanup env g w) ->
  In (Exec c (Some msg)) (trace r) ->
  recovered c msg = false ->
  exitCode r = 1%Z.
Proof.
  intros [-> | ->] Hin Hrec.
  - pose proof (generation_flow_shape g w) as Hs.
    rewrite generation_try in *.
    exact (strict_flow _ _ _ w c msg (strict_generation g) Hs Hin Hrec).
  - pose proof (cleanup_flow_shape g w) as Hs.
    rewrite cleanup_try in *.
    exact (strict_flow _ _ _ w c msg (strict_cleanup g) Hs Hin Hrec).
Qed.

(** *** Properties of the trace of every run *)

Section Traces.
Variable Q : list event -> bool.
Hypothesis Q_nil : Q [] = true.
Hypothesis Q_app :
  forall a b, Q a = true -> Q b = true -> Q (List.app a b) = true.

Lemma traces_silent {A} (m : M ext A) :
  (forall w, events (m w) = []) -> traces Q m.
Proof. intros Hm w. now rewrite Hm. Qed.

Lemma traces_bind {A B} (m : M ext A) (k : A -> M ext B) :
  traces Q m -> (forall a, traces Q (k a)) -> traces Q (bind m k).
Proof.
  intros Hm Hk w. unfold bind, after.
  destruct (result (m w)) as [a | e | c]; cbn; try apply Hm.
  apply Q_app; [apply Hm | apply Hk].
Qed.

Lemma traces_tryCatch {A} (m : M ext A) (h : exn -> M ext A) :
  traces Q m -> (forall e, traces Q (h e)) -> traces Q (tryCatch m h).
Proof.
  intros Hm Hh w. unfold tryCatch.
  destruct (result (m w)) as [a | e | c]; cbn; try apply Hm.
  apply Q_app; [apply Hm | apply Hh].
Qed.

Lemma traces_class {A} (P : event -> bool) (m : M ext A) :
  (forall l, forallb P l = true -> Q l = true) -> tame P m -> traces Q m.
Proof. intros HP Hm w. apply HP, Hm. Qed.

Lemma traces_pointwise {A} (m m' : M ext A) :
  (forall w, m w = m' w) -> traces Q m' -> traces Q m.
Proof. intros E Hm w. rewrite E. apply Hm. Qed.

Lemma traces_bind_ret {A B} (m : M ext A) (k : A -> M ext B)
    (R : A -> Prop) :
  traces Q m ->
  (forall w a, result (m w) = Ret a -> R a) ->
  (forall a, R a -> traces Q (k a)) ->
  traces Q (bind m k).
Proof.
  intros Hm HR Hk w. unfold bind, after.
  destruct (result (m w)) as [a | e | c] eqn:Rm; cbn; try apply Hm.
  apply Q_app; [apply Hm | apply (Hk a (HR w a Rm))].
Qed.

(** The two flows, from their parts. *)
Lemma traces_generation (g : globals num) :
  traces Q (checkoutAndBuild (ext:=ext) g) ->
  traces Q (locate (ext:=ext) htmlDirs) ->
  (forall t p l, traces Q (stage (ext:=ext) env g t p l)) ->
  traces Q (commitAndPush (ext:=ext) g) ->
  (forall dirs, traces Q (removeScratch (ext:=ext) dirs)) ->
  (forall line, Q [Error line] = true) ->
  (forall label x, Q [ErrorWith label x] = true) ->
  traces Q (handlePreviewGeneration (ext:=ext) env g).
Proof.
  intros H1 H2 H3 H4 H5 He Hw.
  unfold handlePreviewGeneration. apply traces_tryCatch.
  - unfold generation.
    apply traces_bind; [exact H1 | intros dirs].
    apply traces_bind; [exact H2 | intros l].
    destruct (List.length l =? 0)%nat.
    + apply traces_bind; [| intros _; now apply traces_silent].
      intros w. apply He.
    + unfold publish.
      apply traces_bind; [apply H3 | intros _].
      apply traces_bind; [exact H4 | intros _]. apply H5.
  - intros e. apply traces_bind; [| intros _; now apply traces_silent].
    intros w. apply Hw.
Qed.

Lemma traces_cleanup (g : globals num) :
  traces Q (enterPreview (ext:=ext) env g) ->
  (forall p b, Q [Exists p b] = true) ->
  (forall p, traces Q (deleteAndStage (ext:=ext) g p)) ->
  traces Q (commitRemoval (ext:=ext) g) ->
  (forall dirs, traces Q (removeScratch (ext:=ext) dirs)) ->
  Q [Log ("Preview folder " ++ previewPath g
          ++ " does not exist. Nothing to clean up.")] = true ->
  (forall label x, Q [ErrorWith label x] = true) ->
  traces Q (handleCleanup (ext:=ext) env g).
Proof.
  intros H1 Hx H3 H4 H5 Hl He.
  unfold handleCleanup. apply traces_tryCatch.
  - unfold cleanup.
    apply traces_bind; [exact H1 | intros previewDir]. cbv zeta.
    apply traces_bind; [intros w; apply Hx | intros present].
    apply traces_bind; [| intros _; apply H5].
    destruct present.
    + unfold removePreview.
      apply traces_bind; [apply H3 | intros _]. exact H4.
    + intros w. apply Hl.
  - intros e. apply traces_bind; [| intros _; now apply traces_silent].
    intros w. apply He.
Qed.

End Traces.

Lemma forallb_one (P : event -> bool) e : P e = true -> forallb P [e] = true.
Proof. intros Hp. cbn. now rewrite Hp. Qed.

Lemma forallb_append (P : event -> bool) a b :
  forallb P a = true -> forallb P b = true -> forallb P (List.app a b) = true.
Proof. intros Ha Hb. now rewrite forallb_app, Ha, Hb. Qed.

(** The events of the generation flow, from the classes of its parts. *)
Lemma generation_events (P : event -> bool) (g : globals num) :
  (forall e, sourceEvent e = true -> P e = true) ->
  (forall e, stageEvent e = true -> P e = true) ->
  traces (forallb P) (commitAndPush (ext:=ext) g) ->
  (forall e, closingEvent e = true -> P e = true) ->
  (forall line, P (Error line) = true) ->
  (forall label x, P (ErrorWith label x) = true) ->
  traces (forallb P) (handlePreviewGeneration (ext:=ext) env g).
Proof.
  intros Hs Ht Hc Hz He Hw.
  apply traces_generation; try exact (forallb_append P); try reflexivity.
  - apply (traces_class _ sourceEvent);
      [intros l0; apply forallb_weaken; exact Hs | apply tame_checkoutAndBuild].
  - apply (traces_class _ sourceEvent);
      [intros l0; apply forallb_weaken; exact Hs | apply tame_locate].
  - intros t p l. apply (traces_class _ stageEvent);
      [intros l0; apply forallb_weaken; exact Ht | apply tame_stage].
  - exact Hc.
  - intros dirs. apply (traces_class _ closingEvent);
      [intros l0; apply forallb_weaken; exact Hz | apply tame_removeScratch].
  - intros line. apply forallb_one, He.
  - intros label x. apply forallb_one, Hw.
Qed.

(** The events of the cleanup flow, from the classes of its parts. *)
Lemma cleanup_events (P : event -> bool) (g : globals num) :
  (forall e, removerEvent e = true -> P e = true) ->
  (forall p b, P (Exists p b) = true) ->
  (forall e, commitEvent e = true -> P e = true) ->
  (forall e, closingEvent e = true -> P e = true) ->
  (forall label x, P (ErrorWith label x) = true) ->
  traces (forallb P) (handleCleanup (ext:=ext) env g).
Proof.
  intros Hr Hx Hc Hz He.
  apply traces_cleanup; try exact (forallb_append P); try reflexivity.
  - apply (traces_class _ removerEvent);
      [intros l0; apply forallb_weaken; exact Hr | apply tame_enterPreview].
  - intros p b. apply forallb_one, Hx.
  - intros p. apply (traces_class _ removerEvent);
      [intros l0; apply forallb_weaken; exact Hr | apply tame_deleteAndStage].
  - apply (traces_class _ commitEvent);
      [intros l0; apply forallb_weaken; exact Hc | apply tame_commitRemoval].
  - intros dirs. apply (traces_class _ closingEvent);
      [intros l0; apply forallb_weaken; exact Hz | apply tame_removeScratch].
  - apply forallb_one, Hr. reflexivity.
  - intros label x. apply forallb_one, He.
Qed.

(** X7: the cleanup flow never touches the source of the pull request: in
    every run its events are log lines, the clone of the preview
    repository, changes of directory, the probe of the preview folder, its
    deletion, the staging with [git add -A], commit, push, the removal
    of the scratch directory and the report of a caught error; it never
    clones or checks out the source repository, runs no build command or
    script, walks no directory, makes no directory and copies no file. *)
Theorem cleanup_never_builds (g : globals num) (w : world ext) :
  forallb cleanupEvent (trace (ending (handleCleanup env g w))) = true.
Proof.
  rewrite (shape_trace _ _ _ (cleanup_flow_shape g w)).
  apply (cleanup_events cleanupEvent g); try reflexivity.
  - intros [| | | | | [] ? | | | | |]; cbn; congruence.
  - intros [| | | | | [] ? | | | | |]; cbn; congruence.
  - intros [| | | | | [] ? | | | | |]; cbn; congruence.
Qed.

(** *** The message of a failed command *)

Lemma prefix_before_char (n : string) (c : ascii) (s : string) :
  forallb (fun a => negb (Ascii.eqb a c)) (list_ascii_of_string n) = true ->
  String.prefix n (s ++ String c "") = String.prefix n s.
Proof.
  revert s. induction n as [| a n IH]; intros s Hn; [now destruct s |].
  cbn in Hn. apply andb_true_iff in Hn as [Ha Hn].
  apply negb_true_iff, Ascii.eqb_neq in Ha.
  destruct s as [| b s]; cbn.
  - destruct (ascii_dec a c); [contradiction | reflexivity].
  - destruct (ascii_dec a b); [apply IH, Hn | reflexivity].
Qed.

Lemma includes_before_char (n : string) (c : ascii) (s : string) :
  forallb (fun a => negb (Ascii.eqb a c)) (list_ascii_of_string n) = true ->
  Str.includes n (s ++ String c "") = Str.includes n s.
Proof.
  intros Hn. induction s as [| b s IH].
  - pose proof (prefix_before_char n c "" Hn) as Hp.
    cbn [append] in Hp. cbn [append Str.includes]. rewrite Hp.
    now destruct (String.prefix n "").
  - pose proof (prefix_before_char n c (String b s) Hn) as Hp.
    cbn [append] in Hp. cbn [append Str.includes]. now rewrite Hp, IH.
Qed.

(** The handler of a failed commit looks for "nothing to commit" in a
    message that holds the command line only: it finds it exactly when
    the text of the commit holds it. *)
Lemma includes_commit_failed (t : string) :
  Str.includes "nothing to commit" (commandFailed (Commit t))
  = Str.includes "nothing to commit" t.
Proof.
  unfold commandFailed, commandLine.
  change (Str.includes "nothing to commit"
            ("Command failed: " ++ "git commit -m " ++ dq ++ t ++ dq))
    with (Str.includes "nothing to commit" (t ++ dq)).
  unfold dq. now apply includes_before_char.
Qed.

Lemma tame_execSync_said c : tame (ext:=ext) nodeMessage (execSync c).
Proof.
  intros w; split.
  - unfold execSync, failure. cbn [events forallb].
    destruct (fst (fst (spawned c w))); cbn [nodeMessage];
      [rewrite String.eqb_refl |]; reflexivity.
  - cbn. destruct (failure c w); discriminate.
Qed.

Ltac said_tac :=
  unfold console_log, console_warn, console_error, console_error_with;
  repeat first [apply tame_execSync_said | apply tame_render | tame_step].

Lemma noExec_said e : noExec e = true -> nodeMessage e = true.
Proof. destruct e; cbn; congruence. Qed.

Lemma tame_locate_silent dirs : tame (ext:=ext) noExec (locate dirs).
Proof. induction dirs as [| dir rest IH]; cbn [locate]; tame_tac. Qed.

Lemma tame_copyLoop_silent tempDir targetDir htmlFiles :
  tame (ext:=ext) noExec (copyLoop tempDir targetDir htmlFiles).
Proof.
  induction htmlFiles as [| file rest IH]; cbn [copyLoop]; tame_tac.
Qed.

Lemma tame_buildLoop_said scripts :
  tame (ext:=ext) nodeMessage (buildLoop scripts).
Proof. induction scripts as [| script rest IH]; cbn [buildLoop]; said_tac. Qed.

Lemma tame_commitStep_said text done :
  tame (ext:=ext) nodeMessage (commitStep text done).
Proof. unfold commitStep, toleratingNoChanges. said_tac. Qed.

Lemma said_flows (g : globals num) :
  traces (forallb nodeMessage) (handlePreviewGeneration (ext:=ext) env g)
  /\ traces (forallb nodeMessage) (handleCleanup (ext:=ext) env g).
Proof.
  split.
  - apply traces_generation; try exact (forallb_append nodeMessage);
      try reflexivity.
    + apply (traces_class _ nodeMessage); [auto |].
      unfold checkoutAndBuild. said_tac.
    + apply (traces_class _ noExec); [| apply tame_locate_silent].
      intros l0. apply forallb_weaken, noExec_said.
    + intros t p l. apply (traces_class _ nodeMessage); [auto |].
      unfold stage. said_tac.
      apply (tame_weaken noExec); [apply noExec_said |].
      apply tame_copyLoop_silent.
    + apply (traces_class _ nodeMessage); [auto |].
      intros w. rewrite commitAndPush_step. apply tame_commitStep_said.
    + intros dirs. apply (traces_class _ nodeMessage); [auto |].
      unfold removeScratch. said_tac.
  - apply traces_cleanup; try exact (forallb_append nodeMessage);
      try reflexivity.
    + apply (traces_class _ nodeMessage); [auto |].
      unfold enterPreview. said_tac.
    + intros p. apply (traces_class _ nodeMessage); [auto |].
      unfold deleteAndStage. said_tac.
    + apply (traces_class _ nodeMessage); [auto |].
      intros w. rewrite commitRemoval_step. apply tame_commitStep_said.
    + intros dirs. apply (traces_class _ nodeMessage); [auto |].
      unfold removeScratch. said_tac.
Qed.

(** In both flows the message of a failed command is the one [execSync]
    builds from the command line. *)
Lemma flow_said (g : globals num) (w : world ext) (r : report (ext:=ext))
    (c : command) (msg : string) :
  r = ending (handlePreviewGeneration env g w)
  \/ r = ending (handleCleanup env g w) ->
  In (Exec c (Some msg)) (trace r) ->
  msg = commandFailed c.
Proof.
  intros Hflow Hin.
  assert (Hs : nodeMessage (Exec c (Some msg)) = true).
  { destruct (said_flows g) as [Hgen Hcl].
    destruct Hflow as [-> | ->].
    - rewrite (shape_trace _ _ _ (generation_flow_shape g w)) in Hin.
      exact (in_class _ _ _ (Hgen w) Hin).
    - rewrite (shape_trace _ _ _ (cleanup_flow_shape g w)) in Hin.
      exact (in_class _ _ _ (Hcl w) Hin). }
  cbn in Hs. now apply String.eqb_eq in Hs.
Qed.

(** A failed command that is not recovered ends a flow with exit
    code 1. *)
Lemma flow_strict (g : globals num) (w : world ext) (r : report (ext:=ext))
    (c : command) (msg : string) :
  r = ending (handlePreviewGeneration env g w)
  \/ r = ending (handleCleanup env g w) ->
  In (Exec c (Some msg)) (trace r) ->
  recovered c msg = false ->
  exitCode r = 1%Z.
Proof.
  intros [-> | ->] Hin Hrec.
  - pose proof (generation_flow_shape g w) as Hs.
    rewrite generation_try in *.
    exact (strict_flow _ _ _ w c msg (strict_generation g) Hs Hin Hrec).
  - pose proof (cleanup_flow_shape g w) as Hs.
    rewrite cleanup_try in *.
    exact (strict_flow _ _ _ w c msg (strict_cleanup g) Hs Hin Hrec).
Qed.

(** C3 (code bug): a commit that fails is not treated as success, whatever
    made it fail.  The error [execSync] throws for [git commit] carries
    the command line, not what the command printed: in every run of the
    Publisher or of the Remover in which the commit fails (as [git commit]
    does, with status 1, when there is nothing to commit), the message is
    [Command failed: git commit -m "<text>"]; unless the text of the
    commit itself holds "nothing to commit", the handler of the commit
    step does not find these words in it, throws the error again, and the
    process exits with code 1. *)
Theorem failed_commit_is_fatal (g : globals num) (w : world ext)
    (r : report (ext:=ext)) (t msg : string) :
  r = ending (handlePreviewGeneration env g w)
  \/ r = ending (handleCleanup env g w) ->
  In (Exec (Commit t) (Some msg)) (trace r) ->
  Str.includes "nothing to commit" t = false ->
  msg = "Command failed: git commit -m " ++ dq ++ t ++ dq
  /\ Str.includes "nothing to commit" msg = false
  /\ exitCode r = 1%Z.
Proof.
  intros Hflow Hin Ht.
  pose proof (flow_said g w r _ _ Hflow Hin) as Hmsg.
  assert (Hno : Str.includes "nothing to commit" msg = false)
    by (rewrite Hmsg, includes_commit_failed; exact Ht).
  split; [exact Hmsg |]. split; [exact Hno |].
  exact (flow_strict g w r _ _ Hflow Hin Hno).
Qed.

(** X20: a push that fails is fatal.  The message of its error is
    [Command failed: git push origin main], in which the handler of the
    commit step does not find "nothing to commit": the error is thrown
    again and, in both flows, the process exits with code 1. *)
Theorem failed_push_is_fatal (g : globals num) (w : world ext)
    (r : report (ext:=ext)) (msg : string) :
  r = ending (handlePreviewGeneration env g w)
  \/ r = ending (handleCleanup env g w) ->
  In (Exec Push (Some msg)) (trace r) ->
  msg = "Command failed: git push origin main" /\ exitCode r = 1%Z.
Proof.
  intros Hflow Hin.
  pose proof (flow_said g w r _ _ Hflow Hin) as Hmsg.
  split; [exact Hmsg |].
  apply (flow_strict g w r _ _ Hflow Hin). now rewrite Hmsg.
Qed.

(** *** What the generation flow touches *)

Ltac tame_exec :=
  apply tame_execSync; intros ?; cbn; rewrite ?String.eqb_refl; reflexivity.

Lemma tame_checkoutAndBuild_own (g : globals num) :
  tame (ext:=ext) (generationEvent g) (checkoutAndBuild g).
Proof.
  unfold checkoutAndBuild, console_log, console_warn.
  repeat first [apply tame_render | tame_step]; try tame_exec.
Qed.

Lemma tame_locate_own (g : globals num) dirs :
  tame (ext:=ext) (generationEvent g) (locate dirs).
Proof. induction dirs as [| dir rest IH]; cbn [locate]; tame_tac. Qed.

Lemma tame_copyLoop_own (g : globals num) tempDir targetDir htmlFiles :
  tame (ext:=ext) (generationEvent g) (copyLoop tempDir targetDir htmlFiles).
Proof.
  induction htmlFiles as [| file rest IH]; cbn [copyLoop]; tame_tac.
Qed.

Lemma tame_stage_own (g : globals num) tempDir previewDir htmlFiles :
  tame (ext:=ext) (generationEvent g)
    (stage env g tempDir previewDir htmlFiles).
Proof.
  unfold stage. tame_tac; try apply tame_copyLoop_own; try tame_exec.
Qed.

(** X8: the generation flow acts on its own pull request only: in every
    run, the source clone is of [repoFullName], the checkout is of
    [commitSha], the preview clone is of the configured preview
    repository, and the only staging is [git add] of [previewPath]; it
    never stages with [git add -A] and never deletes a preview folder. *)
Theorem generation_stages_its_own_path (g : globals num) (w : world ext) :
  forallb (generationEvent g) (trace (ending (handlePreviewGeneration env g w)))
  = true.
Proof.
  rewrite (shape_trace _ _ _ (generation_flow_shape g w)).
  apply traces_generation;
    try exact (forallb_append (generationEvent g)); try reflexivity.
  - apply (traces_class _ (generationEvent g)); [auto |].
    apply tame_checkoutAndBuild_own.
  - apply (traces_class _ (generationEvent g)); [auto |].
    apply tame_locate_own.
  - intros t p l. apply (traces_class _ (generationEvent g)); [auto |].
    apply tame_stage_own.
  - apply (traces_class _ commitEvent); [| apply tame_commitAndPush].
    intros l0. apply forallb_weaken.
    intros [| | | | | [] ? | | | | |]; cbn; congruence.
  - intros dirs. apply (traces_class _ closingEvent);
      [| apply tame_removeScratch].
    intros l0. apply forallb_weaken.
    intros [| | | | | [] ? | | | | |]; cbn; congruence.
Qed.

(** *** The push *)

Lemma guarded_mono p l : guarded false l = true -> guarded p l = true.
Proof.
  destruct l as [| e l]; [reflexivity |]. cbn.
  destruct (isPush e); [discriminate | auto].
Qed.

Lemma guarded_app p a b :
  guarded p a = true -> guarded false b = true ->
  guarded p (List.app a b) = true.
Proof.
  revert p. induction a as [| e a IH]; intros p Ha Hb.
  - now apply guarded_mono.
  - cbn in *. apply andb_true_iff in Ha as [He Ha].
    rewrite He. cbn. now apply IH.
Qed.

Lemma class_guarded (P : event -> bool) p l :
  (forall e, P e = true -> isPush e = false) ->
  forallb P l = true -> guarded p l = true.
Proof.
  intros HP. revert p. induction l as [| e l IH]; intros p Hl.
  - reflexivity.
  - cbn in *. apply andb_true_iff in Hl as [He Hl].
    rewrite (HP e He). cbn. now apply IH.
Qed.

(** A push of a guarded trace has a successful commit right before it. *)
Lemma guarded_push p pre x post :
  guarded p (List.app pre (Exec Push x :: post)) = true ->
  (pre = [] /\ p = true)
  \/ exists pre' t, pre = List.app pre' [Exec (Commit t) None].
Proof.
  revert p. induction pre as [| e pre IH]; intros p Hg.
  - left. cbn in Hg. apply andb_true_iff in Hg as [Hp _]. auto.
  - right. cbn in Hg. apply andb_true_iff in Hg as [_ Hg].
    destruct (IH _ Hg) as [[-> Hc] | (pre' & t & ->)].
    + destruct e as [| | | | | [] [m |] | | | | |]; try discriminate Hc.
      exists [], text. reflexivity.
    + exists (e :: pre'), t. reflexivity.
Qed.

Lemma guarded_commitStep text done :
  traces (ext:=ext) (guarded false) (commitStep text done).
Proof.
  intros w.
  unfold commitStep, tryCatch, bind, after, lift, toleratingNoChanges.
  destruct text as [e | t0]; cbn.
  - destruct (Str.includes "nothing to commit" (message e)); reflexivity.
  - destruct (failure (Commit t0) w) as [m |]; cbn.
    + destruct (Str.includes "nothing to commit" m); reflexivity.
    + destruct (failure Push (afterExec (Commit t0) w)) as [m |]; cbn;
        [destruct (Str.includes "nothing to commit" m) |]; reflexivity.
Qed.

Lemma sourceEvent_not_push e : sourceEvent e = true -> isPush e = false.
Proof. destruct e as [| | | | | [] ? | | | | |]; cbn; congruence. Qed.

Lemma stageEvent_not_push e : stageEvent e = true -> isPush e = false.
Proof. destruct e as [| | | | | [] ? | | | | |]; cbn; congruence. Qed.

Lemma removerEvent_not_push e : removerEvent e = true -> isPush e = false.
Proof. destruct e as [| | | | | [] ? | | | | |]; cbn; congruence. Qed.

Lemma closingEvent_not_push e : closingEvent e = true -> isPush e = false.
Proof. destruct e as [| | | | | [] ? | | | | |]; cbn; congruence. Qed.

Lemma guarded_flows (g : globals num) :
  traces (guarded false) (handlePreviewGeneration (ext:=ext) env g)
  /\ traces (guarded false) (handleCleanup (ext:=ext) env g).
Proof.
  split.
  - apply traces_generation; try exact (guarded_app false); try reflexivity.
    + apply (traces_class _ sourceEvent); [| apply tame_checkoutAndBuild].
      intros l0. apply class_guarded, sourceEvent_not_push.
    + apply (traces_class _ sourceEvent); [| apply tame_locate].
      intros l0. apply class_guarded, sourceEvent_not_push.
    + intros t p l. apply (traces_class _ stageEvent); [| apply tame_stage].
      intros l0. apply class_guarded, stageEvent_not_push.
    + apply (traces_pointwise _ _ _ (commitAndPush_step g)), guarded_commitStep.
    + intros dirs. apply (traces_class _ closingEvent);
        [| apply tame_removeScratch].
      intros l0. apply class_guarded, closingEvent_not_push.
  - apply traces_cleanup; try exact (guarded_app false); try reflexivity.
    + apply (traces_class _ removerEvent); [| apply tame_enterPreview].
      intros l0. apply class_guarded, removerEvent_not_push.
    + intros p. apply (traces_class _ removerEvent);
        [| apply tame_deleteAndStage].
      intros l0. apply class_guarded, removerEvent_not_push.
    + apply (traces_pointwise _ _ _ (commitRemoval_step g)), guarded_commitStep.
    + intros dirs. apply (traces_class _ closingEvent);
        [| apply tame_removeScratch].
      intros l0. apply class_guarded, closingEvent_not_push.
Qed.

(** X9: in both flows a push is attempted only right after a commit that
    succeeded: whenever [git push origin main] occurs in the trace, the
    event just before it is a successful [git commit]. *)
Theorem push_follows_successful_commit (g : globals num) (w : world ext)
    (r : report (ext:=ext)) (pre post : list event) (x : option string) :
  r = ending (handlePreviewGeneration env g w)
  \/ r = ending (handleCleanup env g w) ->
  trace r = List.app pre (Exec Push x :: post) ->
  exists pre' t, pre = List.app pre' [Exec (Commit t) None].
Proof.
  intros Hflow Htrace.
  assert (Hg : guarded false (trace r) = true).
  { destruct (guarded_flows g) as [Hgen Hcl].
    destruct Hflow as [-> | ->].
    - rewrite (shape_trace _ _ _ (generation_flow_shape g w)). apply Hgen.
    - rewrite (shape_trace _ _ _ (cleanup_flow_shape g w)). apply Hcl. }
  rewrite Htrace in Hg.
  destruct (guarded_push _ _ _ _ Hg) as [[_ Hf] | Hex];
    [discriminate Hf | exact Hex].
Qed.

(** *** A head commit that is not a string *)

Lemma fails_bind_l {A B} (m : M ext A) (k : A -> M ext B) :
  fails m -> fails (bind m k).
Proof.
  intros Hm w b. unfold bind, after.
  destruct (result (m w)) as [a | e | c] eqn:R; cbn; try discriminate.
  exfalso. exact (Hm w a R).
Qed.

Lemma fails_bind_r {A B} (m : M ext A) (k : A -> M ext B) :
  (forall a, fails (k a)) -> fails (bind m k).
Proof.
  intros Hk w b. unfold bind, after.
  destruct (result (m w)) as [a | e | c] eqn:R; cbn; try discriminate.
  apply Hk.
Qed.

Lemma fails_exit {A} c : fails (ext:=ext) (A:=A) (exit c).
Proof. intros w a. discriminate. Qed.

(** The text of the commit throws before anything is committed (a
    conversion to text, or [commitSha.substring]), and the handler of the
    commit step throws the error again. *)
Lemma commitAndPush_no_text (g : globals num) :
  isText (commitSha g) = false ->
  exists e, forall w : world ext, commitAndPush g w = Run [] w (Throw e).
Proof.
  intros Ht.
  assert (Htext : exists e,
            updateText g = inl e
            /\ Str.includes "nothing to commit" (message e) = false).
  { unfold updateText, Js.toString.
    destruct (Js.renders (repoName g)); [| eexists; split; reflexivity].
    destruct (Js.renders (prNumber g)); [| eexists; split; reflexivity].
    destruct (commitSha g); try discriminate Ht; eexists; split; reflexivity. }
  destruct Htext as (e & He & Hm). exists e. intros w.
  rewrite commitAndPush_step, He.
  unfold commitStep, tryCatch, bind, after, toleratingNoChanges. cbn.
  rewrite Hm. reflexivity.
Qed.

Lemma fails_generation (g : globals num) :
  isText (commitSha g) = false -> fails (ext:=ext) (generation env g).
Proof.
  intros Ht. destruct (commitAndPush_no_text g Ht) as [e He].
  unfold generation.
  apply fails_bind_r; intros dirs. apply fails_bind_r; intros l.
  destruct (List.length l =? 0)%nat.
  - apply fails_bind_r; intros _. apply fails_exit.
  - unfold publish. apply fails_bind_r; intros _. apply fails_bind_l.
    intros w a. rewrite He. discriminate.
Qed.

Lemma sourceEvent_noCommit e : sourceEvent e = true -> noCommit e = true.
Proof. destruct e as [| | | | | [] ? | | | | |]; cbn; congruence. Qed.

Lemma stageEvent_noCommit e : stageEvent e = true -> noCommit e = true.
Proof. destruct e as [| | | | | [] ? | | | | |]; cbn; congruence. Qed.

Lemma closingEvent_noCommit e : closingEvent e = true -> noCommit e = true.
Proof. destruct e as [| | | | | [] ? | | | | |]; cbn; congruence. Qed.

(** X10: an event whose [pull_request.head.sha] is not a string (it is
    missing, [null], a number, ...) passes the top level, but its
    generation flow can never publish: whatever the outside world
    answers, no commit and no push is attempted, and the process exits
    with code 1 (at the latest when [commitSha.substring] throws, after
    the clone, the build and the copy have been done). *)
Theorem sha_that_is_no_string_never_publishes (g : globals num)
    (w : world ext) :
  isText (commitSha g) = false ->
  let r := ending (handlePreviewGeneration env g w) in
  exitCode r = 1%Z
  /\ existsb isCommit (trace r) = false
  /\ existsb isPush (trace r) = false.
Proof.
  intros Ht r. subst r.
  pose proof (generation_flow_shape g w) as Hs.
  split.
  - destruct (shape_exit_code _ _ _ Hs) as [[R _] | [_ Hc]]; [| exact Hc].
    exfalso. rewrite generation_try in R.
    destruct (flow_returns _ _ w tt R) as [Rb _].
    exact (fails_generation g Ht w tt Rb).
  - rewrite (shape_trace _ _ _ Hs).
    assert (Hn : forallb noCommit (events (handlePreviewGeneration env g w))
                 = true).
    { apply generation_events; try reflexivity.
      - exact sourceEvent_noCommit.
      - exact stageEvent_noCommit.
      - destruct (commitAndPush_no_text g Ht) as [e He].
        intros w'. now rewrite He.
      - exact closingEvent_noCommit. }
    split.
    + apply (none_in_class _ _ _ Hn). intros e. unfold noCommit.
      destruct (isCommit e); cbn; congruence.
    + apply (none_in_class _ _ _ Hn). intros e. unfold noCommit.
      destruct (isCommit e), (isPush e); cbn; congruence.
Qed.

(** *** More of the Artifact Locator *)

Lemma locate_throws dir rest (w : world ext) :
  found dir w = true -> walked dir w = None ->
  locate (dir :: rest) w
  = Run [Exists dir true; Walk dir None] w
      (Throw (Exn ("ENOTDIR: not a directory, scandir '" ++ dir ++ "'"))).
Proof.
  intros Hf Hw. cbn [locate]. unfold bind, after, existsSync, findHtmlFiles.
  cbn. rewrite Hf. cbn. rewrite Hw. reflexivity.
Qed.

(** X11: the search for generated files only reads: it leaves the world
    as it was; and it ends with no file exactly when every candidate
    directory is absent or is walked without yielding a file. *)
Theorem search_finds_nothing_iff (dirs : list string) (w : world ext) :
  final (locate dirs w) = w
  /\ (result (locate dirs w) = Ret []
      <-> forall d, In d dirs -> found d w = false \/ walked d w = Some []).
Proof.
  induction dirs as [| dir rest [IHw IH]].
  - split; [reflexivity |]. split; [intros _ d [] | reflexivity].
  - destruct (found dir w) eqn:Hf.
    + destruct (walked dir w) as [[| x l'] |] eqn:Hw.
      * rewrite (locate_skips_empty dir rest w Hf Hw).
        cbn [prepend final result]. split; [exact IHw |].
        rewrite IH. split.
        -- intros Hr d [<- | Hd]; auto.
        -- intros Hr d Hd. apply Hr. now right.
      * rewrite (locate_takes_first dir rest (x :: l') w Hf Hw)
          by discriminate.
        cbn [final result]. split; [reflexivity |]. split; [discriminate |].
        intros Hr. destruct (Hr dir (or_introl eq_refl)) as [Hx | Hx];
          congruence.
      * rewrite (locate_throws dir rest w Hf Hw).
        cbn [final result]. split; [reflexivity |]. split; [discriminate |].
        intros Hr. destruct (Hr dir (or_introl eq_refl)) as [Hx | Hx];
          congruence.
    + rewrite (locate_skips_absent dir rest w Hf).
      cbn [prepend final result]. split; [exact IHw |].
      rewrite IH. split.
      * intros Hr d [<- | Hd]; auto.
      * intros Hr d Hd. apply Hr. now right.
Qed.

(** X12: a candidate that exists and is not a directory (a file named
    [build], say) ends the search with the error of [readdirSync]: when
    every candidate before it is absent or yields no file, the search
    throws, and the candidates after it are never consulted, whatever they
    hold. *)
Theorem candidate_that_is_no_directory_aborts (before : list string)
    (dir : string) (later : list string) (w : world ext) :
  (forall c, In c before -> found c w = false \/ walked c w = Some []) ->
  found dir w = true ->
  walked dir w = None ->
  result (locate (List.app before (dir :: later)) w)
  = Throw (Exn ("ENOTDIR: not a directory, scandir '" ++ dir ++ "'"))
  /\ locate (List.app before (dir :: later)) w
     = locate (List.app before [dir]) w.
Proof.
  intros Hbefore Hf Hw.
  induction before as [| c before IH]; cbn [List.app].
  - rewrite !(locate_throws dir _ w Hf Hw). split; reflexivity.
  - assert (Hrest : forall c', In c' before ->
                               found c' w = false \/ walked c' w = Some [])
      by (intros c' Hc'; apply Hbefore; now right).
    destruct (IH Hrest) as [IHres IHrun].
    destruct (found c w) eqn:Hc.
    + destruct (Hbefore c (or_introl eq_refl)) as [Habs | Hemp];
        [congruence |].
      rewrite !(locate_skips_empty c _ w Hc Hemp).
      unfold prepend; cbn. rewrite IHrun. split; [| reflexivity].
      rewrite <- IHrun. exact IHres.
    + rewrite !(locate_skips_absent c _ w Hc).
      unfold prepend; cbn. rewrite IHrun. split; [| reflexivity].
      rewrite <- IHrun. exact IHres.
Qed.

(** *** More of Build Discovery *)

Lemma buildLoop_command_ok script rest (w : world ext) :
  commandStyle script = true ->
  failure (BuildCommand script) w = None ->
  buildLoop (script :: rest) w
  = Run [Log ("Trying: " ++ script); Exec (BuildCommand script) None]
      (afterExec (BuildCommand script) w) (Ret true).
Proof.
  intros Hcs Hf. cbn [buildLoop]. rewrite Hcs.
  unfold tryCatch, bind, after, execSync, console_log, emit.
  cbn [result final events]. rewrite Hf. reflexivity.
Qed.

Lemma buildLoop_script_absent script rest (w : world ext) :
  commandStyle script = false ->
  found script w = false ->
  buildLoop (script :: rest) w
  = prepend [Exists script false] (buildLoop rest w).
Proof.
  intros Hcs Hf. cbn [buildLoop]. rewrite Hcs.
  rewrite (bind_run_ret _ _ _ _ _ _ (existsSync_run script w)). now rewrite Hf.
Qed.

Lemma buildLoop_script_ok script rest (w : world ext) :
  commandStyle script = false ->
  found script w = true ->
  failure (BuildScript script) w = None ->
  buildLoop (script :: rest) w
  = Run [ Exists script true; Log ("Executing: " ++ script);
          Exec (BuildScript script) None ]
      (afterExec (BuildScript script) w) (Ret true).
Proof.
  intros Hcs Hf Hx. cbn [buildLoop]. rewrite Hcs.
  rewrite (bind_run_ret _ _ _ _ _ _ (existsSync_run script w)). rewrite Hf.
  rewrite (bind_run_ret _ _ _ _ _ _ (console_log_run _ w)).
  rewrite (execSync_bind_ok _ _ _ Hx). reflexivity.
Qed.

(** The five ways one round of the build loop goes. *)
Lemma buildLoop_round script rest (w : world ext) :
  (exists m,
     commandStyle script = true
     /\ buildLoop (script :: rest) w
        = prepend [Log ("Trying: " ++ script);
                   Exec (BuildCommand script) (Some m)]
            (buildLoop rest (afterExec (BuildCommand script) w)))
  \/ (commandStyle script = true
      /\ buildLoop (script :: rest) w
         = Run [Log ("Trying: " ++ script); Exec (BuildCommand script) None]
             (afterExec (BuildCommand script) w) (Ret true))
  \/ (commandStyle script = false
      /\ buildLoop (script :: rest) w
         = prepend [Exists script false] (buildLoop rest w))
  \/ (exists m,
        commandStyle script = false
        /\ buildLoop (script :: rest) w
           = Run [ Exists script true; Log ("Executing: " ++ script);
                   Exec (BuildScript script) (Some m) ]
               (afterExec (BuildScript script) w) (Throw (Exn m)))
  \/ (commandStyle script = false
      /\ buildLoop (script :: rest) w
         = Run [ Exists script true; Log ("Executing: " ++ script);
                 Exec (BuildScript script) None ]
             (afterExec (BuildScript script) w) (Ret true)).
Proof.
  destruct (commandStyle script) eqn:Hcs.
  - destruct (failure (BuildCommand script) w) as [m |] eqn:Hf.
    + left. exists m. split; [reflexivity |].
      now apply buildLoop_command_failure.
    + right; left. split; [reflexivity |]. now apply buildLoop_command_ok.
  - destruct (found script w) eqn:Hf.
    + destruct (failure (BuildScript script) w) as [m |] eqn:Hx.
      * right; right; right; left. exists m. split; [reflexivity |].
        now apply buildLoop_script_failure.
      * right; right; right; right. split; [reflexivity |].
        now apply buildLoop_script_ok.
    + right; right; left. split; [reflexivity |].
      now apply buildLoop_script_absent.
Qed.

(** X13: Build Discovery executes candidates of its list only, each in
    the way of its kind: a command-style candidate as it stands, a
    script-path candidate through [chmod +x s && ./s] and only after
    [existsSync] has found it. *)
Theorem build_runs_listed_candidates_only (scripts : list string)
    (w : world ext) (c : command) (x : option string) :
  In (Exec c x) (events (buildLoop scripts w)) ->
  exists s,
    In s scripts
    /\ ((commandStyle s = true /\ c = BuildCommand s)
        \/ (commandStyle s = false /\ c = BuildScript s
            /\ In (Exists s true) (events (buildLoop scripts w)))).
Proof.
  revert w. induction scripts as [| script rest IH]; intros w.
  - intros [].
  - destruct (buildLoop_round script rest w)
      as [(m & Hcs & ->) | [(Hcs & ->) | [(Hcs & ->) | [(m & Hcs & ->) | (Hcs & ->)]]]];
      cbn [prepend events List.app In].
    + intros [Hin | [Hin | Hin]]; try discriminate Hin.
      * injection Hin as <- _. exists script. split; [now left |]. now left.
      * destruct (IH _ Hin) as (s & Hs & Hk). exists s. split; [now right |].
        destruct Hk as [Hk | (Hk1 & Hk2 & Hk3)]; [now left |].
        right. repeat split; auto.
    + intros [Hin | [Hin | []]]; try discriminate Hin.
      injection Hin as <- _. exists script. split; [now left |]. now left.
    + intros [Hin | Hin]; try discriminate Hin.
      destruct (IH _ Hin) as (s & Hs & Hk). exists s. split; [now right |].
      destruct Hk as [Hk | (Hk1 & Hk2 & Hk3)]; [now left |].
      right. repeat split; auto.
    + intros [Hin | [Hin | [Hin | []]]]; try discriminate Hin.
      injection Hin as <- _. exists script. split; [now left |].
      right. repeat split; auto.
    + intros [Hin | [Hin | [Hin | []]]]; try discriminate Hin.
      injection Hin as <- _. exists script. split; [now left |].
      right. repeat split; auto.
Qed.

(** X14: Build Discovery stops at the first candidate that succeeds:
    [buildExecuted] is [true] exactly when a candidate succeeded, that
    success is then the last event and the only successful build of the
    run; in every other run (no candidate succeeded, or a script that
    exists failed) no build succeeded at all. *)
Theorem build_stops_at_first_success (scripts : list string) (w : world ext) :
  let r := buildLoop scripts w in
  (result r = Ret true ->
   exists pre c,
     events r = List.app pre [Exec c None]
     /\ isBuilt (Exec c None) = true
     /\ existsb isBuilt pre = false)
  /\ (result r <> Ret true -> existsb isBuilt (events r) = false).
Proof.
  cbv zeta. revert w. induction scripts as [| script rest IH]; intros w.
  - split; [discriminate | reflexivity].
  - destruct (buildLoop_round script rest w)
      as [(m & Hcs & ->) | [(Hcs & ->) | [(Hcs & ->) | [(m & Hcs & ->) | (Hcs & ->)]]]];
      cbn [prepend events result].
    + destruct (IH (afterExec (BuildCommand script) w)) as [IH1 IH2]. split.
      * intros R. destruct (IH1 R) as (pre & c & -> & Hc & Hpre).
        exists (Log ("Trying: " ++ script)
                :: Exec (BuildCommand script) (Some m) :: pre), c.
        repeat split; auto.
      * intros R. cbn. now apply IH2.
    + split; [| congruence]. intros _.
      exists [Log ("Trying: " ++ script)], (BuildCommand script).
      repeat split.
    + destruct (IH w) as [IH1 IH2]. split.
      * intros R. destruct (IH1 R) as (pre & c & -> & Hc & Hpre).
        exists (Exists script false :: pre), c. repeat split; auto.
      * intros R. cbn. now apply IH2.
    + split; [discriminate | reflexivity].
    + split; [| congruence]. intros _.
      exists [Exists script true; Log ("Executing: " ++ script)],
        (BuildScript script).
      repeat split.
Qed.

(** *** What the Remover deletes *)




(** *** The copy loop *)

Lemma mkdirSync_run p (w : world ext) :
  (exists w', mkdirSync p w = Run [Mkdir p true] w' (Ret tt) /\ cwd w' = cwd w)
  \/ (exists e, mkdirSync p w = Run [Mkdir p false] w (Throw e)).
Proof.
  unfold mkdirSync. destruct (Fs.mkdirp _ _); [left | right]; eauto.
Qed.

Lemma copyFileSync_run src dest (w : world ext) :
  (exists w',
     copyFileSync src dest w = Run [CopyFile src dest true] w' (Ret tt)
     /\ cwd w' = cwd w)
  \/ (exists e, copyFileSync src dest w = Run [CopyFile src dest false] w (Throw e)).
Proof.
  unfold copyFileSync.
  destruct (Fs.at_path _ _ _) as [[content | es |] |];
    try destruct (Fs.write _ _ _); [left | right ..]; eauto.
Qed.

Lemma pathRelative_run from to (w : world ext) :
  pathRelative from to w = Run [] w (Ret (Path.relative (cwd w) from to)).
Proof. reflexivity. Qed.

(** One round of the copy loop: it throws before the copy (the directory
    of the target cannot be made), at the copy, or it goes on with the
    next file in a world with the same working directory. *)
Lemma copyLoop_round tempDir targetDir file rest (w : world ext) :
  let rel := Path.relative (cwd w) tempDir file in
  let dest := Path.join [targetDir; rel] in
  exists pre,
    forallb (fun e => negb (isCopy e)) pre = true
    /\ ((exists w' e,
           copyLoop tempDir targetDir (file :: rest) w = Run pre w' (Throw e))
        \/ (exists w' e,
              copyLoop tempDir targetDir (file :: rest) w
              = Run (List.app pre [CopyFile file dest false]) w' (Throw e))
        \/ (exists w',
              cwd w' = cwd w
              /\ copyLoop tempDir targetDir (file :: rest) w
                 = prepend
                     (List.app pre [ CopyFile file dest true;
                                     Log ("Copied: " ++ rel) ])
                     (copyLoop tempDir targetDir rest w'))).
Proof.
  intros rel dest. cbn [copyLoop].
  rewrite (bind_run_ret _ _ _ _ _ _ (pathRelative_run tempDir file w)).
  cbv beta zeta. fold rel. fold dest.
  rewrite (bind_run_ret _ _ _ _ _ _ (existsSync_run (Path.dirname dest) w)).
  rewrite prepend_prepend. cbn [List.app].
  assert (Hcopy : forall pre (w1 : world ext),
            cwd w1 = cwd w ->
            forallb (fun e => negb (isCopy e)) pre = true ->
            (exists w' e,
               prepend pre
                 ((copyFileSync file dest ;;
                   console_log ("Copied: " ++ rel) ;;
                   copyLoop tempDir targetDir rest) w1)
               = Run (List.app pre [CopyFile file dest false]) w' (Throw e))
            \/ (exists w',
                  cwd w' = cwd w
                  /\ prepend pre
                       ((copyFileSync file dest ;;
                         console_log ("Copied: " ++ rel) ;;
                         copyLoop tempDir targetDir rest) w1)
                     = prepend
                         (List.app pre [ CopyFile file dest true;
                                         Log ("Copied: " ++ rel) ])
                         (copyLoop tempDir targetDir rest w'))).
  { intros pre w1 Hcwd Hpre.
    destruct (copyFileSync_run file dest w1) as [(w' & E & Hw') | (e & E)].
    - right. exists w'. split; [congruence |].
      rewrite (bind_run_ret _ _ _ _ _ _ E).
      rewrite (bind_run_ret _ _ _ _ _ _ (console_log_run _ w')).
      rewrite !prepend_prepend, <- app_assoc. reflexivity.
    - left. exists w1, e. now rewrite (bind_run_throw _ _ _ _ _ _ E). }
  destruct (found (Path.dirname dest) w) eqn:Hf.
  - exists [Exists (Path.dirname dest) true]. split; [reflexivity |].
    right. rewrite bind_ret. now apply Hcopy.
  - destruct (mkdirSync_run (Path.dirname dest) w) as [(w' & E & Hw') | (e & E)].
    + exists [Exists (Path.dirname dest) false; Mkdir (Path.dirname dest) true].
      split; [reflexivity |]. right.
      rewrite (bind_run_ret _ _ _ _ _ _ E), prepend_prepend.
      now apply Hcopy.
    + exists [Exists (Path.dirname dest) false; Mkdir (Path.dirname dest) false].
      split; [reflexivity |]. left. exists w, e.
      now rewrite (bind_run_throw _ _ _ _ _ _ E).
Qed.

Lemma copies_app a b : copies (List.app a b) = List.app (copies a) (copies b).
Proof.
  induction a as [| e a IH]; [reflexivity |].
  destruct e; cbn; rewrite ?IH; reflexivity.
Qed.

Lemma copies_none l :
  forallb (fun e => negb (isCopy e)) l = true -> copies l = [].
Proof.
  induction l as [| e l IH]; [reflexivity |].
  cbn. intros Hl. apply andb_true_iff in Hl as [He Hl].
  destruct e; try discriminate He; auto.
Qed.

(** X16: the copy loop copies each artifact to [targetDir] joined with
    its path relative to [tempDir], where [path.relative] resolves both of
    its arguments against the working directory of the process at that
    time: every copy in the trace is of a file of the list, to that
    destination; and when the loop returns, every file of the list has
    been copied once, in the order of the list. *)
Theorem copies_resolve_against_the_working_directory
    (tempDir targetDir : string) (htmlFiles : list string) (w : world ext) :
  let r := copyLoop tempDir targetDir htmlFiles w in
  let target file :=
    Path.join [targetDir; Path.relative (cwd w) tempDir file] in
  (forall src dest ok,
     In (CopyFile src dest ok) (events r) ->
     In src htmlFiles /\ dest = target src)
  /\ (result r = Ret tt ->
      copies (events r) = map (fun file => (file, target file, true)) htmlFiles).
Proof.
  cbv zeta. revert w. induction htmlFiles as [| file rest IH]; intros w.
  - split; [intros src dest ok [] | reflexivity].
  - destruct (copyLoop_round tempDir targetDir file rest w)
      as (pre & Hpre & [(w' & e & ->) | [(w' & e & ->) | (w' & Hw' & ->)]]);
      cbn [prepend events result].
    + split; [| discriminate]. intros src dest ok Hin.
      pose proof (in_class _ _ _ Hpre Hin) as Hc. discriminate Hc.
    + split; [| discriminate]. intros src dest ok Hin.
      apply in_app_or in Hin as [Hin | [Hin | []]].
      * pose proof (in_class _ _ _ Hpre Hin) as Hc. discriminate Hc.
      * injection Hin as <- <- _. split; [now left | reflexivity].
    + destruct (IH w') as [IH1 IH2]. rewrite Hw' in IH1, IH2. split.
      * intros src dest ok Hin.
        apply in_app_or in Hin as [Hin | Hin].
        -- apply in_app_or in Hin as [Hin | [Hin | [Hin | []]]].
           ++ pose proof (in_class _ _ _ Hpre Hin) as Hc. discriminate Hc.
           ++ injection Hin as <- <- _. split; [now left | reflexivity].
           ++ discriminate Hin.
        -- destruct (IH1 _ _ _ Hin) as [Hsrc Hdest]. split; [now right | assumption].
      * intros R. rewrite !copies_app, (copies_none _ Hpre), (IH2 R).
        reflexivity.
Qed.

(** *** Strings and paths *)

Lemma length_append a b :
  String.length (a ++ b) = (String.length a + String.length b)%nat.
Proof. induction a as [| c a IH]; cbn; [reflexivity | now rewrite IH]. Qed.

Lemma append_assoc a b c : (a ++ b) ++ c = a ++ (b ++ c).
Proof. induction a as [| x a IH]; cbn; [reflexivity | now rewrite IH]. Qed.

Lemma append_empty a : a ++ "" = a.
Proof. induction a as [| x a IH]; cbn; [reflexivity | now rewrite IH]. Qed.

Lemma substring_whole s : String.substring 0 (String.length s) s = s.
Proof. induction s as [| c s IH]; cbn; [reflexivity | now rewrite IH]. Qed.

Lemma substring_skip a b n m :
  String.substring (String.length a + n) m (a ++ b) = String.substring n m b.
Proof. induction a as [| c a IH]; cbn; [reflexivity | exact IH]. Qed.

Lemma substring_split s a :
  (a <= String.length s)%nat ->
  s = String.substring 0 a s ++ String.substring a (String.length s - a) s.
Proof.
  revert a. induction s as [| c s IH]; intros a Ha.
  - destruct a; [reflexivity | cbn in Ha; lia].
  - destruct a as [| a].
    + cbn. now rewrite substring_whole.
    + cbn. f_equal. apply IH. cbn in Ha. lia.
Qed.

Lemma endsWith_append pre suffix : Str.endsWith suffix (pre ++ suffix) = true.
Proof.
  unfold Str.endsWith. rewrite length_append.
  replace (String.length pre + String.length suffix - String.length suffix)%nat
    with (String.length pre + 0)%nat by lia.
  rewrite substring_skip, substring_whole, String.eqb_refl.
  rewrite andb_true_r. apply Nat.leb_le. lia.
Qed.

Lemma endsWith_split suffix s :
  Str.endsWith suffix s = true -> exists pre, s = pre ++ suffix.
Proof.
  unfold Str.endsWith. intros Hs. apply andb_true_iff in Hs as [Hk He].
  apply Nat.leb_le in Hk. apply String.eqb_eq in He.
  exists (String.substring 0 (String.length s - String.length suffix) s).
  rewrite <- He at 2.
  replace (String.length suffix)
    with (String.length s - (String.length s - String.length suffix))%nat
    at 3 by lia.
  apply substring_split. lia.
Qed.

(** The last piece of a path that ends with a text without slash. *)
Lemma splitSlash_append s t :
  Str.splitSlash t = [t] ->
  exists init l,
    Str.splitSlash s = List.app init [l]
    /\ Str.splitSlash (s ++ t) = List.app init [l ++ t].
Proof.
  intros Ht. induction s as [| c s (init & l & E1 & E2)].
  - exists [], "". split; [reflexivity | exact Ht].
  - cbn [Str.splitSlash String.append]. destruct (Ascii.eqb c "/").
    + exists ("" :: init), l. rewrite E1, E2. split; reflexivity.
    + rewrite E1, E2. destruct init as [| h init].
      * exists [], (String c l). split; reflexivity.
      * exists (String c h :: init), l. split; reflexivity.
Qed.

Lemma normSegs_last allowAboveRoot init x :
  String.eqb x "" = false -> String.eqb x "." = false ->
  String.eqb x ".." = false ->
  forall acc, exists acc',
    Path.normSegs allowAboveRoot acc (List.app init [x]) = rev (x :: acc').
Proof.
  intros Hx0 Hx1 Hx2. induction init as [| s init IH]; intros acc.
  - exists acc. cbn. now rewrite Hx0, Hx1, Hx2.
  - cbn [List.app Path.normSegs].
    destruct (String.eqb s "" || String.eqb s "."); [apply IH |].
    destruct (String.eqb s ".."); [| apply IH].
    destruct acc as [| last acc]; [apply IH |].
    destruct (String.eqb last ".."); apply IH.
Qed.

Lemma joinSlash_last ys x : exists p, Str.joinSlash (List.app ys [x]) = p ++ x.
Proof.
  unfold Str.joinSlash. induction ys as [| y ys [p IH]].
  - exists "". reflexivity.
  - cbn [List.app String.concat].
    destruct (List.app ys [x]) as [| z zs] eqn:E.
    + destruct ys; discriminate E.
    + exists (y ++ "/" ++ p). rewrite IH. now rewrite !append_assoc.
Qed.

Lemma longer_differs s t :
  (String.length t < String.length s)%nat -> String.eqb s t = false.
Proof.
  intros Hl. apply String.eqb_neq. intros ->. lia.
Qed.

(** Normalising keeps a suffix [.html]. *)
Lemma normalize_html q : exists r, Path.normalize (q ++ ".html") = r ++ ".html".
Proof.
  unfold Path.normalize.
  assert (Hlen : forall a, (String.length (a ++ ".html") = String.length a + 5)%nat)
    by (intros a; now rewrite length_append).
  rewrite (longer_differs (q ++ ".html") "") by (rewrite Hlen; cbn; lia).
  assert (Htrail : Str.endsWith "/" (q ++ ".html") = false).
  { unfold Str.endsWith. rewrite Hlen.
    replace (String.length q + 5 - String.length "/")%nat
      with (String.length q + 4)%nat by (cbn; lia).
    rewrite substring_skip. cbn. apply andb_false_r. }
  rewrite Htrail.
  destruct (splitSlash_append q ".html" eq_refl) as (init & l & _ & ->).
  destruct (normSegs_last (negb (Path.isAbsolute (q ++ ".html"))) init
              (l ++ ".html")) with (acc := @nil string) as [acc' ->];
    try (apply longer_differs; rewrite Hlen; cbn; lia).
  cbn [rev].
  destruct (joinSlash_last (rev acc') (l ++ ".html")) as [p ->].
  rewrite (longer_differs (p ++ l ++ ".html") "")
    by (rewrite <- append_assoc, Hlen; cbn; lia).
  exists ((if Path.isAbsolute (q ++ ".html") then "/" else "") ++ p ++ l).
  now rewrite append_empty, !append_assoc.
Qed.

(** [path.join(dir, name)] ends with [.html] when [name] does. *)
Lemma join_html dir name :
  Str.endsWith ".html" name = true ->
  Str.endsWith ".html" (Path.join [dir; name]) = true.
Proof.
  intros Hn. destruct (endsWith_split _ _ Hn) as [pre ->].
  assert (Hne : String.eqb (pre ++ ".html") "" = false)
    by (apply longer_differs; rewrite length_append; cbn; lia).
  unfold Path.join. cbn [filter]. rewrite Hne. cbn [negb].
  destruct (negb (String.eqb dir "")); unfold Str.joinSlash; cbn [String.concat].
  - rewrite <- !append_assoc.
    rewrite (longer_differs (((dir ++ "/") ++ pre) ++ ".html") "")
      by (rewrite length_append; cbn; lia).
    destruct (normalize_html ((dir ++ "/") ++ pre)) as [r ->].
    apply endsWith_append.
  - rewrite Hne. destruct (normalize_html pre) as [r ->].
    apply endsWith_append.
Qed.

(** The walk of [findHtmlFiles] lists paths that end with [.html] only. *)
Lemma walk_html :
  forall (n : Fs.node) (dir p : string),
    In p (Fs.walk dir n) -> Str.endsWith ".html" p = true.
Proof.
  fix IH 1. intros n dir p.
  destruct n as [content | items |]; cbn [Fs.walk]; try (intros []).
  induction items as [| [name item] rest IHrest]; [intros [] |].
  intros Hin. apply in_app_or in Hin as [Hin | Hin]; [| exact (IHrest Hin)].
  pose proof (IH item (Path.join [dir; name]) p) as IHitem.
  destruct item as [c | es |].
  - destruct (Str.endsWith ".html" name) eqn:Hn; [| contradiction].
    destruct Hin as [<- | []]. now apply join_html.
  - exact (IHitem Hin).
  - contradiction.
Qed.

Lemma walked_html dir (w : world ext) l :
  walked dir w = Some l -> forall p, In p l -> Str.endsWith ".html" p = true.
Proof.
  unfold walked.
  destruct (Fs.at_path _ _ _) as [[content | items |] |]; try discriminate.
  intros R p Hin. injection R as R. subst l.
  exact (walk_html (Fs.Dir items) dir p Hin).
Qed.

(** X17: [findHtmlFiles] returns markup files only: every path of the
    list it returns ends with [.html], at whatever depth the file was
    found and whatever [path.join] made of the directory names. *)
Theorem findHtmlFiles_yields_html_only (dir : string) (w : world ext)
    (l : list string) (p : string) :
  result (findHtmlFiles dir w) = Ret l ->
  In p l ->
  Str.endsWith ".html" p = true.
Proof.
  unfold findHtmlFiles. cbn [result].
  destruct (walked dir w) as [l0 |] eqn:Hw; [| discriminate].
  intros R. injection R as <-. now apply (walked_html dir w).
Qed.

Lemma locate_html dirs (w : world ext) l :
  result (locate dirs w) = Ret l ->
  forall p, In p l -> Str.endsWith ".html" p = true.
Proof.
  induction dirs as [| dir rest IH].
  - cbn. intros R. injection R as <-. intros p [].
  - destruct (found dir w) eqn:Hf.
    + destruct (walked dir w) as [[| x l'] |] eqn:Hw.
      * rewrite (locate_skips_empty dir rest w Hf Hw). exact IH.
      * rewrite (locate_takes_first dir rest (x :: l') w Hf Hw)
          by discriminate.
        cbn [result]. intros R. injection R as <-.
        now apply (walked_html dir w).
      * rewrite (locate_throws dir rest w Hf Hw). discriminate.
    + rewrite (locate_skips_absent dir rest w Hf). exact IH.
Qed.

Lemma tame_copyLoop_html tempDir targetDir htmlFiles :
  (forall p, In p htmlFiles -> Str.endsWith ".html" p = true) ->
  tame (ext:=ext) copiesHtml (copyLoop tempDir targetDir htmlFiles).
Proof.
  induction htmlFiles as [| file rest IH]; intros Hl; cbn [copyLoop].
  - tame_tac.
  - assert (Hrest : tame (ext:=ext) copiesHtml (copyLoop tempDir targetDir rest))
      by (apply IH; intros p Hp; apply Hl; now right).
    tame_tac.
    apply tame_copyFileSync. intros b. cbn. apply Hl. now left.
Qed.

Lemma tame_stage_html (g : globals num) tempDir previewDir htmlFiles :
  (forall p, In p htmlFiles -> Str.endsWith ".html" p = true) ->
  tame (ext:=ext) copiesHtml (stage env g tempDir previewDir htmlFiles).
Proof.
  intros Hl. unfold stage. tame_tac. now apply tame_copyLoop_html.
Qed.

Lemma notCopy_copiesHtml (P : event -> bool) :
  (forall e, P e = true -> isCopy e = false) ->
  forall l, forallb P l = true -> forallb copiesHtml l = true.
Proof.
  intros HP l. apply forallb_weaken. intros e He.
  specialize (HP e He). destruct e; try reflexivity. discriminate HP.
Qed.

Lemma sourceEvent_not_copy e : sourceEvent e = true -> isCopy e = false.
Proof. destruct e as [| | | | | [] ? | | | | |]; cbn; congruence. Qed.

Lemma commitEvent_not_copy e : commitEvent e = true -> isCopy e = false.
Proof. destruct e as [| | | | | [] ? | | | | |]; cbn; congruence. Qed.

Lemma closingEvent_not_copy e : closingEvent e = true -> isCopy e = false.
Proof. destruct e as [| | | | | [] ? | | | | |]; cbn; congruence. Qed.

(** X18: the Publisher copies markup files only: in every run of the
    generation flow, the source of every copy is a path that ends with
    [.html] (no other file of the source tree is ever copied into the
    preview repository). *)
Theorem only_html_files_are_copied (g : globals num) (w : world ext)
    (src dest : string) (ok : bool) :
  In (CopyFile src dest ok) (trace (ending (handlePreviewGeneration env g w))) ->
  Str.endsWith ".html" src = true.
Proof.
  rewrite (shape_trace _ _ _ (generation_flow_shape g w)).
  intros Hin.
  assert (Hall : traces (forallb copiesHtml)
                   (handlePreviewGeneration (ext:=ext) env g)).
  { unfold handlePreviewGeneration. apply traces_tryCatch;
      try exact (forallb_append copiesHtml).
    - unfold generation.
      apply traces_bind; try exact (forallb_append copiesHtml).
      { apply (traces_class _ sourceEvent); [| apply tame_checkoutAndBuild].
        apply notCopy_copiesHtml, sourceEvent_not_copy. }
      intros dirs.
      apply (traces_bind_ret _ (forallb_append copiesHtml) _ _
               (fun l => forall p, In p l -> Str.endsWith ".html" p = true)).
      + apply (traces_class _ sourceEvent); [| apply tame_locate].
        apply notCopy_copiesHtml, sourceEvent_not_copy.
      + intros w' l. apply locate_html.
      + intros l Hl. destruct (List.length l =? 0)%nat.
        * apply traces_bind; try exact (forallb_append copiesHtml).
          -- intros w'. reflexivity.
          -- intros _ w'. reflexivity.
        * unfold publish.
          apply traces_bind; try exact (forallb_append copiesHtml).
          { apply (traces_class _ copiesHtml); [auto |].
            now apply tame_stage_html. }
          intros _. apply traces_bind; try exact (forallb_append copiesHtml).
          { apply (traces_class _ commitEvent); [| apply tame_commitAndPush].
            apply notCopy_copiesHtml, commitEvent_not_copy. }
          intros _. apply (traces_class _ closingEvent);
            [| apply tame_removeScratch].
          apply notCopy_copiesHtml, closingEvent_not_copy.
    - intros e. apply traces_bind; try exact (forallb_append copiesHtml).
      + intros w'. reflexivity.
      + intros _ w'. reflexivity. }
  exact (in_class _ _ _ (Hall w) Hin).
Qed.

(** *** The order of the first steps of the generation flow *)










(** *** What exit code 0 of a flow means *)

Lemma concluded_bind_l {A B} lines (m : M ext A) (k : A -> M ext B) :
  concluded lines m -> concluded lines (bind m k).
Proof.
  intros Hm w b. unfold bind, after.
  destruct (result (m w)) as [a | e | c] eqn:R; cbn; try discriminate.
  intros _. rewrite existsb_app, (Hm w a R). reflexivity.
Qed.

Lemma concluded_bind_r {A B} lines (m : M ext A) (k : A -> M ext B) :
  (forall a, concluded lines (k a)) -> concluded lines (bind m k).
Proof.
  intros Hk w b. unfold bind, after.
  destruct (result (m w)) as [a | e | c] eqn:R; cbn; try discriminate.
  intros Rk. rewrite existsb_app, (Hk a _ b Rk). apply orb_true_r.
Qed.

Lemma concluded_pointwise {A} lines (m m' : M ext A) :
  (forall w, m w = m' w) -> concluded lines m' -> concluded lines m.
Proof. intros E Hm w. rewrite E. apply Hm. Qed.

Lemma concluded_commitStep lines text done :
  In "No changes to commit." lines ->
  concluded (ext:=ext) lines (commitStep text done).
Proof.
  intros Hl w a.
  assert (Hlog : settled lines (Log "No changes to commit.") = true).
  { unfold settled. apply existsb_exists. exists "No changes to commit.".
    split; [exact Hl | reflexivity]. }
  unfold commitStep, tryCatch, bind, after, lift, toleratingNoChanges.
  destruct text as [e | t0]; cbn -[settled].
  - destruct (Str.includes "nothing to commit" (message e)); cbn -[settled];
      [| discriminate].
    intros _. now rewrite Hlog.
  - destruct (failure (Commit t0) w) as [m |]; cbn -[settled].
    + destruct (Str.includes "nothing to commit" m); cbn -[settled];
        [| discriminate].
      intros _. rewrite Hlog. apply orb_true_r.
    + destruct (failure Push (afterExec (Commit t0) w)) as [m |];
        cbn -[settled].
      * destruct (Str.includes "nothing to commit" m); cbn -[settled];
          [| discriminate].
        intros _. rewrite Hlog. now rewrite !orb_true_r.
      * reflexivity.
Qed.

Lemma concluded_generation (g : globals num) :
  concluded (ext:=ext) ["No changes to commit."] (generation env g).
Proof.
  unfold generation.
  apply concluded_bind_r; intros dirs. apply concluded_bind_r; intros l.
  destruct (List.length l =? 0)%nat.
  - intros w a R. exfalso. revert R. cbn. discriminate.
  - unfold publish. apply concluded_bind_r; intros _. apply concluded_bind_l.
    apply (concluded_pointwise _ _ _ (commitAndPush_step g)).
    apply concluded_commitStep. now left.
Qed.

Lemma concluded_cleanup (g : globals num) :
  concluded (ext:=ext)
    [ "No changes to commit.";
      "Preview folder " ++ previewPath g
      ++ " does not exist. Nothing to clean up." ]
    (cleanup env g).
Proof.
  unfold cleanup.
  apply concluded_bind_r; intros previewDir. cbv zeta.
  apply concluded_bind_r; intros present. apply concluded_bind_l.
  destruct present.
  - unfold removePreview. apply concluded_bind_r; intros _.
    apply (concluded_pointwise _ _ _ (commitRemoval_step g)).
    apply concluded_commitStep. now left.
  - intros w a _. unfold console_log, emit.
    cbn [events List.app existsb settled].
    now rewrite String.eqb_refl, !orb_true_r.
Qed.

Lemma settled_event lines l :
  existsb (settled lines) l = true ->
  In (Exec Push None) l \/ exists line, In line lines /\ In (Log line) l.
Proof.
  intros Hs. apply existsb_exists in Hs as (e & He & Hs).
  destruct e as [line | | | | | [] [m |] | | | | |]; try discriminate Hs.
  - right. cbn in Hs. apply existsb_exists in Hs as (x & Hx & Heq).
    apply String.eqb_eq in Heq. subst x. eauto.
  - now left.
Qed.

Lemma flow_concluded label lines dirs (body : M ext unit) (w : world ext) :
  concluded lines body ->
  flowShape label dirs
    (tryCatch body (fun error => console_error_with label error ;; exit 1%Z) w) ->
  exitCode (ending (tryCatch body
                      (fun error => console_error_with label error ;; exit 1%Z)
                      w)) = 0%Z ->
  existsb (settled lines)
    (trace (ending (tryCatch body
                      (fun error => console_error_with label error ;; exit 1%Z)
                      w))) = true.
Proof.
  intros Hbody Hs Hc.
  rewrite (shape_trace _ _ _ Hs).
  destruct (shape_exit_code _ _ _ Hs) as [[R _] | [_ Hc']]; [| congruence].
  destruct (flow_returns label body w tt R) as [Rb ->].
  exact (Hbody w tt Rb).
Qed.

(** X21: exit code 0 of a flow means its work is done.  A generation
    flow that ends with exit code 0 has pushed, or has logged that there
    were no changes to commit; a cleanup flow that ends with exit code 0
    has pushed, or has logged that there were no changes to commit, or
    that the preview folder does not exist. *)
Theorem success_means_pushed_or_nothing_to_do (g : globals num)
    (w : world ext) :
  (exitCode (ending (handlePreviewGeneration env g w)) = 0%Z ->
   In (Exec Push None) (trace (ending (handlePreviewGeneration env g w)))
   \/ In (Log "No changes to commit.")
        (trace (ending (handlePreviewGeneration env g w))))
  /\ (exitCode (ending (handleCleanup env g w)) = 0%Z ->
      In (Exec Push None) (trace (ending (handleCleanup env g w)))
      \/ In (Log "No changes to commit.")
           (trace (ending (handleCleanup env g w)))
      \/ In (Log ("Preview folder " ++ previewPath g
                  ++ " does not exist. Nothing to clean up."))
           (trace (ending (handleCleanup env g w)))).
Proof.
  split; intros Hc.
  - pose proof (generation_flow_shape g w) as Hs.
    rewrite generation_try in *.
    destruct (settled_event _ _
                (flow_concluded _ _ _ _ w (concluded_generation g) Hs Hc))
      as [Hp | (line & [<- | []] & Hl)]; auto.
  - pose proof (cleanup_flow_shape g w) as Hs.
    rewrite cleanup_try in *.
    destruct (settled_event _ _
                (flow_concluded _ _ _ _ w (concluded_cleanup g) Hs Hc))
      as [Hp | (line & [<- | [<- | []]] & Hl)]; auto.
Qed.

(** *** The token of the preview repository *)

Lemma tame_copyLoop_noExec tempDir targetDir htmlFiles :
  tame (ext:=ext) noExec (copyLoop tempDir targetDir htmlFiles).
Proof.
  induction htmlFiles as [| file rest IH]; cbn [copyLoop]; tame_tac.
Qed.

Lemma noExec_tokenIs tok e : noExec e = true -> tokenIs tok e = true.
Proof. destruct e; cbn; congruence. Qed.

Lemma sourceEvent_tokenIs tok e : sourceEvent e = true -> tokenIs tok e = true.
Proof. destruct e as [| | | | | [] ? | | | | |]; cbn; congruence. Qed.

Lemma commitEvent_tokenIs tok e : commitEvent e = true -> tokenIs tok e = true.
Proof. destruct e as [| | | | | [] ? | | | | |]; cbn; congruence. Qed.

Lemma closingEvent_tokenIs tok e :
  closingEvent e = true -> tokenIs tok e = true.
Proof. destruct e as [| | | | | [] ? | | | | |]; cbn; congruence. Qed.

Lemma tokenIs_flows (g : globals num) :
  traces (forallb (tokenIs (previewToken env)))
    (handlePreviewGeneration (ext:=ext) env g)
  /\ traces (forallb (tokenIs (previewToken env)))
       (handleCleanup (ext:=ext) env g).
Proof.
  split.
  - apply traces_generation;
      try exact (forallb_append (tokenIs (previewToken env)));
      try reflexivity.
    + apply (traces_class _ sourceEvent); [| apply tame_checkoutAndBuild].
      intros l0. apply forallb_weaken, sourceEvent_tokenIs.
    + apply (traces_class _ sourceEvent); [| apply tame_locate].
      intros l0. apply forallb_weaken, sourceEvent_tokenIs.
    + intros t p l. apply (traces_class _ (tokenIs (previewToken env)));
        [auto |].
      unfold stage. tame_tac; try tame_exec.
      apply (tame_weaken noExec); [apply noExec_tokenIs |].
      apply tame_copyLoop_noExec.
    + apply (traces_class _ commitEvent); [| apply tame_commitAndPush].
      intros l0. apply forallb_weaken, commitEvent_tokenIs.
    + intros dirs. apply (traces_class _ closingEvent);
        [| apply tame_removeScratch].
      intros l0. apply forallb_weaken, closingEvent_tokenIs.
  - apply traces_cleanup;
      try exact (forallb_append (tokenIs (previewToken env)));
      try reflexivity.
    + apply (traces_class _ (tokenIs (previewToken env))); [auto |].
      unfold enterPreview. tame_tac; try tame_exec.
    + intros p. apply (traces_class _ (tokenIs (previewToken env))); [auto |].
      unfold deleteAndStage. tame_tac.
    + apply (traces_class _ commitEvent); [| apply tame_commitRemoval].
      intros l0. apply forallb_weaken, commitEvent_tokenIs.
    + intros dirs. apply (traces_class _ closingEvent);
        [| apply tame_removeScratch].
      intros l0. apply forallb_weaken, closingEvent_tokenIs.
Qed.

(** The cleanup flow always attempts the clone of the preview
    repository. *)
Lemma cleanup_attempts_clone (g : globals num) (w : world ext) :
  exists dir x,
    In (Exec (ClonePreview (previewToken env) (previewRepoOwner g)
                (previewRepoName g) dir) x)
      (events (handleCleanup env g w)).
Proof.
  eexists _, _. unfold handleCleanup. apply in_tryCatch.
  unfold cleanup. apply in_bind_l. unfold enterPreview.
  eapply in_bind_r; [reflexivity |]. cbv beta zeta.
  eapply in_bind_r; [reflexivity |].
  apply in_bind_l. left. reflexivity.
Qed.

(** X22: a missing token is not detected.  When [PREVIEW_REPO_TOKEN] is
    unset or empty and [GITHUB_TOKEN] is unset, the flows go on with the
    text [undefined] for credentials: every clone of the preview
    repository in a run of either flow uses it, and the cleanup flow
    always attempts that clone. *)
Theorem missing_token_is_not_detected (g : globals num) (w : world ext) :
  PREVIEW_REPO_TOKEN env = None \/ PREVIEW_REPO_TOKEN env = Some "" ->
  GITHUB_TOKEN env = None ->
  (exists dir x,
     In (Exec (ClonePreview "undefined" (previewRepoOwner g)
                 (previewRepoName g) dir) x)
       (trace (ending (handleCleanup env g w))))
  /\ (forall (r : report (ext:=ext)) tok owner name dir x,
        r = ending (handlePreviewGeneration env g w)
        \/ r = ending (handleCleanup env g w) ->
        In (Exec (ClonePreview tok owner name dir) x) (trace r) ->
        tok = "undefined"
        /\ commandLine (ClonePreview tok owner name dir)
           = "git clone https://undefined@github.com/" ++ owner ++ "/" ++ name
             ++ ".git " ++ dir).
Proof.
  intros Hp Hg.
  assert (Htok : previewToken env = "undefined").
  { unfold previewToken. destruct Hp as [-> | ->]; cbn; now rewrite Hg. }
  split.
  - rewrite (shape_trace _ _ _ (cleanup_flow_shape g w)).
    rewrite <- Htok. apply cleanup_attempts_clone.
  - intros r tok owner name dir x Hr Hin.
    assert (Hc : tokenIs (previewToken env)
                   (Exec (ClonePreview tok owner name dir) x) = true).
    { destruct (tokenIs_flows g) as [Hgen Hcl].
      destruct Hr as [-> | ->].
      - rewrite (shape_trace _ _ _ (generation_flow_shape g w)) in Hin.
        exact (in_class _ _ _ (Hgen w) Hin).
      - rewrite (shape_trace _ _ _ (cleanup_flow_shape g w)) in Hin.
        exact (in_class _ _ _ (Hcl w) Hin). }
    cbn in Hc. apply String.eqb_eq in Hc. rewrite Htok in Hc. subst tok.
    split; reflexivity.
Qed.

(** *** The exit code of a flow, from what failed *)

Lemma accountable_quiet {A} (m : M ext A) :
  (forall w, existsb culprit (events (m w)) = false) ->
  (forall w e, result (m w) <> Throw e) ->
  accountable m.
Proof.
  intros Hq Hr w. rewrite Hq. split; [discriminate |].
  intros [e He]. now contradiction (Hr w e).
Qed.

Lemma accountable_bind {A B} (m : M ext A) (k : A -> M ext B) :
  accountable m -> (forall a, accountable (k a)) -> accountable (bind m k).
Proof.
  intros Hm Hk w. unfold bind, after. specialize (Hm w).
  destruct (result (m w)) as [a | e | c] eqn:R; cbn [events result].
  - rewrite existsb_app. rewrite <- (Hk a (final (m w))).
    destruct (existsb culprit (events (m w))) eqn:Hc; [| reflexivity].
    destruct (proj1 Hm eq_refl) as [e He]. discriminate He.
  - split; [eauto |]. intros _. apply Hm. eauto.
  - split; [| intros [e He]; discriminate He].
    intros Hc. destruct (proj1 Hm Hc) as [e He]. discriminate He.
Qed.

(** A [try] whose body fails only in ways its handler takes over. *)
Lemma accountable_tryCatch {A} (m : M ext A) (h : exn -> M ext A) :
  (forall w, existsb culprit (events (m w)) = false) ->
  (forall e, accountable (h e)) -> accountable (tryCatch m h).
Proof.
  intros Hm Hh w. unfold tryCatch.
  destruct (result (m w)) as [a | e | c] eqn:R; cbn [events result].
  - rewrite Hm, R. split; [discriminate | intros [e He]; discriminate He].
  - rewrite existsb_app, Hm. cbn [orb]. apply Hh.
  - rewrite Hm, R. split; [discriminate | intros [e He]; discriminate He].
Qed.

Lemma accountable_pointwise {A} (m m' : M ext A) :
  (forall w, m w = m' w) -> accountable m' -> accountable m.
Proof. intros E Hm w. rewrite E. apply Hm. Qed.

Lemma accountable_execSync c :
  (forall msg, recovered c msg = false) -> accountable (ext:=ext) (execSync c).
Proof.
  intros Hc w. unfold execSync. cbn [events result existsb culprit].
  destruct (failure c w) as [m |].
  - rewrite Hc. cbn. split; eauto.
  - cbn. split; [discriminate | intros [e He]; discriminate He].
Qed.

Lemma accountable_chdir d : accountable (ext:=ext) (chdir d).
Proof.
  intros w. unfold chdir. destruct (Fs.isDir _); cbn.
  - split; [discriminate | intros [e He]; discriminate He].
  - split; eauto.
Qed.

Lemma accountable_mkdirSync p : accountable (ext:=ext) (mkdirSync p).
Proof.
  intros w. unfold mkdirSync. destruct (Fs.mkdirp _ _); cbn.
  - split; [discriminate | intros [e He]; discriminate He].
  - split; eauto.
Qed.

Lemma accountable_copyFileSync src dest :
  accountable (ext:=ext) (copyFileSync src dest).
Proof.
  intros w. unfold copyFileSync.
  destruct (Fs.at_path _ _ _) as [[content | es |] |];
    try destruct (Fs.write _ _ _); cbn;
    first [ split; [discriminate | intros [e He]; discriminate He]
          | split; eauto ].
Qed.

Lemma accountable_findHtmlFiles dir : accountable (ext:=ext) (findHtmlFiles dir).
Proof.
  intros w. unfold findHtmlFiles. destruct (walked dir w); cbn.
  - split; [discriminate | intros [e He]; discriminate He].
  - split; eauto.
Qed.

Ltac quiet_tac :=
  apply accountable_quiet;
  [ intros ?; reflexivity | intros ? ?; discriminate ].

Lemma accountable_render {B} (v : Js.value num) (k : string -> M ext B) :
  Js.renders v = true -> accountable (k (Js.text v)) ->
  accountable (bind (lift (Js.toString v)) k).
Proof. intros Hv Hk w. rewrite (bind_toString _ _ _ Hv). apply Hk. Qed.

Lemma isText_renders (v : Js.value num) :
  isText v = true -> Js.renders v = true.
Proof. destruct v; try discriminate; reflexivity. Qed.

Ltac accountable_step :=
  first
    [ assumption
    | match goal with
      | |- accountable (bind (lift (Js.toString _)) _) =>
          apply accountable_render; [assumption |]
      | |- accountable (bind _ _) => apply accountable_bind; [| intros ?]
      | |- accountable (execSync _) =>
          apply accountable_execSync; intros ?; reflexivity
      | |- accountable (chdir _) => apply accountable_chdir
      | |- accountable (mkdirSync _) => apply accountable_mkdirSync
      | |- accountable (copyFileSync _ _) => apply accountable_copyFileSync
      | |- accountable (findHtmlFiles _) => apply accountable_findHtmlFiles
      | |- accountable (if ?b then _ else _) => destruct b
      | |- accountable (let _ := _ in _) => cbv zeta
      | |- accountable (buildLoop _) => fail 2
      | |- accountable (locate _) => fail 2
      | |- accountable (copyLoop _ _ _) => fail 2
      | |- accountable (commitStep _ _) => fail 2
      end
    | quiet_tac ].

Ltac accountable_tac :=
  unfold console_log, console_warn, console_error, console_error_with;
  repeat accountable_step.

Lemma accountable_buildLoop scripts : accountable (ext:=ext) (buildLoop scripts).
Proof.
  induction scripts as [| script rest IH]; cbn [buildLoop].
  - accountable_tac.
  - destruct (commandStyle script).
    + apply accountable_tryCatch; [| intros _; exact IH].
      intros w. unfold bind, after, execSync, console_log, emit.
      cbn [result final events].
      destruct (failure (BuildCommand script) w); reflexivity.
    + accountable_tac.
Qed.

Lemma accountable_locate dirs : accountable (ext:=ext) (locate dirs).
Proof. induction dirs as [| dir rest IH]; cbn [locate]; accountable_tac. Qed.

Lemma accountable_copyLoop tempDir targetDir htmlFiles :
  accountable (ext:=ext) (copyLoop tempDir targetDir htmlFiles).
Proof.
  induction htmlFiles as [| file rest IH]; cbn [copyLoop]; accountable_tac.
Qed.

Lemma accountable_commitStep text done :
  accountable (ext:=ext) (commitStep (inr text) done).
Proof.
  intros w.
  unfold commitStep, tryCatch, bind, after, lift, toleratingNoChanges.
  cbn.
  destruct (failure (Commit text) w) as [m |]; cbn.
  - destruct (Str.includes "nothing to commit" m) eqn:Hm; cbn; rewrite ?Hm; cbn.
    + split; [discriminate | intros [e He]; discriminate He].
    + split; eauto.
  - destruct (failure Push (afterExec (Commit text) w)) as [m |]; cbn.
    + destruct (Str.includes "nothing to commit" m) eqn:Hm; cbn; rewrite ?Hm;
        cbn.
      * split; [discriminate | intros [e He]; discriminate He].
      * split; eauto.
    + split; [discriminate | intros [e He]; discriminate He].
Qed.

Lemma accountable_generation (g : globals num) :
  converts g = true -> isText (commitSha g) = true ->
  accountable (ext:=ext) (generation env g).
Proof.
  intros Hg Ht. unfold converts in Hg.
  repeat rewrite andb_true_iff in Hg. destruct Hg as [[Hname Hnumber] Hfull].
  pose proof (isText_renders _ Ht) as Hsha.
  unfold generation, checkoutAndBuild, publish, stage, removeScratch.
  accountable_tac.
  - apply accountable_buildLoop.
  - apply accountable_locate.
  - apply accountable_copyLoop.
  - apply (accountable_pointwise _ _ (commitAndPush_step g)).
    unfold updateText.
    rewrite (toString_renders _ Hname), (toString_renders _ Hnumber).
    destruct (commitSha g); try discriminate Ht. cbn [shortSha].
    apply accountable_commitStep.
Qed.

Lemma accountable_cleanup (g : globals num) :
  converts g = true -> accountable (ext:=ext) (cleanup env g).
Proof.
  intros Hg. unfold converts in Hg.
  repeat rewrite andb_true_iff in Hg. destruct Hg as [[Hname Hnumber] Hfull].
  unfold cleanup, enterPreview, removePreview, deleteAndStage, removeScratch.
  accountable_tac.
  apply (accountable_pointwise _ _ (commitRemoval_step g)).
  unfold removalText.
  rewrite (toString_renders _ Hname), (toString_renders _ Hnumber).
  apply accountable_commitStep.
Qed.

Lemma exitsAfter_tame {A} line (P : event -> bool) (m : M ext A) :
  tame P m -> exitsAfter line m.
Proof. intros Hm w c Hc. destruct (Hm w) as [_ X]. now contradiction (X c). Qed.

Lemma exitsAfter_bind {A B} line (m : M ext A) (k : A -> M ext B) :
  exitsAfter line m -> (forall a, exitsAfter line (k a)) ->
  exitsAfter line (bind m k).
Proof.
  intros Hm Hk w c. unfold bind, after.
  destruct (result (m w)) as [a | e | c'] eqn:R; cbn [events result].
  - intros Hc. apply in_or_app. right. exact (Hk a _ c Hc).
  - discriminate.
  - intros _. exact (Hm w c' R).
Qed.

Lemma exitsAfter_generation (g : globals num) :
  exitsAfter (ext:=ext)
    "No HTML files found. Build script may not have generated output."
    (generation env g).
Proof.
  unfold generation.
  apply exitsAfter_bind; [exact (exitsAfter_tame _ _ _ (tame_checkoutAndBuild g)) |].
  intros dirs.
  apply exitsAfter_bind; [exact (exitsAfter_tame _ _ _ (tame_locate htmlDirs)) |].
  intros l. destruct (List.length l =? 0)%nat.
  - intros w c _. left. reflexivity.
  - unfold publish.
    apply exitsAfter_bind; [exact (exitsAfter_tame _ _ _ (tame_stage g _ _ _)) |].
    intros _.
    apply exitsAfter_bind; [exact (exitsAfter_tame _ _ _ (tame_commitAndPush g)) |].
    intros _. exact (exitsAfter_tame _ _ _ (tame_removeScratch _)).
Qed.

Lemma tame_cleanup (g : globals num) :
  tame (ext:=ext) (fun _ => true) (cleanup env g).
Proof.
  unfold cleanup, enterPreview, removePreview, deleteAndStage, commitRemoval,
    removeScratch.
  tame_tac.
  apply (tame_weaken commitEvent); [auto | apply tame_toleratingNoChanges].
Qed.

(** The constants of a valid event whose full name converts to text
    convert: these are the constants the router hands to a flow. *)
Lemma globalsOf_converts (payload : Js.value num) :
  Js.valid payload = true ->
  Js.renders (Js.prop (Js.prop payload "repository") "full_name") = true ->
  converts (globalsOf cfg payload) = true.
Proof.
  intros Hv Hfull. unfold Js.valid in Hv.
  repeat rewrite andb_true_iff in Hv. destruct Hv as [[_ Hname] Hnumber].
  unfold converts, globalsOf. cbn [repoName prNumber repoFullName].
  now rewrite Hname, Hnumber, Hfull.
Qed.

(** The exit code of a flow whose body throws exactly when a step failed
    and exits only after the line [line]. *)
Lemma flow_failure label dirs line (body : M ext unit) (w : world ext) :
  accountable body -> exitsAfter line body ->
  flowShape label dirs
    (tryCatch body (fun error => console_error_with label error ;; exit 1%Z) w) ->
  exitCode (ending (tryCatch body
                      (fun error => console_error_with label error ;; exit 1%Z)
                      w)) = 1%Z
  <-> existsb culprit
        (trace (ending (tryCatch body
                          (fun error => console_error_with label error ;; exit 1%Z)
                          w))) = true
      \/ In (Error line)
           (trace (ending (tryCatch body
                             (fun error => console_error_with label error ;; exit 1%Z)
                             w))).
Proof.
  intros Hacc Hexit Hs.
  rewrite (shape_trace _ _ _ Hs).
  specialize (Hacc w). specialize (Hexit w).
  destruct (body w) as [eb wb [a | e | c]] eqn:Eb; cbn [events result] in *.
  - rewrite (tryCatch_run_ret _ _ _ _ _ _ Eb) in *.
    unfold ending. cbn [result exitCode events].
    split; [discriminate |]. intros [Hc | Hin]; exfalso.
    + destruct (proj1 Hacc Hc) as [e He]. discriminate He.
    + destruct Hs as [pre committed e _ _ _ _ _ Hres
                     | pre committed fl Hpre Hcom _ Hev Hres];
        cbn [events result] in *; [discriminate Hres |].
      destruct fl as [m |]; [discriminate Hres |].
      rewrite Hev in Hin.
      apply in_app_or in Hin as [Hin | Hin].
      * pose proof (in_class _ _ _ Hpre Hin) as Hx. discriminate Hx.
      * apply in_app_or in Hin as [Hin | Hin].
        -- pose proof (in_class _ _ _ Hcom Hin) as Hx. discriminate Hx.
        -- cbn in Hin. intuition discriminate.
  - rewrite (tryCatch_run_throw _ _ _ _ _ _ Eb) in *.
    unfold ending. cbn. split; [| reflexivity].
    intros _. left. rewrite existsb_app. rewrite (proj2 Hacc); eauto.
  - rewrite (tryCatch_run_exit _ _ _ _ _ _ Eb) in *.
    destruct (shape_result _ _ _ Hs) as [Hr | Hr]; cbn [result] in Hr;
      [discriminate Hr |].
    injection Hr as ->.
    unfold ending. cbn [result exitCode events]. split; [| reflexivity].
    intros _. right. exact (Hexit _ eq_refl).
Qed.

(** X23: a flow fails exactly when one of its steps failed, for the
    constants the top level hands to a flow (the repository name, the
    number and the full name convert to text).  The cleanup flow ends
    with exit code 1 if and only if its trace holds a step that failed
    and that the code does not recover from: a command (the failures of
    [recovered] apart), or a change of directory.  The generation flow of
    an event whose head commit is a string ends with exit code 1 if and
    only if its trace holds such a step (a command, a change of
    directory, the making of a directory, a copy, the reading of a
    candidate directory) or the line "No HTML files found ...". *)
Theorem flow_fails_iff_a_step_failed (g : globals num) (w : world ext) :
  converts g = true ->
  (exitCode (ending (handleCleanup env g w)) = 1%Z
   <-> existsb culprit (trace (ending (handleCleanup env g w))) = true)
  /\ (isText (commitSha g) = true ->
      (exitCode (ending (handlePreviewGeneration env g w)) = 1%Z
       <-> existsb culprit
             (trace (ending (handlePreviewGeneration env g w))) = true
           \/ In (Error "No HTML files found. Build script may not have generated output.")
                (trace (ending (handlePreviewGeneration env g w))))).
Proof.
  intros Hg. split.
  - pose proof (cleanup_flow_shape g w) as Hs.
    assert (Hno : ~ In (Error "")
                      (trace (ending (handleCleanup env g w)))).
    { rewrite (shape_trace _ _ _ Hs). intros Hin.
      assert (Hall : forallb (fun e => match e with
                                       | Error _ => false
                                       | _ => true
                                       end)
                       (events (handleCleanup env g w)) = true).
      { apply cleanup_events; try reflexivity;
          intros [| | | | | [] ? | | | | |]; cbn; congruence. }
      pose proof (in_class _ _ _ Hall Hin) as Hx. discriminate Hx. }
    rewrite cleanup_try in *.
    rewrite (flow_failure _ _ "" (cleanup env g) w (accountable_cleanup g Hg)
               (exitsAfter_tame _ _ _ (tame_cleanup g)) Hs).
    tauto.
  - intros Ht. pose proof (generation_flow_shape g w) as Hs.
    rewrite generation_try in *.
    exact (flow_failure _ _ _ (generation env g) w
             (accountable_generation g Hg Ht)
             (exitsAfter_generation g) Hs).
Qed.

(** *** The line that announces success *)








End Properties.

(** * Concrete runs *)

Lemma occurs_In e l : occurs e l = true -> In e l.
Proof. unfold occurs. destruct (in_dec event_eq_dec e l); [auto | discriminate]. Qed.

Lemma absent_by (p : event -> bool) l e :
  existsb p l = false -> p e = true -> ~ In e l.
Proof.
  intros Hl He Hin.
  assert (Hex : existsb p l = true) by (apply existsb_exists; eauto).
  congruence.
Qed.

Lemma all_by (p : event -> bool) l e :
  forallb p l = true -> In e l -> p e = true.
Proof. intros Hl Hin. rewrite forallb_forall in Hl. auto. Qed.

Ltac by_run := vm_compute; reflexivity.

(** C2: on scenario 1 of the specification the artifact [dist/index.html]
    is found, but the Publisher, which has changed into the preview
    working tree by then, resolves the relative path against it: the copy
    is attempted from [dist/index.html] of the preview working tree to
    [docs-site/preview-repo-1001/dist/index.html], not to
    [docs-site/42/dist/index.html]; it fails, nothing is placed under the
    preview path and the process exits with code 1. *)
Theorem artifact_is_not_mirrored :
  let r := invoke Demo.cfg Demo.env (Demo.payload "opened" "docs-site" Demo.sha)
             (Demo.start Demo.scenario1) in
  In (Walk "dist" (Some ["dist/index.html"])) (trace r)
  /\ In (Chdir "/tmp/preview-repo-1001" true) (trace r)
  /\ In (CopyFile "dist/index.html"
           "/tmp/preview-repo-1001/docs-site/preview-repo-1001/dist/index.html"
           false) (trace r)
  /\ (forall src ok,
        ~ In (CopyFile src "/tmp/preview-repo-1001/docs-site/42/dist/index.html" ok)
            (trace r))
  /\ found "/tmp/preview-repo-1001/docs-site/42/dist/index.html" (endWorld r)
     = false
  /\ exitCode r = 1%Z.
Proof.
  cbv zeta.
  split; [apply occurs_In; by_run |].
  split; [apply occurs_In; by_run |].
  split; [apply occurs_In; by_run |].
  split.
  { intros src ok.
    apply (absent_by
             (fun e => match e with
                       | CopyFile _ dest _ =>
                           String.eqb dest
                             "/tmp/preview-repo-1001/docs-site/42/dist/index.html"
                       | _ => false
                       end)); by_run. }
  split; by_run.
Qed.

Lemma missing_field_is_fatal_witness :
  Js.missing Demo.noPullRequest "pull_request" = true
  /\ exitCode (invoke Demo.cfg Demo.env Demo.noPullRequest
                 (Demo.start Demo.scenario1)) = 1%Z.
Proof.
  split; [by_run |].
  apply (missing_field_is_fatal Demo.cfg Demo.env Demo.noPullRequest
           (Demo.start Demo.scenario1)).
  by_run.
Defined.


(** C10, as stated, fails: an event whose [pull_request.head] is an object
    without [sha] does not throw; for an unmonitored repository the
    invocation is skipped with exit code 0. *)
Lemma missing_sha_does_not_throw :
  Js.wellFormed (Demo.payload "closed" "random-repo" (Js.Obj [])) = true
  /\ Js.prop (Js.prop (Js.prop (Demo.payload "closed" "random-repo" (Js.Obj []))
                         "pull_request") "head") "sha" = Js.Undefined
  /\ exitCode (invoke Demo.cfg Demo.env
                 (Demo.payload "closed" "random-repo" (Js.Obj []))
                 (Demo.start Demo.scenario1)) = 0%Z
  /\ trace (invoke Demo.cfg Demo.env
              (Demo.payload "closed" "random-repo" (Js.Obj []))
              (Demo.start Demo.scenario1))
     = [Log "Repository random-repo is not in monitored list. Skipping."].
Proof.
  split; [by_run |]. split; [by_run |]. split; by_run.
Qed.

Lemma missing_head_throws_before_filter_witness :
  Js.prop (Js.prop Demo.noHead "pull_request") "head" = Js.Undefined
  /\ exitCode (invoke Demo.cfg Demo.env Demo.noHead (Demo.start Demo.scenario1))
     = 1%Z.
Proof.
  split; [by_run |].
  apply (missing_head_throws_before_filter Demo.cfg Demo.env Demo.noHead
           (Demo.start Demo.scenario1)); by_run.
Defined.


Lemma no_artifacts_is_fatal_witness :
  exitCode (ending (handlePreviewGeneration Demo.env Demo.g
                      (Demo.start Demo.noArtifacts))) = 1%Z.
Proof.
  apply (no_artifacts_is_fatal Demo.env Demo.g (Demo.start Demo.noArtifacts)).
  intros dir l Hin.
  apply (all_by (fun e => match e with
                          | Walk _ (Some (_ :: _)) => false
                          | _ => true
                          end)) in Hin; [| by_run].
  destruct l; [reflexivity | discriminate Hin].
Defined.

Lemma absent_preview_is_noop_witness :
  exists previewDir fl,
    [previewDir] = cleanupScratch (Demo.start Demo.scenario1)
    /\ "/tmp/preview-repo-cleanup-1000/docs-site/42"
       = Path.join [previewDir; previewPath Demo.g]
    /\ (fl = None \/ fl = Some (commandFailed (RemoveScratch [previewDir])))
    /\ trace (ending (handleCleanup Demo.env Demo.g (Demo.start Demo.scenario1)))
       = List.app
           [ Log ("Cloning preview repository " ++ previewRepoOwner Demo.g ++ "/"
                  ++ previewRepoName Demo.g ++ "...");
             Exec (ClonePreview (previewToken Demo.env) (previewRepoOwner Demo.g)
                     (previewRepoName Demo.g) previewDir) None;
             Chdir previewDir true;
             Exists "/tmp/preview-repo-cleanup-1000/docs-site/42" false;
             Log ("Preview folder " ++ previewPath Demo.g
                  ++ " does not exist. Nothing to clean up.");
             Chdir "/" true;
             Exec (RemoveScratch [previewDir]) fl ]
           match fl with
           | None => []
           | Some m => [ErrorWith "Error during cleanup:" (Exn m)]
           end
    /\ exitCode (ending (handleCleanup Demo.env Demo.g (Demo.start Demo.scenario1)))
       = match fl with
         | None => 0%Z
         | Some _ => 1%Z
         end.
Proof.
  apply (absent_preview_is_noop Demo.env Demo.g (Demo.start Demo.scenario1)
           "/tmp/preview-repo-cleanup-1000/docs-site/42").
  apply occurs_In. by_run.
Defined.

(** C8, as stated, fails: the preview folder of the pull request is not in
    the preview repository and the Remover deletes, commits and pushes
    nothing, but the removal of its scratch directory fails; the process
    exits with code 1 and the scratch directory is still there. *)
Lemma absent_preview_can_exit_1 :
  let r := invoke Demo.cfg Demo.env Cases.closed (Demo.start Cases.stuck) in
  In (Exists "/tmp/preview-repo-cleanup-1000/docs-site/42" false) (trace r)
  /\ existsb isDelete (trace r) = false
  /\ existsb isCommit (trace r) = false
  /\ existsb isPush (trace r) = false
  /\ In (Exec (RemoveScratch ["/tmp/preview-repo-cleanup-1000"])
           (Some "Command failed: rm -rf /tmp/preview-repo-cleanup-1000"))
       (trace r)
  /\ exitCode r = 1%Z
  /\ found "/tmp/preview-repo-cleanup-1000" (endWorld r) = true.
Proof.
  cbv zeta. split; [apply occurs_In; by_run |].
  split; [by_run |]. split; [by_run |]. split; [by_run |].
  split; [apply occurs_In; by_run |]. split; by_run.
Qed.

Lemma failed_commit_is_fatal_witness :
  exitCode (ending (handlePreviewGeneration Demo.env Demo.g
                      (Demo.start Demo.unchanged))) = 1%Z
  /\ exitCode (ending (handleCleanup Demo.env Demo.g
                         (Demo.start Demo.unchanged))) = 1%Z.
Proof.
  split.
  - destruct (failed_commit_is_fatal Demo.env Demo.g
                (Demo.start Demo.unchanged) _
                "Update preview for docs-site#42 (abc1234)"
                (commandFailed
                   (Commit "Update preview for docs-site#42 (abc1234)"))
                (or_introl eq_refl))
      as (_ & _ & Hc).
    + apply occurs_In. by_run.
    + by_run.
    + exact Hc.
  - destruct (failed_commit_is_fatal Demo.env Demo.g
                (Demo.start Demo.unchanged) _
                "Remove preview for docs-site#42"
                (commandFailed (Commit "Remove preview for docs-site#42"))
                (or_intror eq_refl))
      as (_ & _ & Hc).
    + apply occurs_In. by_run.
    + by_run.
    + exact Hc.
Defined.



(** C1, as stated, fails: a script-path candidate that exists and whose
    execution fails ends the whole flow with exit code 1; the Artifact
    Locator is never reached (no probe of [dist]), although [dist] holds a
    markup file. *)
Lemma failing_script_ends_the_flow :
  let r := invoke Demo.cfg Demo.env (Demo.payload "opened" "docs-site" Demo.sha)
             (Demo.start Demo.brokenScript) in
  In (Exec (BuildScript "build-docs.sh")
        (Some "Command failed: chmod +x build-docs.sh && ./build-docs.sh"))
    (trace r)
  /\ exitCode r = 1%Z
  /\ (forall b, ~ In (Exists "dist" b) (trace r))
  /\ found "/tmp/preview-1000/dist/index.html" (endWorld r) = true.
Proof.
  cbv zeta. split; [apply occurs_In; by_run |].
  split; [by_run |]. split; [| by_run].
  intros b.
  apply (absent_by (fun e => match e with
                             | Exists p _ => String.eqb p "dist"
                             | _ => false
                             end)); by_run.
Qed.

Lemma command_failures_are_recovered_witness :
  buildLoop ["npm run build-docs"; "./generate.sh"] (Demo.start Demo.scenario1)
  = prepend [ Log "Trying: npm run build-docs";
              Exec (BuildCommand "npm run build-docs")
                (Some "Command failed: npm run build-docs") ]
      (buildLoop ["./generate.sh"]
         (afterExec (BuildCommand "npm run build-docs")
            (Demo.start Demo.scenario1)))
  /\ result (buildLoop buildScripts Demo.brokenTree)
     = Throw (Exn "Command failed: chmod +x build-docs.sh && ./build-docs.sh")
  /\ exists b,
       In (Exists "dist" b)
         (trace (ending (handlePreviewGeneration Demo.env Demo.g
                           (Demo.start Demo.scenario1)))).
Proof.
  destruct (command_failures_are_recovered (num:=Z) (ext:=Demo.script) Demo.env)
    as (Hstep & Hscript & Hflow).
  split; [| split].
  - apply (Hstep "npm run build-docs" ["./generate.sh"]
             (Demo.start Demo.scenario1) "Command failed: npm run build-docs");
      by_run.
  - unfold buildScripts.
    rewrite (Hscript "build-docs.sh" _ Demo.brokenTree
               "Command failed: chmod +x build-docs.sh && ./build-docs.sh");
      [reflexivity | by_run | by_run | by_run].
  - apply (Hflow Demo.g (Demo.start Demo.scenario1) "abc1234def").
    + apply occurs_In. by_run.
    + intros s m.
      apply (absent_by (fun e => match e with
                                 | Exec (BuildScript _) (Some _) => true
                                 | _ => false
                                 end)); by_run.
Defined.

(** ** Concrete runs of the further properties *)

Lemma falsy_field_is_rejected_witness :
  Js.truthy (Js.prop Cases.emptyAction "action") = false
  /\ trace (invoke Demo.cfg Demo.env Cases.emptyAction
              (Demo.start Demo.scenario1))
     = [Error "Missing required event payload fields"].
Proof.
  split; [by_run |].
  apply (falsy_field_is_rejected Demo.cfg Demo.env Cases.emptyAction
           (Demo.start Demo.scenario1)); by_run.
Defined.

Lemma missing_owner_throws_before_filter_witness :
  Js.prop (Js.prop Cases.noOwner "repository") "owner" = Js.Undefined
  /\ exitCode (invoke Demo.cfg Demo.env Cases.noOwner
                 (Demo.start Demo.scenario1)) = 1%Z.
Proof.
  split; [by_run |].
  apply (missing_owner_throws_before_filter Demo.cfg Demo.env Cases.noOwner
           (Demo.start Demo.scenario1)); by_run.
Defined.

Lemma unhandled_action_is_skipped_witness :
  exitCode (invoke Demo.cfg Demo.env Cases.reopened (Demo.start Demo.scenario1))
  = 0%Z
  /\ trace (invoke Demo.cfg Demo.env Cases.reopened (Demo.start Demo.scenario1))
     = [ Log "Processing PR #42 from acme/docs-site (action: reopened)";
         Log "Action reopened not handled. Skipping." ].
Proof.
  assert (Hwf : Js.valid Cases.reopened = true) by by_run.
  assert (Hfull : Js.renders
                    (Js.prop (Js.prop Cases.reopened "repository") "full_name")
                  = true) by by_run.
  assert (Hrender : Js.renders (Js.prop Cases.reopened "action") = true)
    by by_run.
  assert (Hin : Js.includedIn
                  (Js.prop (Js.prop Cases.reopened "repository") "name")
                  (monitoredRepositories Demo.cfg) = true) by by_run.
  assert (Hact : Js.isString (Js.prop Cases.reopened "action") "opened"
                 || Js.isString (Js.prop Cases.reopened "action") "synchronize"
                 || Js.isString (Js.prop Cases.reopened "action") "closed"
                 || Js.isString (Js.prop Cases.reopened "action") "merged"
                 = false) by by_run.
  destruct (unhandled_action_is_skipped Demo.cfg Demo.env Cases.reopened
              (Demo.start Demo.scenario1) Hwf Hfull Hrender Hin Hact)
    as (Hc & _ & Ht).
  split; [exact Hc |]. rewrite Ht. by_run.
Defined.

Lemma router_runs_the_flow_of_the_action_witness :
  invoke Demo.cfg Demo.env Cases.closed (Demo.start Demo.published)
  = Report
      (Log "Processing PR #42 from acme/docs-site (action: closed)"
       :: trace (ending (handleCleanup Demo.env (globalsOf Demo.cfg Cases.closed)
                           (Demo.start Demo.published))))
      (endWorld (ending (handleCleanup Demo.env (globalsOf Demo.cfg Cases.closed)
                           (Demo.start Demo.published))))
      (exitCode (ending (handleCleanup Demo.env (globalsOf Demo.cfg Cases.closed)
                           (Demo.start Demo.published)))).
Proof.
  assert (Hwf : Js.valid Cases.closed = true) by by_run.
  assert (Hfull : Js.renders
                    (Js.prop (Js.prop Cases.closed "repository") "full_name")
                  = true) by by_run.
  assert (Hin : Js.includedIn
                  (Js.prop (Js.prop Cases.closed "repository") "name")
                  (monitoredRepositories Demo.cfg) = true) by by_run.
  apply (router_runs_the_flow_of_the_action Demo.cfg Demo.env Cases.closed
           (Demo.start Demo.published) Hwf Hfull Hin).
  by_run.
Defined.

Lemma unrecovered_failure_is_fatal_witness :
  exitCode (ending (handleCleanup Demo.env Demo.g (Demo.start Cases.stuck)))
  = 1%Z.
Proof.
  apply (unrecovered_failure_is_fatal Demo.env Demo.g (Demo.start Cases.stuck) _
           (RemoveScratch ["/tmp/preview-repo-cleanup-1000"])
           "Command failed: rm -rf /tmp/preview-repo-cleanup-1000"
           (or_intror eq_refl)).
  - apply occurs_In. by_run.
  - by_run.
Defined.

Lemma push_follows_successful_commit_witness :
  exists pre' t,
    [ Log "Cloning preview repository acme/previews...";
      Exec (ClonePreview "TOKEN" "acme" "previews"
              "/tmp/preview-repo-cleanup-1000") None;
      Chdir "/tmp/preview-repo-cleanup-1000" true;
      Exists "/tmp/preview-repo-cleanup-1000/docs-site/42" true;
      Log "Deleting docs-site/42...";
      Exec (DeleteTarget "/tmp/preview-repo-cleanup-1000/docs-site/42") None;
      Log "Committing deletion..."; Exec ConfigUserName None;
      Exec ConfigUserEmail None; Exec AddAll None;
      Exec (Commit "Remove preview for docs-site#42") None ]
    = List.app pre' [Exec (Commit t) None].
Proof.
  apply (push_follows_successful_commit Demo.env Demo.g
           (Demo.start Demo.published) _ _
           [ Log "Preview cleanup completed!"; Chdir "/" true;
             Exec (RemoveScratch ["/tmp/preview-repo-cleanup-1000"]) None ]
           None (or_intror eq_refl)).
  by_run.
Defined.

Lemma sha_that_is_no_string_never_publishes_witness :
  commitSha (globalsOf Demo.cfg Cases.noSha) = Js.Undefined
  /\ In (Exec (AddPath "docs-site/42") None)
       (trace (ending (handlePreviewGeneration Demo.env
                         (globalsOf Demo.cfg Cases.noSha)
                         (Demo.start Demo.unchanged))))
  /\ exitCode (ending (handlePreviewGeneration Demo.env
                         (globalsOf Demo.cfg Cases.noSha)
                         (Demo.start Demo.unchanged))) = 1%Z
  /\ existsb isCommit
       (trace (ending (handlePreviewGeneration Demo.env
                         (globalsOf Demo.cfg Cases.noSha)
                         (Demo.start Demo.unchanged)))) = false.
Proof.
  split; [by_run |]. split; [apply occurs_In; by_run |].
  destruct (sha_that_is_no_string_never_publishes Demo.env
              (globalsOf Demo.cfg Cases.noSha) (Demo.start Demo.unchanged))
    as (Hc & Hcommit & _).
  - by_run.
  - split; [exact Hc | exact Hcommit].
Defined.

Lemma candidate_that_is_no_directory_aborts_witness :
  result (locate htmlDirs Cases.buildIsFile)
  = Throw (Exn "ENOTDIR: not a directory, scandir 'build'")
  /\ locate htmlDirs Cases.buildIsFile
     = locate ["dist"; "output"; "docs/html"; "build"] Cases.buildIsFile.
Proof.
  apply (candidate_that_is_no_directory_aborts ["dist"; "output"; "docs/html"]
           "build" ["html"; "."] Cases.buildIsFile).
  - intros c [<- | [<- | [<- | []]]]; left; by_run.
  - by_run.
  - by_run.
Defined.

Lemma build_runs_listed_candidates_only_witness :
  exists s,
    In s buildScripts
    /\ ((commandStyle s = true /\ BuildScript "build.sh" = BuildCommand s)
        \/ (commandStyle s = false /\ BuildScript "build.sh" = BuildScript s
            /\ In (Exists s true) (events (buildLoop buildScripts Cases.scripted)))).
Proof.
  apply (build_runs_listed_candidates_only buildScripts Cases.scripted
           (BuildScript "build.sh") None).
  apply occurs_In. by_run.
Defined.


Lemma findHtmlFiles_yields_html_only_witness :
  result (findHtmlFiles "output" Demo.candidates)
  = Ret ["output/a.html"; "output/b.html"; "output/sub/c.html"]
  /\ Str.endsWith ".html" "output/sub/c.html" = true.
Proof.
  split; [by_run |].
  apply (findHtmlFiles_yields_html_only "output" Demo.candidates
           ["output/a.html"; "output/b.html"; "output/sub/c.html"]
           "output/sub/c.html").
  - by_run.
  - right. right. left. reflexivity.
Defined.

Lemma only_html_files_are_copied_witness :
  In (CopyFile "dist/index.html"
        "/tmp/preview-repo-1001/docs-site/preview-repo-1001/dist/index.html"
        false)
    (trace (ending (handlePreviewGeneration Demo.env Demo.g
                      (Demo.start Demo.scenario1))))
  /\ Str.endsWith ".html" "dist/index.html" = true.
Proof.
  assert (Hin : In (CopyFile "dist/index.html"
                      "/tmp/preview-repo-1001/docs-site/preview-repo-1001/dist/index.html"
                      false)
                  (trace (ending (handlePreviewGeneration Demo.env Demo.g
                                    (Demo.start Demo.scenario1)))))
    by (apply occurs_In; by_run).
  split; [exact Hin |].
  exact (only_html_files_are_copied Demo.env Demo.g (Demo.start Demo.scenario1)
           _ _ _ Hin).
Defined.


Lemma failed_push_is_fatal_witness :
  exitCode (ending (handleCleanup Demo.env Demo.g (Demo.start Cases.refusedPush)))
  = 1%Z.
Proof.
  destruct (failed_push_is_fatal Demo.env Demo.g
              (Demo.start Cases.refusedPush) _
              "Command failed: git push origin main" (or_intror eq_refl))
    as [_ Hc].
  - apply occurs_In. by_run.
  - exact Hc.
Defined.

Lemma missing_token_is_not_detected_witness :
  exists dir x,
    In (Exec (ClonePreview "undefined" "acme" "previews" dir) x)
      (trace (ending (handleCleanup Cases.noToken Demo.g
                        (Demo.start Demo.scenario1)))).
Proof.
  destruct (missing_token_is_not_detected Cases.noToken Demo.g
              (Demo.start Demo.scenario1) (or_introl eq_refl) eq_refl)
    as [Hclone _].
  exact Hclone.
Defined.

Lemma search_finds_nothing_iff_witness :
  result (locate htmlDirs Cases.bare) = Ret [].
Proof.
  apply (search_finds_nothing_iff htmlDirs Cases.bare).
  intros d [<- | [<- | [<- | [<- | [<- | [<- | []]]]]]];
    first [left; by_run | right; by_run].
Defined.

Lemma build_stops_at_first_success_witness :
  exists pre c,
    events (buildLoop buildScripts Cases.scripted) = List.app pre [Exec c None]
    /\ isBuilt (Exec c None) = true
    /\ existsb isBuilt pre = false.
Proof.
  apply (proj1 (build_stops_at_first_success buildScripts Cases.scripted)).
  by_run.
Defined.

Lemma copies_resolve_against_the_working_directory_witness :
  copies (events (copyLoop "/src" "/out" ["/src/a.html"] Cases.copying))
  = [("/src/a.html", "/out/a.html", true)].
Proof.
  rewrite (proj2 (copies_resolve_against_the_working_directory
                    "/src" "/out" ["/src/a.html"] Cases.copying)); by_run.
Defined.

Lemma success_means_pushed_or_nothing_to_do_witness :
  In (Exec Push None)
    (trace (ending (handleCleanup Demo.env Demo.g (Demo.start Demo.published))))
  \/ In (Log "No changes to commit.")
       (trace (ending (handleCleanup Demo.env Demo.g (Demo.start Demo.published))))
  \/ In (Log ("Preview folder " ++ previewPath Demo.g
              ++ " does not exist. Nothing to clean up."))
       (trace (ending (handleCleanup Demo.env Demo.g (Demo.start Demo.published)))).
Proof.
  apply (proj2 (success_means_pushed_or_nothing_to_do Demo.env Demo.g
                  (Demo.start Demo.published))).
  by_run.
Defined.

Lemma flow_fails_iff_a_step_failed_witness :
  existsb culprit
    (trace (ending (handleCleanup Demo.env Demo.g (Demo.start Cases.stuck))))
  = true.
Proof.
  destruct (flow_fails_iff_a_step_failed Demo.env Demo.g
              (Demo.start Cases.stuck)) as [[Hfails _] _].
  - by_run.
  - apply Hfails. by_run.
Defined.


Lemma unconvertible_name_is_fatal_witness :
  exitCode (invoke Demo.cfg Demo.env Cases.opaqueNumber
              (Demo.start Demo.scenario1)) = 1%Z
  /\ trace (invoke Demo.cfg Demo.env Cases.opaqueNumber
              (Demo.start Demo.scenario1))
     = [Uncaught (Exn "Cannot convert object to primitive value")].
Proof.
  destruct (unconvertible_name_is_fatal Demo.cfg Demo.env Cases.opaqueNumber
              (Demo.start Demo.scenario1)) as (Hc & _ & Ht).
  - by_run.
  - by_run.
  - split; [exact Hc | exact Ht].
Defined.

Lemma unconvertible_action_is_fatal_witness :
  exitCode (invoke Demo.cfg Demo.env Cases.opaqueAction
              (Demo.start Demo.scenario1)) = 1%Z
  /\ trace (invoke Demo.cfg Demo.env Cases.opaqueAction
              (Demo.start Demo.scenario1))
     = [Uncaught (Exn "Cannot convert object to primitive value")].
Proof.
  destruct (unconvertible_action_is_fatal Demo.cfg Demo.env Cases.opaqueAction
              (Demo.start Demo.scenario1)) as (Hc & _ & Ht).
  - by_run.
  - by_run.
  - by_run.
  - split; [exact Hc | exact Ht].
Defined.

(** The target of the deletion can lie outside the scratch clone: for a
    pull request whose [number] is the text [../..] the preview path is
    [docs-site/../..], the target is [/tmp], and it is deleted. *)
Lemma cleanup_can_delete_outside_scratch :
  let r := invoke Demo.cfg Demo.env Cases.dotted (Demo.start Demo.published) in
  previewPath (globalsOf Demo.cfg Cases.dotted) = "docs-site/../.."
  /\ Path.join ["/tmp/preview-repo-cleanup-1000"; "docs-site/../.."] = "/tmp"
  /\ In (Exists "/tmp" true) (trace r)
  /\ In (Exec (DeleteTarget "/tmp") None) (trace r).
Proof.
  cbv zeta. split; [by_run |]. split; [by_run |].
  split; apply occurs_In; by_run.
Qed.
